(** * pg_backup_ctl++ : the catalog command layer

    A shallow embedding of the command objects of [commands.cxx]
    (create/drop archive, create connection, create/list backup profile,
    list archive, start basebackup) together with the descriptors of
    [descr.hxx] they operate on.

    The commands are stateful and exception driven.  They are written here
    in a small state-and-exception monad over a [World] that holds the
    backup catalog, the open transaction, the record of the calls issued
    against the catalog and the replication stream, and the text written to
    the terminal.  A C++ [try { ... } catch (CPGBackupCtlFailure &e) { ... }]
    becomes [try_catch body handler]; [throw e] inside such a handler
    raises a copy of what the handler caught, made from the static type of
    [e]. *)

From Stdlib Require Import ZArith NArith List String Ascii Bool Lia DecimalString.
Import ListNotations.

Local Open Scope string_scope.
Local Open Scope Z_scope.
Local Open Scope list_scope.

(** ** Text helpers *)

(** The double quote, tabulator and line feed characters that the C++
    sources write as escape sequences. *)
Definition dquote : string := String (ascii_of_nat 34) EmptyString.
Definition tab : string := String (ascii_of_nat 9) EmptyString.
Definition endl : string := String (ascii_of_nat 10) EmptyString.

Definition cat (l : list string) : string := String.concat EmptyString l.

Fixpoint spaces (n : nat) : string :=
  match n with
  | O => EmptyString
  | S n' => String (ascii_of_nat 32) (spaces n')
  end.

(** [%-Ns]: the argument, left justified in a field of [N] characters. *)
Definition left_justify (width : nat) (s : string) : string :=
  String.append s (spaces (width - String.length s)).

(** [boost::format("%-Ns\t%-Ms") % a % b]. *)
Definition format2 (w1 w2 : nat) (a b : string) : string :=
  cat [left_justify w1 a; tab; left_justify w2 b].

Definition str_of_Z (z : Z) : string := NilZero.string_of_int (Z.to_int z).
Definition str_of_N (n : N) : string := NilZero.string_of_uint (N.to_uint n).
Definition str_of_bool (b : bool) : string := if b then "1"%string else "0"%string.

(** ** Failures (common.hxx)

    [CPGBackupCtlFailure] is the base class; it derives from
    [std::exception] and carries the message that [what()] returns.
    [CArchiveIssue] and [CCatalogIssue] are the two subclasses the
    commands throw. *)

(** Modelled from the spec: the declarations of [CArchiveIssue] and
    [CCatalogIssue] are not in the headers at hand; the specification has
    a single error hierarchy with the archive error and the catalog error
    as kinds of the base error. *)
Inductive FailureClass : Type :=
| CPGBackupCtlFailure
| CArchiveIssue
| CCatalogIssue.

Record Failure : Type := mkFailure { fclass : FailureClass; what : string }.

(** What a caller can be handed: an object of the hierarchy of
    [CPGBackupCtlFailure], or a [std::exception] that is nothing more. *)
Inductive Exception : Type :=
| Derived (e : Failure)
| std_exception.

Coercion Derived : Failure >-> Exception.

(** [throw e;] in a handler that caught [CPGBackupCtlFailure& e].  The
    exception object is copy-initialised from the static type of the
    operand: whatever subclass was caught, the caller gets a
    [CPGBackupCtlFailure], which keeps the message (the copy constructor
    copies [errstr]). *)
Definition sliced (e : Failure) : Failure := mkFailure CPGBackupCtlFailure (what e).

(** [throw e;] in a handler that caught [exception& e]: the caller gets a
    [std::exception], which has no message of its own. *)
Definition sliced_to_exception (e : Exception) : Exception := std_exception.

(** ** Column identifiers (catalog.hxx) *)

Definition SQL_ARCHIVE_ID_ATTNO : Z := 0.
Definition SQL_ARCHIVE_NAME_ATTNO : Z := 1.
Definition SQL_ARCHIVE_DIRECTORY_ATTNO : Z := 2.
Definition SQL_ARCHIVE_COMPRESSION_ATTNO : Z := 3.
Definition SQL_ARCHIVE_PGHOST_ATTNO : Z := 4.
Definition SQL_ARCHIVE_PGPORT_ATTNO : Z := 5.
Definition SQL_ARCHIVE_PGUSER_ATTNO : Z := 6.
Definition SQL_ARCHIVE_PGDATABASE_ATTNO : Z := 7.

(** Modelled from the spec: the [SQL_CON_*] macros are used by the commands
    but their definitions are not in the header at hand.  The specification
    enumerates the connection columns as archive_id, type, dsn, pghost,
    pgport, pguser, pgdatabase; they are numbered in that order. *)
Definition SQL_CON_ARCHIVE_ID_ATTNO : Z := 0.
Definition SQL_CON_TYPE_ATTNO : Z := 1.
Definition SQL_CON_DSN_ATTNO : Z := 2.
Definition SQL_CON_PGHOST_ATTNO : Z := 3.
Definition SQL_CON_PGPORT_ATTNO : Z := 4.
Definition SQL_CON_PGUSER_ATTNO : Z := 5.
Definition SQL_CON_PGDATABASE_ATTNO : Z := 6.

(** Modelled from the spec: the [SQL_BCK_PROF_*] macros, likewise missing.
    The specification lists the profile attributes as profile_id, name,
    compress_type, max_rate, label, fast_checkpoint, include_wal,
    wait_for_wal; they are numbered in that order. *)
Definition SQL_BCK_PROF_ID_ATTNO : Z := 0.
Definition SQL_BCK_PROF_NAME_ATTNO : Z := 1.
Definition SQL_BCK_PROF_COMPRESS_TYPE_ATTNO : Z := 2.
Definition SQL_BCK_PROF_MAX_RATE_ATTNO : Z := 3.
Definition SQL_BCK_PROF_LABEL_ATTNO : Z := 4.
Definition SQL_BCK_PROF_FAST_CHKPT_ATTNO : Z := 5.
Definition SQL_BCK_PROF_INCL_WAL_ATTNO : Z := 6.
Definition SQL_BCK_PROF_WAIT_FOR_WAL_ATTNO : Z := 7.

Definition affected (col : Z) (attrs : list Z) : bool := existsb (Z.eqb col) attrs.

(** ** Descriptors (descr.hxx) *)

Inductive CatalogTag : Type :=
| EMPTY_DESCR | CREATE_ARCHIVE | CREATE_BACKUP_PROFILE | CREATE_CONNECTION
| DROP_ARCHIVE | DROP_BACKUP_PROFILE | DROP_CONNECTION | EXEC_COMMAND
| ALTER_ARCHIVE | VERIFY_ARCHIVE | START_BASEBACKUP | LIST_ARCHIVE
| LIST_BACKUP_PROFILE | LIST_BACKUP_PROFILE_DETAIL | LIST_BACKUP_CATALOG
| LIST_BACKUP_LIST | LIST_CONNECTION | PIN_BASEBACKUP | UNPIN_BASEBACKUP
| START_LAUNCHER | START_STREAMING_FOR_ARCHIVE
| START_RECOVERY_STREAM_FOR_ARCHIVE | STOP_STREAMING_FOR_ARCHIVE
| SHOW_WORKERS | BACKGROUND_WORKER_COMMAND | CREATE_RETENTION_POLICY
| LIST_RETENTION_POLICIES | LIST_RETENTION_POLICY | DROP_RETENTION_POLICY
| APPLY_RETENTION_POLICY | SHOW_VARIABLES | SHOW_VARIABLE | SET_VARIABLE
| RESET_VARIABLE | DROP_BASEBACKUP.

Inductive BackupProfileCompressType : Type :=
| BACKUP_COMPRESS_TYPE_NONE
| BACKUP_COMPRESS_TYPE_GZIP
| BACKUP_COMPRESS_TYPE_ZSTD
| BACKUP_COMPRESS_TYPE_PBZIP
| BACKUP_COMPRESS_TYPE_PLAIN.

(** [class ConnectionDescr : public PushableCols]. *)
Module ConnectionDescr.

Definition CONNECTION_TYPE_BASEBACKUP : string := "basebackup".
Definition CONNECTION_TYPE_STREAMER : string := "streamer".
Definition CONNECTION_TYPE_UNKNOWN : string := "unknown".

Record t : Type := mk {
  affectedAttributes : list Z;
  archive_id : Z;
  type : string;
  pghost : string;
  pgport : Z;
  pguser : string;
  pgdatabase : string;
  dsn : string
}.

(** The member initialisers of the class. *)
Definition init : t :=
  mk [] (-1) CONNECTION_TYPE_UNKNOWN EmptyString (-1) EmptyString EmptyString EmptyString.

Definition pushAffectedAttribute (colId : Z) (c : t) : t :=
  mk (affectedAttributes c ++ [colId]) (archive_id c) (type c) (pghost c)
     (pgport c) (pguser c) (pgdatabase c) (dsn c).

Definition set_archive_id (v : Z) (c : t) : t :=
  mk (affectedAttributes c) v (type c) (pghost c) (pgport c) (pguser c)
     (pgdatabase c) (dsn c).

Definition set_type (v : string) (c : t) : t :=
  mk (affectedAttributes c) (archive_id c) v (pghost c) (pgport c) (pguser c)
     (pgdatabase c) (dsn c).

End ConnectionDescr.

(** [class BackupProfileDescr : public PushableCols]. *)
Module BackupProfileDescr.

Record t : Type := mk {
  affectedAttributes : list Z;
  profile_id : Z;
  name : string;
  compress_type : BackupProfileCompressType;
  max_rate : N;                       (* unsigned int *)
  label : string;
  fast_checkpoint : bool;
  include_wal : bool;
  wait_for_wal : bool;
  noverify_checksums : bool
}.

Definition init : t :=
  mk [] (-1) EmptyString BACKUP_COMPRESS_TYPE_NONE 0%N "PG_BCK_CTL BASEBACKUP"
     false false true false.

Definition setAffectedAttributes (attrs : list Z) (p : t) : t :=
  mk attrs (profile_id p) (name p) (compress_type p) (max_rate p) (label p)
     (fast_checkpoint p) (include_wal p) (wait_for_wal p) (noverify_checksums p).

Definition set_name (v : string) (p : t) : t :=
  mk (affectedAttributes p) (profile_id p) v (compress_type p) (max_rate p)
     (label p) (fast_checkpoint p) (include_wal p) (wait_for_wal p)
     (noverify_checksums p).

End BackupProfileDescr.

(** [class BackupTablespaceDescr : public PushableCols]. *)
Module BackupTablespaceDescr.

Record t : Type := mk {
  id : Z;
  backup_id : Z;
  spcoid : N;
  spclocation : string;
  spcsize : N
}.

Definition set_id (v : Z) (d : t) : t :=
  mk v (backup_id d) (spcoid d) (spclocation d) (spcsize d).

Definition set_backup_id (v : Z) (d : t) : t :=
  mk (id d) v (spcoid d) (spclocation d) (spcsize d).

End BackupTablespaceDescr.

(** [class BaseBackupDescr : public PushableCols]. *)
Module BaseBackupDescr.

Definition BASEBACKUP_STATUS_IN_PROGRESS : string := "in progress".
Definition BASEBACKUP_STATUS_ABORTED : string := "aborted".
Definition BASEBACKUP_STATUS_READY : string := "ready".

Record t : Type := mk {
  id : Z;
  archive_id : Z;
  xlogpos : string;
  xlogposend : string;
  timeline : Z;
  label : string;
  fsentry : string;
  started : string;
  stopped : string;
  pinned : Z;
  status : string;
  systemid : string;
  wal_segment_size : N;
  used_profile : Z
}.

Definition set_id (v : Z) (d : t) : t :=
  mk v (archive_id d) (xlogpos d) (xlogposend d) (timeline d) (label d)
     (fsentry d) (started d) (stopped d) (pinned d) (status d) (systemid d)
     (wal_segment_size d) (used_profile d).

Definition set_archive_id (v : Z) (d : t) : t :=
  mk (id d) v (xlogpos d) (xlogposend d) (timeline d) (label d)
     (fsentry d) (started d) (stopped d) (pinned d) (status d) (systemid d)
     (wal_segment_size d) (used_profile d).

Definition set_fsentry (v : string) (d : t) : t :=
  mk (id d) (archive_id d) (xlogpos d) (xlogposend d) (timeline d) (label d)
     v (started d) (stopped d) (pinned d) (status d) (systemid d)
     (wal_segment_size d) (used_profile d).

Definition set_status (v : string) (d : t) : t :=
  mk (id d) (archive_id d) (xlogpos d) (xlogposend d) (timeline d) (label d)
     (fsentry d) (started d) (stopped d) (pinned d) v (systemid d)
     (wal_segment_size d) (used_profile d).

Definition set_end (stop xend : string) (d : t) : t :=
  mk (id d) (archive_id d) (xlogpos d) xend (timeline d) (label d)
     (fsentry d) (started d) stop (pinned d) (status d) (systemid d)
     (wal_segment_size d) (used_profile d).

(** The member initialisers of the class; members without one are given
    the empty string and zero. *)
Definition init : t :=
  mk (-1) (-1) EmptyString EmptyString 0 EmptyString EmptyString EmptyString
     EmptyString 0 BASEBACKUP_STATUS_IN_PROGRESS EmptyString 0%N (-1).

End BaseBackupDescr.

(** [class CatalogDescr], restricted to the members that
    [BaseCatalogCommand::copy] transfers into a command. *)
Module CatalogDescr.

Record t : Type := mk {
  affectedAttributes : list Z;
  tag : CatalogTag;
  id : Z;
  archive_name : string;
  label : string;
  compression : bool;
  directory : string;
  coninfo : ConnectionDescr.t;
  backup_profile : BackupProfileDescr.t;
  detach : bool
}.

Definition init : t :=
  mk [] EMPTY_DESCR (-1) EmptyString EmptyString false EmptyString
     ConnectionDescr.init BackupProfileDescr.init true.

Definition set_id (v : Z) (d : t) : t :=
  mk (affectedAttributes d) (tag d) v (archive_name d) (label d)
     (compression d) (directory d) (coninfo d) (backup_profile d) (detach d).

Definition set_coninfo (c : ConnectionDescr.t) (d : t) : t :=
  mk (affectedAttributes d) (tag d) (id d) (archive_name d) (label d)
     (compression d) (directory d) c (backup_profile d) (detach d).

Definition getBackupProfileDescr (d : t) : BackupProfileDescr.t := backup_profile d.

(** Modelled from the spec: [CatalogDescr::setArchiveId] is declared in
    descr.hxx, its body is not at hand.  The commands rely on it to give
    both the descriptor and its connection handle the archive id
    (create-connection inserts [coninfo] right after calling it). *)
Definition setArchiveId (archive_id : Z) (d : t) : t :=
  set_coninfo (ConnectionDescr.set_archive_id archive_id (coninfo d))
              (set_id archive_id d).

(** Modelled from the spec: [CatalogDescr::setConnectionType], declared in
    descr.hxx; it sets the type of the connection handle. *)
Definition setConnectionType (type : string) (d : t) : t :=
  set_coninfo (ConnectionDescr.set_type type (coninfo d)) d.

End CatalogDescr.

(** ** The backup catalog store

    [class BackupCatalog] belongs to this repository, but neither its
    declaration nor its implementation is among the sources at hand; only
    the calls the commands make are.  Its tables and operations are
    written from the specification's description of the store. *)

Inductive Raises (X A : Type) : Type :=
| Ok (a : A)
| Throw (e : X).
Arguments Ok {X A} a.
Arguments Throw {X A} & e.

(** What an operation of a collaborator answers: a value, or a failure of
    the hierarchy of [CPGBackupCtlFailure]. *)
Definition Refusal (A : Type) : Type := Raises Failure A.

(** How a run ends: with a value, or with an exception. *)
Definition Res (A : Type) : Type := Raises Exception A.

Module BackupCatalog.

(** Modelled from the spec: an archive row has the columns id, name,
    directory and compression. *)
Record ArchiveRow : Type := mkArchiveRow {
  arch_id : Z;
  arch_name : string;
  arch_directory : string;
  arch_compression : bool
}.

(** Modelled from the spec: the persistent rows of the catalog, one list
    per table, in insertion order. *)
Record Tables : Type := mkTables {
  archive : list ArchiveRow;
  connections : list ConnectionDescr.t;
  backup_profiles : list BackupProfileDescr.t;
  backup : list BaseBackupDescr.t;
  backup_tablespaces : list BackupTablespaceDescr.t
}.

(** Modelled from the spec: the catalog before anything is persisted. *)
Definition empty : Tables := mkTables [] [] [] [] [].

Definition set_archive (v : list ArchiveRow) (t : Tables) : Tables :=
  mkTables v (connections t) (backup_profiles t) (backup t) (backup_tablespaces t).
Definition set_connections (v : list ConnectionDescr.t) (t : Tables) : Tables :=
  mkTables (archive t) v (backup_profiles t) (backup t) (backup_tablespaces t).
Definition set_backup_profiles (v : list BackupProfileDescr.t) (t : Tables) : Tables :=
  mkTables (archive t) (connections t) v (backup t) (backup_tablespaces t).
Definition set_backup (v : list BaseBackupDescr.t) (t : Tables) : Tables :=
  mkTables (archive t) (connections t) (backup_profiles t) v (backup_tablespaces t).
Definition set_backup_tablespaces (v : list BackupTablespaceDescr.t) (t : Tables) : Tables :=
  mkTables (archive t) (connections t) (backup_profiles t) (backup t) v.

(** Modelled from the spec: a surrogate id is non-negative once persisted
    and new; the store hands out one above every id of the table. *)
Definition next_id (ids : list Z) : Z := 1 + fold_right Z.max (-1) ids.

(** Modelled from the spec: the descriptor a lookup returns for an archive
    row; the connection handle is not filled in by the lookup. *)
Definition descr_of_row (r : ArchiveRow) : CatalogDescr.t :=
  CatalogDescr.mk [] EMPTY_DESCR (arch_id r) (arch_name r) EmptyString
    (arch_compression r) (arch_directory r) ConnectionDescr.init
    BackupProfileDescr.init true.

Definition has_name (name : string) (r : ArchiveRow) : bool :=
  String.eqb (arch_name r) name.
Definition has_directory (directory : string) (r : ArchiveRow) : bool :=
  String.eqb (arch_directory r) directory.

(** Modelled from the spec: [exists_by_name(name)] returns a descriptor
    with [id = -1] if no archive has the name. *)
Definition existsByName (name : string) (t : Tables) : CatalogDescr.t :=
  match find (has_name name) (archive t) with
  | Some r => descr_of_row r
  | None => CatalogDescr.init
  end.

(** Modelled from the spec: [exists(directory)], same contract. *)
Definition exists_ (directory : string) (t : Tables) : CatalogDescr.t :=
  match find (has_directory directory) (archive t) with
  | Some r => descr_of_row r
  | None => CatalogDescr.init
  end.

(** Modelled from the spec: [create_archive(descr)] assigns [id]; an
    archive name is unique and so is its directory. *)
Definition createArchive (descr : CatalogDescr.t) (t : Tables)
  : Refusal (CatalogDescr.t * Tables) :=
  if existsb (has_name (CatalogDescr.archive_name descr)) (archive t)
     || existsb (has_directory (CatalogDescr.directory descr)) (archive t)
  then Throw (mkFailure CCatalogIssue "archive name or directory is not unique")
  else
    let new_id := next_id (map arch_id (archive t)) in
    let row := mkArchiveRow new_id (CatalogDescr.archive_name descr)
                 (CatalogDescr.directory descr) (CatalogDescr.compression descr) in
    Ok (CatalogDescr.setArchiveId new_id descr, set_archive (archive t ++ [row]) t).

(** Modelled from the spec: the partial UPDATE of one archive row. *)
Definition update_row (descr : CatalogDescr.t) (attrs : list Z) (r : ArchiveRow)
  : ArchiveRow :=
  if arch_id r =? CatalogDescr.id descr then
    mkArchiveRow (arch_id r)
      (if affected SQL_ARCHIVE_NAME_ATTNO attrs
       then CatalogDescr.archive_name descr else arch_name r)
      (if affected SQL_ARCHIVE_DIRECTORY_ATTNO attrs
       then CatalogDescr.directory descr else arch_directory r)
      (if affected SQL_ARCHIVE_COMPRESSION_ATTNO attrs
       then CatalogDescr.compression descr else arch_compression r)
  else r.

(** The row is the one an UPDATE for the descriptor's id is about. *)
Definition has_id (id : Z) (r : ArchiveRow) : bool := arch_id r =? id.

(** Modelled from the spec: the directory of an archive is immutable after
    create.  An UPDATE that names the directory column moves an archive if
    a row it is about has another directory than the descriptor. *)
Definition moves_archive (descr : CatalogDescr.t) (attrs : list Z) (t : Tables) : bool :=
  affected SQL_ARCHIVE_DIRECTORY_ATTNO attrs
  && existsb (fun r => has_id (CatalogDescr.id descr) r
                       && negb (has_directory (CatalogDescr.directory descr) r))
             (archive t).

(** Modelled from the spec: an archive name is unique.  An UPDATE that
    names the name column takes a name if it is about a row and another
    row has the descriptor's name already. *)
Definition takes_name (descr : CatalogDescr.t) (attrs : list Z) (t : Tables) : bool :=
  affected SQL_ARCHIVE_NAME_ATTNO attrs
  && existsb (has_id (CatalogDescr.id descr)) (archive t)
  && existsb (fun r => negb (has_id (CatalogDescr.id descr) r)
                       && has_name (CatalogDescr.archive_name descr) r)
             (archive t).

(** Modelled from the spec: [update_archive_attributes(descr, attrs)]
    updates only the columns in [attrs], on the row with the
    descriptor's id; as [create_archive] does, the store refuses what
    would break the constraints on name and directory. *)
Definition updateArchiveAttributes (descr : CatalogDescr.t) (attrs : list Z)
    (t : Tables) : Refusal (unit * Tables) :=
  if moves_archive descr attrs t
  then Throw (mkFailure CCatalogIssue "the directory of an archive cannot be changed")
  else if takes_name descr attrs t
  then Throw (mkFailure CCatalogIssue "archive name is not unique")
  else Ok (tt, set_archive (map (update_row descr attrs) (archive t)) t).

Definition archive_ids_named (name : string) (t : Tables) : list Z :=
  map arch_id (filter (has_name name) (archive t)).

Definition mem (x : Z) (l : list Z) : bool := existsb (Z.eqb x) l.

(** Modelled from the spec: [drop_archive(name)] cascades to the
    connections, the base backups and their tablespaces. *)
Definition dropArchive (name : string) (t : Tables) : Tables :=
  let gone := archive_ids_named name t in
  let dead := map BaseBackupDescr.id
                (filter (fun b => mem (BaseBackupDescr.archive_id b) gone) (backup t)) in
  mkTables
    (filter (fun r => negb (has_name name r)) (archive t))
    (filter (fun c => negb (mem (ConnectionDescr.archive_id c) gone)) (connections t))
    (backup_profiles t)
    (filter (fun b => negb (mem (BaseBackupDescr.archive_id b) gone)) (backup t))
    (filter (fun s => negb (mem (BackupTablespaceDescr.backup_id s) dead))
            (backup_tablespaces t)).

Definition con_key (archive_id : Z) (type : string) (c : ConnectionDescr.t) : bool :=
  (ConnectionDescr.archive_id c =? archive_id) && String.eqb (ConnectionDescr.type c) type.

(** Modelled from the spec: the columns named by the descriptor's affected
    attributes are read from the row; the other members keep their
    value. *)
Definition fill (row con : ConnectionDescr.t) : ConnectionDescr.t :=
  let a := ConnectionDescr.affectedAttributes con in
  let pick {T : Type} (col : Z) (f : ConnectionDescr.t -> T) : T :=
    if affected col a then f row else f con in
  ConnectionDescr.mk a
    (pick SQL_CON_ARCHIVE_ID_ATTNO ConnectionDescr.archive_id)
    (pick SQL_CON_TYPE_ATTNO ConnectionDescr.type)
    (pick SQL_CON_PGHOST_ATTNO ConnectionDescr.pghost)
    (pick SQL_CON_PGPORT_ATTNO ConnectionDescr.pgport)
    (pick SQL_CON_PGUSER_ATTNO ConnectionDescr.pguser)
    (pick SQL_CON_PGDATABASE_ATTNO ConnectionDescr.pgdatabase)
    (pick SQL_CON_DSN_ATTNO ConnectionDescr.dsn).

(** Modelled from the spec: [get_catalog_connection(conn_out, archive_id,
    type)] fills the provided descriptor and sets [archive_id = -1] if
    there is no row. *)
Definition getCatalogConnection (con : ConnectionDescr.t) (archive_id : Z)
    (type : string) (t : Tables) : ConnectionDescr.t :=
  match find (con_key archive_id type) (connections t) with
  | Some row => fill row con
  | None => ConnectionDescr.set_archive_id (-1) con
  end.

(** Modelled from the spec: the row persisted for a connection handle. *)
Definition con_row (c : ConnectionDescr.t) : ConnectionDescr.t :=
  ConnectionDescr.mk [] (ConnectionDescr.archive_id c) (ConnectionDescr.type c)
    (ConnectionDescr.pghost c) (ConnectionDescr.pgport c) (ConnectionDescr.pguser c)
    (ConnectionDescr.pgdatabase c) (ConnectionDescr.dsn c).

(** Modelled from the spec: [create_catalog_connection(conn)];
    [(archive_id, type)] is the primary key of the connections. *)
Definition createCatalogConnection (con : ConnectionDescr.t) (t : Tables)
  : Refusal (unit * Tables) :=
  if existsb (con_key (ConnectionDescr.archive_id con) (ConnectionDescr.type con))
             (connections t)
  then Throw (mkFailure CCatalogIssue "connection violates the primary key (archive_id, type)")
  else Ok (tt, set_connections (connections t ++ [con_row con]) t).

Definition profile_named (name : string) (p : BackupProfileDescr.t) : bool :=
  String.eqb (BackupProfileDescr.name p) name.

(** Modelled from the spec: [get_backup_profile(name)] returns the
    [profile_id = -1] sentinel if absent. *)
Definition getBackupProfile (name : string) (t : Tables) : BackupProfileDescr.t :=
  match find (profile_named name) (backup_profiles t) with
  | Some p => p
  | None => BackupProfileDescr.init
  end.

Definition getBackupProfiles (t : Tables) : list BackupProfileDescr.t :=
  backup_profiles t.

(** Modelled from the spec: the row a partial INSERT writes; the columns
    of the affected attributes come from the descriptor, the others keep
    their default. *)
Definition profile_row (new_id : Z) (p : BackupProfileDescr.t) : BackupProfileDescr.t :=
  let a := BackupProfileDescr.affectedAttributes p in
  let d := BackupProfileDescr.init in
  let pick {T : Type} (col : Z) (f : BackupProfileDescr.t -> T) : T :=
    if affected col a then f p else f d in
  BackupProfileDescr.mk [] new_id
    (pick SQL_BCK_PROF_NAME_ATTNO BackupProfileDescr.name)
    (pick SQL_BCK_PROF_COMPRESS_TYPE_ATTNO BackupProfileDescr.compress_type)
    (pick SQL_BCK_PROF_MAX_RATE_ATTNO BackupProfileDescr.max_rate)
    (pick SQL_BCK_PROF_LABEL_ATTNO BackupProfileDescr.label)
    (pick SQL_BCK_PROF_FAST_CHKPT_ATTNO BackupProfileDescr.fast_checkpoint)
    (pick SQL_BCK_PROF_INCL_WAL_ATTNO BackupProfileDescr.include_wal)
    (pick SQL_BCK_PROF_WAIT_FOR_WAL_ATTNO BackupProfileDescr.wait_for_wal)
    (BackupProfileDescr.noverify_checksums d).

(** Modelled from the spec: [create_backup_profile(descr)], a partial
    INSERT driven by the affected attributes; a profile name is unique. *)
Definition createBackupProfile (p : BackupProfileDescr.t) (t : Tables)
  : Refusal (unit * Tables) :=
  let row := profile_row (next_id (map BackupProfileDescr.profile_id (backup_profiles t))) p in
  if existsb (profile_named (BackupProfileDescr.name row)) (backup_profiles t)
  then Throw (mkFailure CCatalogIssue "backup profile name is not unique")
  else Ok (tt, set_backup_profiles (backup_profiles t ++ [row]) t).

(** Modelled from the spec: [register_basebackup(archive_id, descr)]
    assigns [id] and status [in progress]. *)
Definition registerBasebackup (archive_id : Z) (d : BaseBackupDescr.t) (t : Tables)
  : BaseBackupDescr.t * Tables :=
  let row := BaseBackupDescr.set_status BaseBackupDescr.BASEBACKUP_STATUS_IN_PROGRESS
               (BaseBackupDescr.set_archive_id archive_id
                  (BaseBackupDescr.set_id (next_id (map BaseBackupDescr.id (backup t))) d)) in
  (row, set_backup (backup t ++ [row]) t).

(** Modelled from the spec: an UPDATE of the base backup with the id. *)
Definition on_backup (id : Z) (f : BaseBackupDescr.t -> BaseBackupDescr.t)
    (b : BaseBackupDescr.t) : BaseBackupDescr.t :=
  if BaseBackupDescr.id b =? id then f b else b.

(** Modelled from the spec: [abort_basebackup(descr)] sets status
    [aborted]. *)
Definition abortBasebackup (d : BaseBackupDescr.t) (t : Tables) : Tables :=
  set_backup
    (map (on_backup (BaseBackupDescr.id d)
            (BaseBackupDescr.set_status BaseBackupDescr.BASEBACKUP_STATUS_ABORTED))
         (backup t)) t.

(** Modelled from the spec: [finalize_basebackup(descr)] sets status
    [ready] and records [stopped] and [xlogposend]. *)
Definition finalizeBasebackup (d : BaseBackupDescr.t) (t : Tables) : Tables :=
  set_backup
    (map (on_backup (BaseBackupDescr.id d)
            (fun b => BaseBackupDescr.set_status BaseBackupDescr.BASEBACKUP_STATUS_READY
                        (BaseBackupDescr.set_end (BaseBackupDescr.stopped d)
                           (BaseBackupDescr.xlogposend d) b)))
         (backup t)) t.

(** Modelled from the spec: [register_tablespace_for_backup(descr)]
    requires [backup_id >= 0]. *)
Definition registerTablespaceForBackup (s : BackupTablespaceDescr.t) (t : Tables)
  : Refusal (unit * Tables) :=
  if BackupTablespaceDescr.backup_id s <? 0
  then Throw (mkFailure CCatalogIssue "tablespace without a backup id")
  else
    let row := BackupTablespaceDescr.set_id
                 (next_id (map BackupTablespaceDescr.id (backup_tablespaces t))) s in
    Ok (tt, set_backup_tablespaces (backup_tablespaces t ++ [row]) t).

(** Modelled from the spec: the row of a base backup, looked up by id. *)
Definition find_backup (id : Z) (t : Tables) : option BaseBackupDescr.t :=
  find (fun b => BaseBackupDescr.id b =? id) (backup t).

(** Modelled from the spec: the WHERE-clause predicate of a filtered
    archive list. *)
Definition filter_match (descr : CatalogDescr.t) (attrs : list Z) (r : ArchiveRow) : bool :=
  (negb (affected SQL_ARCHIVE_ID_ATTNO attrs) || (arch_id r =? CatalogDescr.id descr))
  && (negb (affected SQL_ARCHIVE_NAME_ATTNO attrs)
      || String.eqb (arch_name r) (CatalogDescr.archive_name descr))
  && (negb (affected SQL_ARCHIVE_DIRECTORY_ATTNO attrs)
      || String.eqb (arch_directory r) (CatalogDescr.directory descr))
  && (negb (affected SQL_ARCHIVE_COMPRESSION_ATTNO attrs)
      || Bool.eqb (arch_compression r) (CatalogDescr.compression descr)).

(** Modelled from the spec: an archive row listed with the connection of
    type basebackup it owns. *)
Definition listed (t : Tables) (r : ArchiveRow) : CatalogDescr.t :=
  CatalogDescr.set_coninfo
    (match find (con_key (arch_id r) ConnectionDescr.CONNECTION_TYPE_BASEBACKUP)
                (connections t) with
     | Some c => c
     | None => ConnectionDescr.init
     end)
    (descr_of_row r).

(** Modelled from the spec: the archive list, unfiltered or with the
    descriptor's affected attributes as the WHERE-clause predicate. *)
Definition getArchiveList (flt : option (CatalogDescr.t * list Z)) (t : Tables)
  : list CatalogDescr.t :=
  match flt with
  | None => map (listed t) (archive t)
  | Some (descr, attrs) => map (listed t) (filter (filter_match descr attrs) (archive t))
  end.

End BackupCatalog.

(** ** The world a command runs in *)

(** The calls a command issues against the catalog handle, the replication
    stream and the archive directory handle. *)
Inductive Call : Type :=
| c_open_rw
| c_close
| c_startTransaction
| c_commitTransaction
| c_rollbackTransaction
| c_existsByName (name : string)
| c_exists (directory : string)
| c_createArchive (descr : CatalogDescr.t)
| c_updateArchiveAttributes (descr : CatalogDescr.t) (attrs : list Z)
| c_dropArchive (name : string)
| c_getArchiveList (flt : option (CatalogDescr.t * list Z))
| c_getCatalogConnection (archive_id : Z) (type : string)
| c_createCatalogConnection (con : ConnectionDescr.t)
| c_getBackupProfile (name : string)
| c_getBackupProfiles
| c_createBackupProfile (profile : BackupProfileDescr.t)
| c_registerBasebackup (archive_id : Z) (descr : BaseBackupDescr.t)
| c_abortBasebackup (descr : BaseBackupDescr.t)
| c_finalizeBasebackup (descr : BaseBackupDescr.t)
| c_registerTablespaceForBackup (descr : BackupTablespaceDescr.t)
| c_connect
| c_identify
| c_basebackup (profile : BackupProfileDescr.t)
| c_start
| c_initialize
| c_create
| c_readTablespaceInfo
| c_stepTablespace
| c_backupTablespace (descr : BackupTablespaceDescr.t)
| c_end
| c_disconnect.

Inductive Outcome : Type :=
| Done
| Threw (e : Failure).

(** One call: what was called, whether a catalog transaction was in
    progress when it was issued, and how it ended. *)
Record Entry : Type := mkEntry {
  call_of : Call;
  in_transaction : bool;
  outcome : Outcome
}.

(** What a command writes to the terminal. *)
Inductive Out : Type :=
| Cout (s : string)
| Cerr (s : string)
| Header (caption formatted : string) (width : Z)   (* CPGBackupCtlBase::makeHeader *)
| Line (formatted : string)                         (* CPGBackupCtlBase::makeLine(format) *)
| Rule (width : Z).                                 (* CPGBackupCtlBase::makeLine(width) *)

Record World : Type := mkWorld {
  (** [BackupCatalog::available()] *)
  catalog_open : bool;
  (** the rows of the catalog, uncommitted changes included *)
  db : BackupCatalog.Tables;
  (** the rows as they were when the open transaction started *)
  transaction : option BackupCatalog.Tables;
  (** the failures the environment is going to raise: one position per
      call, [Some e] makes that call throw [e] *)
  faults : list (option Failure);
  (** the calls issued so far, oldest first *)
  trace : list Entry;
  (** the terminal, oldest line first *)
  terminal : list Out;
  (** the base backup descriptor behind [bbp->getBaseBackupDescr()];
      [None] while [bbp] is the null pointer *)
  bbp : option BaseBackupDescr.t;
  (** locals of [StartBasebackupCatalogCommand::execute] that its handlers
      read after the protected block wrote them *)
  basebackup_registered : bool;
  txinprogress : bool
}.

Definition set_catalog_open (v : bool) (w : World) : World :=
  mkWorld v (db w) (transaction w) (faults w) (trace w) (terminal w) (bbp w)
          (basebackup_registered w) (txinprogress w).
Definition set_db (v : BackupCatalog.Tables) (w : World) : World :=
  mkWorld (catalog_open w) v (transaction w) (faults w) (trace w) (terminal w) (bbp w)
          (basebackup_registered w) (txinprogress w).
Definition set_transaction (v : option BackupCatalog.Tables) (w : World) : World :=
  mkWorld (catalog_open w) (db w) v (faults w) (trace w) (terminal w) (bbp w)
          (basebackup_registered w) (txinprogress w).
Definition set_faults (v : list (option Failure)) (w : World) : World :=
  mkWorld (catalog_open w) (db w) (transaction w) v (trace w) (terminal w) (bbp w)
          (basebackup_registered w) (txinprogress w).
Definition set_trace (v : list Entry) (w : World) : World :=
  mkWorld (catalog_open w) (db w) (transaction w) (faults w) v (terminal w) (bbp w)
          (basebackup_registered w) (txinprogress w).
Definition set_terminal (v : list Out) (w : World) : World :=
  mkWorld (catalog_open w) (db w) (transaction w) (faults w) (trace w) v (bbp w)
          (basebackup_registered w) (txinprogress w).
Definition set_bbp (v : option BaseBackupDescr.t) (w : World) : World :=
  mkWorld (catalog_open w) (db w) (transaction w) (faults w) (trace w) (terminal w) v
          (basebackup_registered w) (txinprogress w).
Definition set_basebackup_registered (v : bool) (w : World) : World :=
  mkWorld (catalog_open w) (db w) (transaction w) (faults w) (trace w) (terminal w) (bbp w)
          v (txinprogress w).
Definition set_txinprogress (v : bool) (w : World) : World :=
  mkWorld (catalog_open w) (db w) (transaction w) (faults w) (trace w) (terminal w) (bbp w)
          (basebackup_registered w) v.

(** A catalog that is open, holds the given rows and has no transaction in
    progress; the environment raises the given failures. *)
Definition world_of (t : BackupCatalog.Tables) (plan : list (option Failure)) : World :=
  mkWorld true t None plan [] [] None false false.

Definition is_some {A : Type} (o : option A) : bool :=
  match o with Some _ => true | None => false end.

Definition record (c : Call) (active : bool) (o : Outcome) (w : World) : World :=
  set_trace (trace w ++ [mkEntry c active o]) w.

(** ** The monad of commands *)

Definition M (A : Type) : Type := World -> Res A * World.

Definition ret {A : Type} (a : A) : M A := fun w => (Ok a, w).

Definition bind {A B : Type} (m : M A) (k : A -> M B) : M B :=
  fun w => match m w with
           | (Ok a, w') => k a w'
           | (Throw e, w') => (Throw e, w')
           end.

Definition throw {A : Type} (e : Exception) : M A := fun w => (Throw e, w).

(** [try { body } catch (CPGBackupCtlFailure &e) { handler }]: what is
    not of the hierarchy passes the handler by. *)
Definition try_catch {A : Type} (body : M A) (handler : Failure -> M A) : M A :=
  fun w => match body w with
           | (Ok a, w') => (Ok a, w')
           | (Throw (Derived e), w') => handler e w'
           | (Throw std_exception, w') => (Throw std_exception, w')
           end.

(** [try { body } catch (exception &e) { handler }]. *)
Definition try_catch_exception {A : Type} (body : M A) (handler : Exception -> M A)
  : M A :=
  fun w => match body w with
           | (Ok a, w') => (Ok a, w')
           | (Throw e, w') => handler e w'
           end.

Definition gets {A : Type} (f : World -> A) : M A := fun w => (Ok (f w), w).
Definition modify (f : World -> World) : M unit := fun w => (Ok tt, f w).

Declare Scope cmd_scope.
Delimit Scope cmd_scope with cmd.
Notation "x <- m ;; k" := (bind m (fun x => k))
  (at level 61, m at next level, right associativity) : cmd_scope.
Notation "m ;; k" := (bind m (fun _ => k))
  (at level 61, right associativity) : cmd_scope.
Local Open Scope cmd_scope.

(** A call that can fail.  The environment's plan is consulted first; a
    call it lets through performs [op], which may itself refuse. *)
Definition call {A : Type} (c : Call) (op : World -> Refusal (A * World)) : M A :=
  fun w =>
    let active := is_some (transaction w) in
    let w1 := set_faults (tl (faults w)) w in
    match hd None (faults w) with
    | Some e => (Throw (Derived e), record c active (Threw e) w1)
    | None =>
        match op w1 with
        | Throw e => (Throw (Derived e), record c active (Threw e) w1)
        | Ok (a, w2) => (Ok a, record c active Done w2)
        end
    end.

(** A call on the rows of the catalog that cannot refuse. *)
Definition on_db {A : Type} (f : BackupCatalog.Tables -> A * BackupCatalog.Tables)
  : World -> Refusal (A * World) :=
  fun w => let (a, t) := f (db w) in Ok (a, set_db t w).

(** A call on the rows of the catalog that the store may refuse. *)
Definition on_db_checked {A : Type}
    (f : BackupCatalog.Tables -> Refusal (A * BackupCatalog.Tables))
  : World -> Refusal (A * World) :=
  fun w => match f (db w) with
           | Ok (a, t) => Ok (a, set_db t w)
           | Throw e => Throw e
           end.

Definition cout (o : Out) : M unit := modify (fun w => set_terminal (terminal w ++ [o]) w).

(** The [catalog] member of a command: the shared handle on the store. *)
Module catalog.

(** Modelled from the spec: [available()] and [open_rw()]. *)
Definition available : M bool := gets catalog_open.

(** Modelled from the spec: [open_rw()] makes the catalog available. *)
Definition open_rw : M unit :=
  call c_open_rw (fun w => Ok (tt, set_catalog_open true w)).

(** Modelled from the spec: [close()]. *)
Definition close : M unit :=
  call c_close (fun w => Ok (tt, set_catalog_open false w)).

(** Modelled from the spec: [start_transaction()] is not reentrant; the
    rows are remembered as they are when the transaction starts. *)
Definition startTransaction : M unit :=
  call c_startTransaction
    (fun w => Ok (tt, match transaction w with
                      | None => set_transaction (Some (db w)) w
                      | Some _ => w
                      end)).

(** Modelled from the spec: [commit()] ends the transaction and keeps the
    rows. *)
Definition commitTransaction : M unit :=
  call c_commitTransaction (fun w => Ok (tt, set_transaction None w)).

(** Modelled from the spec: [rollback()] is what a caller does about a
    failure; it ends the transaction and restores the rows it started
    with.  It is not itself a source of failures, and without a
    transaction in progress it changes nothing. *)
Definition rollbackTransaction : M unit :=
  fun w =>
    (Ok tt,
     record c_rollbackTransaction (is_some (transaction w)) Done
       match transaction w with
       | Some t => set_transaction None (set_db t w)
       | None => w
       end).

Definition existsByName (name : string) : M CatalogDescr.t :=
  call (c_existsByName name)
       (on_db (fun t => (BackupCatalog.existsByName name t, t))).

Definition exists_ (directory : string) : M CatalogDescr.t :=
  call (c_exists directory)
       (on_db (fun t => (BackupCatalog.exists_ directory t, t))).

Definition createArchive (descr : CatalogDescr.t) : M CatalogDescr.t :=
  call (c_createArchive descr) (on_db_checked (BackupCatalog.createArchive descr)).

Definition updateArchiveAttributes (descr : CatalogDescr.t) (attrs : list Z) : M unit :=
  call (c_updateArchiveAttributes descr attrs)
       (on_db_checked (BackupCatalog.updateArchiveAttributes descr attrs)).

Definition dropArchive (name : string) : M unit :=
  call (c_dropArchive name) (on_db (fun t => (tt, BackupCatalog.dropArchive name t))).

Definition getArchiveList (flt : option (CatalogDescr.t * list Z))
  : M (list CatalogDescr.t) :=
  call (c_getArchiveList flt) (on_db (fun t => (BackupCatalog.getArchiveList flt t, t))).

Definition getCatalogConnection (con : ConnectionDescr.t) (archive_id : Z)
    (type : string) : M ConnectionDescr.t :=
  call (c_getCatalogConnection archive_id type)
       (on_db (fun t => (BackupCatalog.getCatalogConnection con archive_id type t, t))).

Definition createCatalogConnection (con : ConnectionDescr.t) : M unit :=
  call (c_createCatalogConnection con)
       (on_db_checked (BackupCatalog.createCatalogConnection con)).

Definition getBackupProfile (name : string) : M BackupProfileDescr.t :=
  call (c_getBackupProfile name)
       (on_db (fun t => (BackupCatalog.getBackupProfile name t, t))).

Definition getBackupProfiles : M (list BackupProfileDescr.t) :=
  call c_getBackupProfiles (on_db (fun t => (BackupCatalog.getBackupProfiles t, t))).

Definition createBackupProfile (p : BackupProfileDescr.t) : M unit :=
  call (c_createBackupProfile p) (on_db_checked (BackupCatalog.createBackupProfile p)).

(** The descriptor is shared with the stream process handle: the id the
    store assigns is seen through [bbp->getBaseBackupDescr()]. *)
Definition registerBasebackup (archive_id : Z) (descr : BaseBackupDescr.t) : M unit :=
  call (c_registerBasebackup archive_id descr)
       (fun w => let r := BackupCatalog.registerBasebackup archive_id descr (db w) in
                 Ok (tt, set_bbp (Some (fst r)) (set_db (snd r) w))).

Definition abortBasebackup (descr : BaseBackupDescr.t) : M unit :=
  call (c_abortBasebackup descr)
       (on_db (fun t => (tt, BackupCatalog.abortBasebackup descr t))).

Definition finalizeBasebackup (descr : BaseBackupDescr.t) : M unit :=
  call (c_finalizeBasebackup descr)
       (on_db (fun t => (tt, BackupCatalog.finalizeBasebackup descr t))).

Definition registerTablespaceForBackup (descr : BackupTablespaceDescr.t) : M unit :=
  call (c_registerTablespaceForBackup descr)
       (on_db_checked (BackupCatalog.registerTablespaceForBackup descr)).

End catalog.

(** ** The replication stream

    [PGStream], [BaseBackupProcess] and [StreamBaseBackup] (stream.hxx) are
    not among the sources at hand; the start-basebackup command only calls
    them. *)
Module Stream.

(** Modelled from the spec: what the database server and the archive
    directory contribute to one base backup: the descriptor the stream
    hands out for the backup, the tablespaces it lists, the WAL position
    captured by [end] and the timestamped backup directory. *)
Record t : Type := mk {
  backup : BaseBackupDescr.t;
  tablespaces : list BackupTablespaceDescr.t;
  end_position : string;
  directory : string
}.

Definition pure {A : Type} (a : A) : World -> Refusal (A * World) := fun w => Ok (a, w).

(** Modelled from the spec: [connect], then [identify]. *)
Definition connect : M unit := call c_connect (pure tt).
Definition identify : M unit := call c_identify (pure tt).

(** Modelled from the spec: [basebackup(profile)] obtains the stream
    handle [bbp], seeded with the profile. *)
Definition basebackup (peer : t) (profile : BackupProfileDescr.t) : M unit :=
  call (c_basebackup profile) (fun w => Ok (tt, set_bbp (Some (backup peer)) w)).

Definition start : M unit := call c_start (pure tt).

(** [bbp->getBaseBackupDescr()] *)
Definition getBaseBackupDescr : M BaseBackupDescr.t :=
  gets (fun w => match bbp w with Some d => d | None => BaseBackupDescr.init end).

(** An assignment through the shared descriptor pointer. *)
Definition assign (f : BaseBackupDescr.t -> BaseBackupDescr.t) : M unit :=
  modify (fun w => set_bbp (option_map f (bbp w)) w).

(** Modelled from the spec: the archive directory handle: [initialize],
    [create] and [backupDirectoryString]. *)
Definition initialize : M unit := call c_initialize (pure tt).
Definition create : M unit := call c_create (pure tt).
Definition backupDirectoryString (peer : t) : string := directory peer.

(** Modelled from the spec: the tablespace list read from the stream. *)
Definition readTablespaceInfo (peer : t) : M (list BackupTablespaceDescr.t) :=
  call c_readTablespaceInfo (pure (tablespaces peer)).

(** Modelled from the spec: [stepTablespace] answers whether the stream
    produced another tablespace descriptor. *)
Definition stepTablespace (next : option BackupTablespaceDescr.t) : M bool :=
  call c_stepTablespace (pure (is_some next)).

Definition backupTablespace (descr : BackupTablespaceDescr.t) : M unit :=
  call (c_backupTablespace descr) (pure tt).

(** Modelled from the spec: [end] captures [xlogposend]. *)
Definition end_ (peer : t) : M unit :=
  call c_end
    (fun w => Ok (tt, set_bbp (option_map (fun d => BaseBackupDescr.set_end
                                             (BaseBackupDescr.stopped d)
                                             (end_position peer) d) (bbp w)) w)).

Definition disconnect : M unit := call c_disconnect (pure tt).

End Stream.

(** ** Commands (commands.cxx) *)

(** A command is a catalog descriptor that holds a catalog handle. *)
Module BaseCatalogCommand.

Record t : Type := mk {
  descr : CatalogDescr.t;
  (** [this->catalog != nullptr] *)
  has_catalog : bool
}.

End BaseCatalogCommand.

(** A command is used wherever its descriptor is expected (inheritance). *)
Coercion BaseCatalogCommand.descr : BaseCatalogCommand.t >-> CatalogDescr.t.

Definition when_ (c : bool) (m : M unit) : M unit := if c then m else ret tt.

Fixpoint for_each {A : Type} (l : list A) (body : A -> M unit) : M unit :=
  match l with
  | [] => ret tt
  | x :: rest => body x ;; for_each rest body
  end.

(** [if (!this->catalog->available()) this->catalog->open_rw();] *)
Definition open_unless_available : M unit :=
  a <- catalog.available ;;
  when_ (negb a) catalog.open_rw.

Definition issue (k : FailureClass) (parts : list string) : Failure :=
  mkFailure k (cat parts).

Module CreateConnectionCatalogCommand.

Definition execute (this : BaseCatalogCommand.t) (flag : bool) : M unit :=
  if negb (BaseCatalogCommand.has_catalog this) then
    throw (issue CArchiveIssue ["could not execute create connection command: no catalog"])
  else
  open_unless_available ;;
  catalog.startTransaction ;;
  try_catch
    (let tempConDescr := ConnectionDescr.init in
     tempArchiveDescr <- catalog.existsByName (CatalogDescr.archive_name this) ;;
     when_ (CatalogDescr.id tempArchiveDescr <? 0)
       (throw (issue CCatalogIssue
                 ["archive "; dquote; CatalogDescr.archive_name this; dquote;
                  " does not exist"])) ;;
     let this := CatalogDescr.setArchiveId (CatalogDescr.id tempArchiveDescr) this in
     let tempConDescr :=
       ConnectionDescr.pushAffectedAttribute SQL_CON_TYPE_ATTNO
         (ConnectionDescr.pushAffectedAttribute SQL_CON_ARCHIVE_ID_ATTNO tempConDescr) in
     tempConDescr <- catalog.getCatalogConnection tempConDescr
                       (CatalogDescr.id tempArchiveDescr)
                       (ConnectionDescr.type (CatalogDescr.coninfo this)) ;;
     when_ ((0 <=? ConnectionDescr.archive_id tempConDescr)
            && negb (String.eqb (ConnectionDescr.type tempConDescr)
                                ConnectionDescr.CONNECTION_TYPE_UNKNOWN))
       (throw (issue CCatalogIssue
                 ["archive "; dquote; CatalogDescr.archive_name this; dquote;
                  " already has a connection of this type configured"; endl])) ;;
     catalog.createCatalogConnection (CatalogDescr.coninfo this) ;;
     catalog.commitTransaction)
    (fun e => catalog.rollbackTransaction ;; throw (sliced e)).

End CreateConnectionCatalogCommand.

Module ListBackupProfileCatalogCommand.

(** The line printed for the profile's maximum transfer rate. *)
Definition max_rate_line (profile : BackupProfileDescr.t) : string :=
  if (0 <? BackupProfileDescr.max_rate profile)%N
  then format2 25 30 "MAX RATE" "NOT RATED"
  else format2 25 30 "MAX RATE(kbps)" (str_of_N (BackupProfileDescr.max_rate profile)).

Definition compression_line (profile : BackupProfileDescr.t) : string :=
  match BackupProfileDescr.compress_type profile with
  | BACKUP_COMPRESS_TYPE_NONE => format2 25 30 "COMPRESSION" "NONE"
  | BACKUP_COMPRESS_TYPE_GZIP => format2 25 30 "COMPRESSION" "GZIP"
  | BACKUP_COMPRESS_TYPE_ZSTD => format2 25 30 "COMPRESSION" "ZSTD"
  | _ => format2 25 30 "COMPRESSION" "UNKNOWN or N/A"
  end.

Definition line (s : string) : M unit := cout (Cout (String.append s endl)).

Definition execute (this : BaseCatalogCommand.t) (extended : bool) : M unit :=
  if negb (BaseCatalogCommand.has_catalog this) then
    throw (issue CArchiveIssue ["could not execute archive command: no catalog"])
  else
  open_unless_available ;;
  try_catch_exception
    (catalog.startTransaction ;;
     match CatalogDescr.tag this with
     | LIST_BACKUP_PROFILE =>
         profileList <- catalog.getBackupProfiles ;;
         cout (Header "List of backup profiles" (format2 25 15 "Name" "Backup Label") 80) ;;
         for_each profileList
           (fun descr => line (format2 25 15 (BackupProfileDescr.name descr)
                                             (BackupProfileDescr.label descr)))
     | LIST_BACKUP_PROFILE_DETAIL =>
         profile <- catalog.getBackupProfile
                      (BackupProfileDescr.name (CatalogDescr.getBackupProfileDescr this)) ;;
         cout (Header (String.append "Details for backup profile "
                                     (BackupProfileDescr.name profile))
                      (format2 25 40 "Property" "Setting") 80) ;;
         line (format2 25 30 "NAME" (BackupProfileDescr.name profile)) ;;
         line (compression_line profile) ;;
         line (max_rate_line profile) ;;
         line (format2 25 30 "LABEL" (BackupProfileDescr.label profile)) ;;
         line (format2 25 30 "FAST CHECKPOINT"
                       (str_of_bool (BackupProfileDescr.fast_checkpoint profile))) ;;
         line (format2 25 30 "WAL INCLUDED"
                       (str_of_bool (BackupProfileDescr.include_wal profile))) ;;
         line (format2 25 30 "WAIT FOR WAL"
                       (str_of_bool (BackupProfileDescr.wait_for_wal profile)))
     | _ => ret tt
     end ;;
     catalog.commitTransaction)
    (fun e => catalog.rollbackTransaction ;; throw (sliced_to_exception e)).

End ListBackupProfileCatalogCommand.

Module CreateBackupProfileCatalogCommand.

(** The command keeps the profile descriptor in a member of its own. *)
Record t : Type := mk {
  base : BaseCatalogCommand.t;
  profileDescr : BackupProfileDescr.t
}.

(** The attributes that are required to create a new entry. *)
Definition attr : list Z :=
  [SQL_BCK_PROF_NAME_ATTNO; SQL_BCK_PROF_COMPRESS_TYPE_ATTNO;
   SQL_BCK_PROF_MAX_RATE_ATTNO; SQL_BCK_PROF_LABEL_ATTNO;
   SQL_BCK_PROF_FAST_CHKPT_ATTNO; SQL_BCK_PROF_INCL_WAL_ATTNO;
   SQL_BCK_PROF_WAIT_FOR_WAL_ATTNO].

Definition execute (this : t) (existsOk : bool) : M unit :=
  if negb (BaseCatalogCommand.has_catalog (base this)) then
    throw (issue CArchiveIssue ["could not execute archive command: no catalog"])
  else
  open_unless_available ;;
  try_catch
    (catalog.startTransaction ;;
     temp_descr <- catalog.getBackupProfile (BackupProfileDescr.name (profileDescr this)) ;;
     (if BackupProfileDescr.profile_id temp_descr <? 0 then
        catalog.createBackupProfile
          (BackupProfileDescr.setAffectedAttributes attr (profileDescr this))
      else
        when_ (negb existsOk)
          (throw (issue CCatalogIssue
                    ["backup profile "; BackupProfileDescr.name (profileDescr this);
                     " already exists"]))) ;;
     catalog.commitTransaction)
    (fun e => catalog.rollbackTransaction ;; throw (sliced e)).

End CreateBackupProfileCatalogCommand.

(** Modelled from the spec: the output mode of list-archive, one of LIST,
    FILTERED and DETAIL; the enumeration is declared in commands.hxx,
    which is not at hand. *)
Inductive ListArchiveOutputMode : Type :=
| ARCHIVE_LIST
| ARCHIVE_FILTERED_LIST
| ARCHIVE_DETAIL_LIST.

Module ListArchiveCatalogCommand.

Record t : Type := mk {
  base : BaseCatalogCommand.t;
  mode : ListArchiveOutputMode
}.

Definition row (descr : CatalogDescr.t) : M unit :=
  cout (Line (format2 15 30 (CatalogDescr.archive_name descr) (CatalogDescr.directory descr))).

Definition detail (descr : CatalogDescr.t) : M unit :=
  let con := CatalogDescr.coninfo descr in
  let line s := cout (Cout (String.append s endl)) in
  line (format2 20 30 "NAME" (CatalogDescr.archive_name descr)) ;;
  line (format2 20 30 "DIRECTORY" (CatalogDescr.directory descr)) ;;
  line (format2 20 30 "PGHOST" (ConnectionDescr.pghost con)) ;;
  line (format2 20 30 "PGPORT" (str_of_Z (ConnectionDescr.pgport con))) ;;
  line (format2 20 30 "PGDATABASE" (ConnectionDescr.pgdatabase con)) ;;
  line (format2 20 30 "PGUSER" (ConnectionDescr.pguser con)) ;;
  line (format2 20 30 "DSN" (ConnectionDescr.dsn con)) ;;
  line (format2 20 30 "COMPRESSION" (str_of_bool (CatalogDescr.compression descr))) ;;
  cout (Rule 80) ;;
  cout (Cout endl).

Definition execute (this : t) (extendedOutput : bool) : M unit :=
  if negb (BaseCatalogCommand.has_catalog (base this)) then
    throw (issue CArchiveIssue ["could not execute archive command: no catalog"])
  else
  open_unless_available ;;
  try_catch
    (catalog.startTransaction ;;
     match mode this with
     | ARCHIVE_LIST =>
         archiveList <- catalog.getArchiveList None ;;
         cout (Header "List of archives" (format2 15 30 "Name" "Directory") 80) ;;
         for_each archiveList row
     | ARCHIVE_FILTERED_LIST =>
         archiveList <- catalog.getArchiveList
                          (Some (BaseCatalogCommand.descr (base this),
                                 CatalogDescr.affectedAttributes (base this))) ;;
         cout (Header "Filtered archive list" (format2 15 30 "Name" "Directory") 80) ;;
         for_each archiveList row
     | ARCHIVE_DETAIL_LIST =>
         archiveList <- catalog.getArchiveList
                          (Some (BaseCatalogCommand.descr (base this),
                                 CatalogDescr.affectedAttributes (base this))) ;;
         cout (Header "Detail view for archive" (format2 20 30 "Property" "Setting") 80) ;;
         for_each archiveList detail
     end)
    (fun e => catalog.rollbackTransaction ;; throw (sliced e)) ;;
  catalog.close.

End ListArchiveCatalogCommand.

Module DropArchiveCatalogCommand.

Definition execute (this : BaseCatalogCommand.t) (existsOk : bool) : M unit :=
  if negb (BaseCatalogCommand.has_catalog this) then
    throw (issue CArchiveIssue ["could not execute archive command: no catalog"])
  else
  open_unless_available ;;
  catalog.startTransaction ;;
  try_catch
    (temp_descr <- catalog.existsByName (CatalogDescr.archive_name this) ;;
     (if 0 <=? CatalogDescr.id temp_descr then
        catalog.dropArchive (CatalogDescr.archive_name this)
      else
        when_ (negb existsOk)
          (throw (issue CArchiveIssue
                    ["specified archive name "; dquote; CatalogDescr.archive_name this;
                     dquote; " does not exists"]))) ;;
     catalog.dropArchive (CatalogDescr.archive_name this) ;;
     catalog.commitTransaction)
    (fun e => catalog.rollbackTransaction ;; throw (sliced e)).

End DropArchiveCatalogCommand.

Module CreateArchiveCatalogCommand.

Definition execute (this : BaseCatalogCommand.t) (existsOk : bool) : M unit :=
  if negb (BaseCatalogCommand.has_catalog this) then
    throw (issue CArchiveIssue ["could not execute archive command: no catalog"])
  else
  open_unless_available ;;
  catalog.startTransaction ;;
  temp_descr <- catalog.exists_ (CatalogDescr.directory this) ;;
  try_catch
    (if CatalogDescr.id temp_descr <? 0 then
       temp_descr <- catalog.createArchive this ;;
       let temp_descr :=
         CatalogDescr.setConnectionType ConnectionDescr.CONNECTION_TYPE_BASEBACKUP
                                        temp_descr in
       catalog.createCatalogConnection (CatalogDescr.coninfo temp_descr) ;;
       catalog.commitTransaction
     else
       when_ (negb existsOk)
         (throw (issue CArchiveIssue
                   ["archive already exists: "; dquote; CatalogDescr.directory this;
                    dquote])) ;;
       let this := CatalogDescr.set_id (CatalogDescr.id temp_descr) this in
       catalog.startTransaction ;;
       catalog.updateArchiveAttributes this (CatalogDescr.affectedAttributes this) ;;
       catalog.commitTransaction)
    (fun e => catalog.rollbackTransaction ;; throw (sliced e)).

End CreateArchiveCatalogCommand.

Module StartBasebackupCatalogCommand.

(** Lines 481-524: the archive and its basebackup connection. *)
Definition resolve_archive (this : BaseCatalogCommand.t) : M CatalogDescr.t :=
  catalog.startTransaction ;;
  temp_descr <-
    try_catch
      (temp_descr <- catalog.existsByName (CatalogDescr.archive_name this) ;;
       temp_descr <-
         (if 0 <=? CatalogDescr.id temp_descr then
            let coninfo :=
              fold_left (fun c col => ConnectionDescr.pushAffectedAttribute col c)
                [SQL_CON_ARCHIVE_ID_ATTNO; SQL_CON_TYPE_ATTNO; SQL_CON_DSN_ATTNO;
                 SQL_CON_PGHOST_ATTNO; SQL_CON_PGPORT_ATTNO; SQL_CON_PGUSER_ATTNO;
                 SQL_CON_PGDATABASE_ATTNO]
                (CatalogDescr.coninfo temp_descr) in
            coninfo <- catalog.getCatalogConnection coninfo (CatalogDescr.id temp_descr)
                         ConnectionDescr.CONNECTION_TYPE_BASEBACKUP ;;
            ret (CatalogDescr.set_coninfo coninfo temp_descr)
          else ret temp_descr) ;;
       catalog.commitTransaction ;;
       ret temp_descr)
      (fun e => catalog.rollbackTransaction ;; throw (sliced e)) ;;
  if CatalogDescr.id temp_descr <? 0 then
    catalog.rollbackTransaction ;;
    throw (issue CArchiveIssue
             ["archive "; CatalogDescr.archive_name this; " doesn't exist"])
  else ret temp_descr.

(** Lines 526-592: the requested profile, or the default one. *)
Definition resolve_profile (this : BaseCatalogCommand.t) : M BackupProfileDescr.t :=
  let name := BackupProfileDescr.name (CatalogDescr.backup_profile this) in
  if negb (String.eqb name "") then
    catalog.startTransaction ;;
    backupProfile <-
      try_catch
        (backupProfile <- catalog.getBackupProfile name ;;
         catalog.commitTransaction ;;
         ret backupProfile)
        (fun e => catalog.rollbackTransaction ;; throw (sliced e)) ;;
    if BackupProfileDescr.profile_id backupProfile <? 0 then
      throw (issue CArchiveIssue ["backup profile "; dquote; name; dquote; " does not exist"])
    else ret backupProfile
  else
    catalog.startTransaction ;;
    backupProfile <-
      try_catch
        (backupProfile <- catalog.getBackupProfile "default" ;;
         catalog.commitTransaction ;;
         ret backupProfile)
        (fun e => catalog.rollbackTransaction ;; throw (sliced e)) ;;
    if BackupProfileDescr.profile_id backupProfile <? 0 then
      throw (issue CArchiveIssue
               [dquote; "default"; dquote;
                " profile not found: please check your backup catalog or create a new one"])
    else ret backupProfile.

(** Lines 706-721: the loop over the tablespaces the stream produces. *)
Fixpoint stream_tablespaces (queue : list BackupTablespaceDescr.t) : M unit :=
  match queue with
  | [] => _ <- Stream.stepTablespace None ;; ret tt
  | tablespaceDescr :: rest =>
      _ <- Stream.stepTablespace (Some tablespaceDescr) ;;
      basebackupDescr <- Stream.getBaseBackupDescr ;;
      let tablespaceDescr :=
        BackupTablespaceDescr.set_backup_id (BaseBackupDescr.id basebackupDescr)
                                            tablespaceDescr in
      catalog.registerTablespaceForBackup tablespaceDescr ;;
      Stream.backupTablespace tablespaceDescr ;;
      stream_tablespaces rest
  end.

(** Lines 594-735: the protected block that drives the stream. *)
Definition stream (peer : Stream.t) (temp_descr : CatalogDescr.t)
    (backupProfile : BackupProfileDescr.t) : M unit :=
  Stream.connect ;;
  Stream.identify ;;
  Stream.basebackup peer backupProfile ;;
  Stream.start ;;
  catalog.startTransaction ;;
  try_catch
    (Stream.initialize ;;
     Stream.create ;;
     Stream.assign (BaseBackupDescr.set_archive_id (CatalogDescr.id temp_descr)) ;;
     Stream.assign (BaseBackupDescr.set_fsentry (Stream.backupDirectoryString peer)) ;;
     basebackupDescr <- Stream.getBaseBackupDescr ;;
     cout (Cerr (cat ["directory handle path "; BaseBackupDescr.fsentry basebackupDescr;
                      endl])) ;;
     catalog.registerBasebackup (CatalogDescr.id temp_descr) basebackupDescr ;;
     catalog.commitTransaction)
    (fun e => catalog.rollbackTransaction ;; throw (sliced e)) ;;
  modify (set_basebackup_registered true) ;;
  queue <- Stream.readTablespaceInfo peer ;;
  stream_tablespaces queue ;;
  Stream.end_ peer ;;
  Stream.disconnect.

(** Lines 736-768: the handler of the protected block. *)
Definition compensate (e : Failure) : M unit :=
  modify (set_txinprogress false) ;;
  try_catch
    (registered <- gets basebackup_registered ;;
     when_ registered
       (catalog.startTransaction ;;
        modify (set_txinprogress true) ;;
        descr <- Stream.getBaseBackupDescr ;;
        catalog.abortBasebackup descr ;;
        catalog.commitTransaction))
    (fun _ =>
       inprogress <- gets txinprogress ;;
       when_ inprogress catalog.rollbackTransaction) ;;
  throw (sliced e).

(** Lines 770-783: the backup registration is finalized. *)
Definition finalize : M unit :=
  catalog.startTransaction ;;
  try_catch
    (descr <- Stream.getBaseBackupDescr ;;
     catalog.finalizeBasebackup descr ;;
     catalog.commitTransaction)
    (fun e => catalog.rollbackTransaction ;; throw (sliced e)).

(** Lines 455-592: the locals are initialised, the catalog is opened,
    the archive and the profile are resolved. *)
Definition prepare (this : BaseCatalogCommand.t)
  : M (CatalogDescr.t * BackupProfileDescr.t) :=
  modify (fun w => set_basebackup_registered false (set_bbp None w)) ;;
  if negb (BaseCatalogCommand.has_catalog this) then
    throw (issue CArchiveIssue ["could not execute archive command: no catalog"])
  else
  open_unless_available ;;
  temp_descr <- resolve_archive this ;;
  backupProfile <- resolve_profile this ;;
  ret (temp_descr, backupProfile).

Definition execute (peer : Stream.t) (this : BaseCatalogCommand.t) (background : bool)
  : M unit :=
  resolved <- prepare this ;;
  let temp_descr := fst resolved in
  let backupProfile := snd resolved in
  try_catch (stream peer temp_descr backupProfile) compensate ;;
  finalize.

End StartBasebackupCatalogCommand.

(** ** Runs *)

(** What a run of a command raises or returns, and the world it leaves. *)
Definition result {A : Type} (m : M A) (w : World) : Res A := fst (m w).
Definition after {A : Type} (m : M A) (w : World) : World := snd (m w).

(** The calls a run adds to the record when it starts from an empty one. *)
Definition calls {A : Type} (m : M A) (w : World) : list Call :=
  map call_of (trace (after m w)).

(** The call that opens the catalog, issued if it is not open yet. *)
Definition opening (w : World) : list Entry :=
  if catalog_open w then [] else [mkEntry c_open_rw (is_some (transaction w)) Done].

Definition is_dropArchive (e : Entry) : bool :=
  match call_of e with c_dropArchive _ => true | _ => false end.

Definition is_commit (e : Entry) : bool :=
  match call_of e with c_commitTransaction => true | _ => false end.

Definition is_abortBasebackup (e : Entry) : bool :=
  match call_of e with c_abortBasebackup _ => true | _ => false end.

Definition is_stream_call (e : Entry) : bool :=
  match call_of e with
  | c_connect | c_identify | c_basebackup _ | c_start | c_initialize | c_create
  | c_readTablespaceInfo | c_stepTablespace | c_backupTablespace _ | c_end
  | c_disconnect => true
  | _ => false
  end.

(** A sample catalog: one archive with its basebackup connection, and the
    default profile. *)
Module Sample.

Definition archive_a : BackupCatalog.ArchiveRow :=
  BackupCatalog.mkArchiveRow 0 "a" "/tmp/a" false.

Definition connection_a : ConnectionDescr.t :=
  ConnectionDescr.mk [] 0 ConnectionDescr.CONNECTION_TYPE_BASEBACKUP "h" 5432 "u" "x" "".

Definition default_profile : BackupProfileDescr.t :=
  BackupProfileDescr.mk [] 0 "default" BACKUP_COMPRESS_TYPE_NONE 0%N
    "PG_BCK_CTL BASEBACKUP" false false true false.

Definition rated_profile : BackupProfileDescr.t :=
  BackupProfileDescr.mk [] 1 "rated" BACKUP_COMPRESS_TYPE_GZIP 100%N
    "PG_BCK_CTL BASEBACKUP" false false true false.

Definition tables : BackupCatalog.Tables :=
  BackupCatalog.mkTables [archive_a] [connection_a] [default_profile; rated_profile] [] [].

(** A command descriptor as the parser leaves it. *)
Definition descr (tag : CatalogTag) (archive_name directory : string)
    (coninfo : ConnectionDescr.t) (profile : BackupProfileDescr.t) : CatalogDescr.t :=
  CatalogDescr.mk [] tag (-1) archive_name "" false directory coninfo profile true.

Definition command (tag : CatalogTag) (archive_name : string) : BaseCatalogCommand.t :=
  BaseCatalogCommand.mk
    (descr tag archive_name "/tmp/a" ConnectionDescr.init BackupProfileDescr.init) true.

Definition profile_command (tag : CatalogTag) (profile_name : string)
  : BaseCatalogCommand.t :=
  BaseCatalogCommand.mk
    (descr tag "" "" ConnectionDescr.init
           (BackupProfileDescr.set_name profile_name BackupProfileDescr.init)) true.

Definition backup_command (archive_name profile_name : string) : BaseCatalogCommand.t :=
  BaseCatalogCommand.mk
    (descr START_BASEBACKUP archive_name "/tmp/a" ConnectionDescr.init
           (BackupProfileDescr.set_name profile_name BackupProfileDescr.init)) true.

Definition create_profile (name : string) (compress : BackupProfileCompressType)
  : CreateBackupProfileCatalogCommand.t :=
  CreateBackupProfileCatalogCommand.mk
    (profile_command CREATE_BACKUP_PROFILE name)
    (BackupProfileDescr.mk [SQL_BCK_PROF_NAME_ATTNO; SQL_BCK_PROF_COMPRESS_TYPE_ATTNO]
       (-1) name compress 0%N "PG_BCK_CTL BASEBACKUP" false false true false).

Definition list_archives : ListArchiveCatalogCommand.t :=
  ListArchiveCatalogCommand.mk (command LIST_ARCHIVE "") ARCHIVE_LIST.

Definition streamer : ConnectionDescr.t :=
  ConnectionDescr.mk [] (-1) ConnectionDescr.CONNECTION_TYPE_STREAMER "h" 5432 "u" "x" "".

Definition create_connection (archive_name : string) (coninfo : ConnectionDescr.t)
  : BaseCatalogCommand.t :=
  BaseCatalogCommand.mk
    (descr CREATE_CONNECTION archive_name "" coninfo BackupProfileDescr.init) true.

Definition create_archive (archive_name directory : string) : BaseCatalogCommand.t :=
  BaseCatalogCommand.mk
    (descr CREATE_ARCHIVE archive_name directory
           (ConnectionDescr.mk [] (-1) ConnectionDescr.CONNECTION_TYPE_UNKNOWN
                               "h" 5432 "u" "x" "")
           BackupProfileDescr.init) true.

Definition pg_default : BackupTablespaceDescr.t :=
  BackupTablespaceDescr.mk (-1) (-1) 1663%N "" 4096%N.

Definition peer : Stream.t :=
  Stream.mk BaseBackupDescr.init [pg_default] "0/3000060" "/tmp/a/base/streambackup-1".

Definition stream_failure : Failure := mkFailure CPGBackupCtlFailure "lost connection".
Definition catalog_failure : Failure := mkFailure CCatalogIssue "database is locked".

(** start-basebackup of archive "a" with the default profile issues 26
    calls that can fail when nothing does: 7 to resolve archive and
    profile, 4 to enter the stream, 5 for the registration, 7 to stream
    the one tablespace and leave, 3 to finalize. *)

(** The stream is lost when [end] is called (call 22). *)
Definition end_fails : list (option Failure) :=
  repeat None 21 ++ [Some stream_failure].

(** ... and the compensating transaction cannot be started. *)
Definition end_fails_no_transaction : list (option Failure) :=
  repeat None 21 ++ [Some stream_failure; Some catalog_failure].

(** ... and abortBasebackup fails inside the compensating transaction. *)
Definition end_fails_abort_fails : list (option Failure) :=
  repeat None 21 ++ [Some stream_failure; None; Some catalog_failure].

(** The stream is complete, finalizeBasebackup fails (call 25). *)
Definition finalize_fails : list (option Failure) :=
  repeat None 24 ++ [Some catalog_failure].

End Sample.

(** The line of the detail view that reports a profile as not rated. *)
Definition not_rated_line : string := format2 25 30 "MAX RATE" "NOT RATED".


(** The profile start-basebackup asks the catalog for: the one named by
    the PROFILE keyword, or the default profile if the keyword was
    omitted. *)
Definition requested_profile (this : CatalogDescr.t) : string :=
  let name := BackupProfileDescr.name (CatalogDescr.backup_profile this) in
  if String.eqb name "" then "default" else name.

(** A message names a resource if the resource's key occurs in it. *)
Definition names (key message : string) : Prop :=
  exists before behind : string,
    message = String.append before (String.append key behind).

(** Nothing is going to fail for reasons of the environment. *)
Definition quiet (w : World) : Prop := faults w = [].

(** No catalog transaction is in progress. *)
Definition idle (w : World) : Prop := transaction w = None.

(** Ids are non-negative once persisted. *)
Definition persisted (t : BackupCatalog.Tables) : Prop :=
  Forall (fun r => 0 <= BackupCatalog.arch_id r) (BackupCatalog.archive t)
  /\ Forall (fun p => 0 <= BackupProfileDescr.profile_id p) (BackupCatalog.backup_profiles t).

(** The row create-backup-profile is to insert for a descriptor: every
    required attribute as the descriptor has it. *)
Definition new_profile_row (id : Z) (p : BackupProfileDescr.t) : BackupProfileDescr.t :=
  BackupProfileDescr.mk [] id (BackupProfileDescr.name p)
    (BackupProfileDescr.compress_type p) (BackupProfileDescr.max_rate p)
    (BackupProfileDescr.label p) (BackupProfileDescr.fast_checkpoint p)
    (BackupProfileDescr.include_wal p) (BackupProfileDescr.wait_for_wal p) false.

Definition is_createCatalogConnection (e : Entry) : bool :=
  match call_of e with c_createCatalogConnection _ => true | _ => false end.

(** The number of connections an archive has of a type. *)
Definition connection_count (archive_id : Z) (type : string) (t : BackupCatalog.Tables) : nat :=
  List.length (filter (BackupCatalog.con_key archive_id type) (BackupCatalog.connections t)).

(** Every persisted archive has exactly one connection of type
    basebackup. *)
Definition one_basebackup_connection (t : BackupCatalog.Tables) : Prop :=
  forall r : BackupCatalog.ArchiveRow,
    In r (BackupCatalog.archive t) ->
    connection_count (BackupCatalog.arch_id r) ConnectionDescr.CONNECTION_TYPE_BASEBACKUP t
    = 1%nat.

(** ** Specifications of runs *)

(** From a world that satisfies [P], the run of [m] either returns [a] in
    a world that satisfies [Q a], or raises a failure [e] of the hierarchy
    of [CPGBackupCtlFailure] in one that satisfies [E e]; it does not
    raise a bare [std::exception]. *)
Definition hoare {A : Type} (P : World -> Prop) (m : M A)
    (Q : A -> World -> Prop) (E : Failure -> World -> Prop) : Prop :=
  forall w : World,
    P w -> match m w with
           | (Ok a, w') => Q a w'
           | (Throw (Derived e), w') => E e w'
           | (Throw std_exception, _) => False
           end.

(** [I] holds after a run that started with it, however the run ends. *)
Definition inv {A : Type} (I : World -> Prop) (m : M A) : Prop :=
  hoare I m (fun _ => I) (fun _ => I).

(** The base backup of the running command is not registered (yet). *)
Definition unregistered (w : World) : Prop := basebackup_registered w = false.

(** The row of the command's base backup, if it has the given status. *)
Definition settled (status : string) (w : World) : Prop :=
  exists d row : BaseBackupDescr.t,
    bbp w = Some d
    /\ BackupCatalog.find_backup (BaseBackupDescr.id d) (db w) = Some row
    /\ BaseBackupDescr.status row = status.

(** The registration of the base backup is committed: its row is in the
    catalog with status in progress and no transaction is open. *)
Definition committed (w : World) : Prop :=
  transaction w = None /\ settled BaseBackupDescr.BASEBACKUP_STATUS_IN_PROGRESS w.

Definition registered (w : World) : Prop :=
  basebackup_registered w = true /\ committed w.

(** The last call on record is a commit that went through. *)
Definition closing_commit (tr : list Entry) : bool :=
  match last tr (mkEntry c_close false Done) with
  | mkEntry c_commitTransaction _ Done => true
  | _ => false
  end.

(** What the handler of the protected block does about the registered
    base backup [d]: it starts a transaction of its own, marks the backup
    as aborted and commits; if one of the three calls fails with [e2], it
    rolls the transaction back, provided it had been started, and does
    nothing more. *)
Inductive Compensation (d : BaseBackupDescr.t) : list Entry -> Prop :=
| compensation_not_started (e2 : Failure) :
    Compensation d [mkEntry c_startTransaction false (Threw e2)]
| compensation_abort_failed (e2 : Failure) :
    Compensation d [mkEntry c_startTransaction false Done;
                    mkEntry (c_abortBasebackup d) true (Threw e2);
                    mkEntry c_rollbackTransaction true Done]
| compensation_commit_failed (e2 : Failure) :
    Compensation d [mkEntry c_startTransaction false Done;
                    mkEntry (c_abortBasebackup d) true Done;
                    mkEntry c_commitTransaction true (Threw e2);
                    mkEntry c_rollbackTransaction true Done]
| compensation_done :
    Compensation d [mkEntry c_startTransaction false Done;
                    mkEntry (c_abortBasebackup d) true Done;
                    mkEntry c_commitTransaction true Done].



(** The value a run returned, or a default if it raised. *)
Definition value {A : Type} (default : A) (r : Res A) : A :=
  match r with
  | Ok a => a
  | Throw _ => default
  end.

(** The two claims about start-basebackup after the registration, worded
    as the specification words them: every failure after the registration
    has abort_basebackup called, and no backup is left in progress. *)
Definition aborts_after_registration (peer : Stream.t) (this : BaseCatalogCommand.t)
    (background : bool) (w : World) : Prop :=
  let run := StartBasebackupCatalogCommand.execute peer this background in
  forall e : Exception,
    result run w = Throw e ->
    basebackup_registered (after run w) = true ->
    existsb is_abortBasebackup (trace (after run w)) = true.


(** * The rest of the command layer, and the byte order helpers

    The commands of [commands.cxx] that are not embedded above (alter
    archive, drop/list connection, drop backup profile, list backup
    catalog, verify archive) and the byte order helpers of [common.hxx]. *)

From Stdlib Require Import Sorted Permutation.

(** ** Byte order (common.hxx) *)

(** A [uint64]: what an operation yields is reduced modulo [2^64]. *)
Definition uint64 (x : Z) : Z := x mod 2 ^ 64.

(** [uint64_to_host_byteorder], lines 72-83.  A left shift can carry bits
    beyond the 64th, which the type drops; a right shift cannot. *)
Definition uint64_to_host_byteorder (x : Z) : Z :=
  Z.lor (Z.lor (Z.lor (Z.lor (Z.lor (Z.lor (Z.lor
    (Z.land (uint64 (Z.shiftl x 56)) 0xff00000000000000)
    (Z.land (uint64 (Z.shiftl x 40)) 0x00ff000000000000))
    (Z.land (uint64 (Z.shiftl x 24)) 0x0000ff0000000000))
    (Z.land (uint64 (Z.shiftl x 8)) 0x000000ff00000000))
    (Z.land (Z.shiftr x 8) 0x00000000ff000000))
    (Z.land (Z.shiftr x 24) 0x0000000000ff0000))
    (Z.land (Z.shiftr x 40) 0x000000000000ff00))
    (Z.land (Z.shiftr x 56) 0x00000000000000ff).

(** [SWAP_UINT64], lines 85-92: the swap, unless the build defines
    [PG_BACKUP_CTL_BIG_ENDIAN]. *)
Definition SWAP_UINT64 (PG_BACKUP_CTL_BIG_ENDIAN : bool) (val : Z) : Z :=
  if PG_BACKUP_CTL_BIG_ENDIAN then val else uint64_to_host_byteorder val.

(** The order in which the machine keeps the bytes of an integer. *)
Inductive ByteOrder : Type :=
| little_endian
| big_endian.

(** The byte of [x] with significance [i]; byte 0 is the least
    significant one. *)
Definition byte_at (i : Z) (x : Z) : Z := Z.land (Z.shiftr x (8 * i)) 255.

(** The eight bytes of a [uint64] object as they lie in memory, lowest
    address first. *)
Definition object_representation (host : ByteOrder) (x : Z) : list Z :=
  let bytes := map (fun i => byte_at i x) [0; 1; 2; 3; 4; 5; 6; 7] in
  match host with
  | little_endian => bytes
  | big_endian => rev bytes
  end.

(** [memcpy(dest, src, n)] with [n] the size of [src]: the first [n] bytes
    of [dest] are overwritten. *)
Definition memcpy (dest src : list Z) : list Z := src ++ skipn (List.length src) dest.

(** [uint64_hton_sendbuf], lines 94-100. *)
Definition uint64_hton_sendbuf (PG_BACKUP_CTL_BIG_ENDIAN : bool) (host : ByteOrder)
    (buf : list Z) (val : Z) : list Z :=
  let nbo_val := SWAP_UINT64 PG_BACKUP_CTL_BIG_ENDIAN val in
  memcpy buf (object_representation host nbo_val).

(** The number a sequence of bytes stands for in network byte order, most
    significant byte first. *)
Definition network_value (bytes : list Z) : Z :=
  fold_left (fun acc b => 256 * acc + b) bytes 0.

(** The build defines [PG_BACKUP_CTL_BIG_ENDIAN] on a big-endian machine
    and on no other. *)
Definition configured (PG_BACKUP_CTL_BIG_ENDIAN : bool) (host : ByteOrder) : Prop :=
  PG_BACKUP_CTL_BIG_ENDIAN = match host with
                             | big_endian => true
                             | little_endian => false
                             end.

(** ** More of the backup catalog store *)

Module BackupCatalogMore.

(** Modelled from the spec: [drop_catalog_connection(archive_name, type)]
    deletes the connection of the type that belongs to the archive of the
    name. *)
Definition dropCatalogConnection (name type : string) (t : BackupCatalog.Tables)
  : BackupCatalog.Tables :=
  let owners := BackupCatalog.archive_ids_named name t in
  BackupCatalog.set_connections
    (filter (fun c => negb (BackupCatalog.mem (ConnectionDescr.archive_id c) owners
                            && String.eqb (ConnectionDescr.type c) type))
            (BackupCatalog.connections t))
    t.

Fixpoint insert_by_type (c : ConnectionDescr.t) (l : list ConnectionDescr.t)
  : list ConnectionDescr.t :=
  match l with
  | [] => [c]
  | x :: rest =>
      if String.leb (ConnectionDescr.type c) (ConnectionDescr.type x)
      then c :: l
      else x :: insert_by_type c rest
  end.

(** Modelled from the spec: ORDER BY type. *)
Definition order_by_type (l : list ConnectionDescr.t) : list ConnectionDescr.t :=
  fold_right insert_by_type [] l.

Definition of_archive (archive_id : Z) (c : ConnectionDescr.t) : bool :=
  ConnectionDescr.archive_id c =? archive_id.

(** Modelled from the spec: [get_catalog_connection(archive_id)], the
    connections of the archive, ordered by type. *)
Definition getCatalogConnection (archive_id : Z) (t : BackupCatalog.Tables)
  : list ConnectionDescr.t :=
  order_by_type (filter (of_archive archive_id) (BackupCatalog.connections t)).

(** Modelled from the spec: [drop_backup_profile(name)]. *)
Definition dropBackupProfile (name : string) (t : BackupCatalog.Tables)
  : BackupCatalog.Tables :=
  BackupCatalog.set_backup_profiles
    (filter (fun p => negb (BackupCatalog.profile_named name p))
            (BackupCatalog.backup_profiles t))
    t.

End BackupCatalogMore.

(** [class StatCatalogArchive : public StatCatalog] (descr.hxx), restricted
    to the members the catalog rows at hand determine. *)
Module StatCatalogArchive.

Record t : Type := mk {
  archive_id : Z;
  number_of_backups : Z;
  backups_failed : Z;
  backups_running : Z;
  archive_name : string;
  archive_directory : string;
  archive_host : string
}.

Definition count (status : string) (archive_id : Z) (l : list BaseBackupDescr.t) : Z :=
  Z.of_nat
    (List.length
       (filter (fun b => (BaseBackupDescr.archive_id b =? archive_id)
                         && String.eqb (BaseBackupDescr.status b) status) l)).

(** Modelled from the spec: [stat_catalog(archive_name)] yields the
    aggregate statistics of the archive. *)
Definition statCatalog (name : string) (rows : BackupCatalog.Tables) : t :=
  let a := BackupCatalog.existsByName name rows in
  let id := CatalogDescr.id a in
  let con := BackupCatalog.getCatalogConnection ConnectionDescr.init id
               ConnectionDescr.CONNECTION_TYPE_BASEBACKUP rows in
  mk id
     (Z.of_nat (List.length
                  (filter (fun b => BaseBackupDescr.archive_id b =? id)
                          (BackupCatalog.backup rows))))
     (count BaseBackupDescr.BASEBACKUP_STATUS_ABORTED id (BackupCatalog.backup rows))
     (count BaseBackupDescr.BASEBACKUP_STATUS_IN_PROGRESS id (BackupCatalog.backup rows))
     (CatalogDescr.archive_name a) (CatalogDescr.directory a)
     (ConnectionDescr.pghost con).

End StatCatalogArchive.

(** A call of a collaborator for which the record of calls has no name.
    The environment's plan is consulted as it is by [call]; the record of
    calls stays as it is. *)
Definition invoke {A : Type} (op : World -> Refusal (A * World)) : M A :=
  fun w =>
    let w1 := set_faults (tl (faults w)) w in
    match hd None (faults w) with
    | Some e => (Throw (Derived e), w1)
    | None =>
        match op w1 with
        | Throw e => (Throw (Derived e), w1)
        | Ok (a, w2) => (Ok a, w2)
        end
    end.

(** More of the [catalog] member of a command. *)
Module catalog_more.

Definition dropCatalogConnection (name type : string) : M unit :=
  invoke (on_db (fun t => (tt, BackupCatalogMore.dropCatalogConnection name type t))).

Definition getCatalogConnection (archive_id : Z) : M (list ConnectionDescr.t) :=
  invoke (on_db (fun t => (BackupCatalogMore.getCatalogConnection archive_id t, t))).

Definition dropBackupProfile (name : string) : M unit :=
  invoke (on_db (fun t => (tt, BackupCatalogMore.dropBackupProfile name t))).

Definition statCatalog (name : string) : M StatCatalogArchive.t :=
  invoke (on_db (fun t => (StatCatalogArchive.statCatalog name t, t))).

End catalog_more.

(** The archive directory handle of [CPGBackupCtlFS] (fs-archive.hxx, not
    at hand). *)
Module CPGBackupCtlFS.

(** Modelled from the spec: an archive directory handle is obtained for
    the directory. *)
Definition getArchiveDirectoryDescr (directory : string) : M string :=
  invoke (Stream.pure directory).

(** Modelled from the spec: the filesystem integrity check; it raises if
    the directory structure is not intact, which is for the environment to
    tell. *)
Definition verify (archivedir : string) : M unit :=
  invoke (Stream.pure tt).

End CPGBackupCtlFS.

(** ** More commands (commands.cxx) *)

Module DropConnectionCatalogCommand.

(** Lines 52-128. *)
Definition execute (this : BaseCatalogCommand.t) (flag : bool) : M unit :=
  if negb (BaseCatalogCommand.has_catalog this) then
    throw (issue CArchiveIssue ["could not execute drop command: no catalog"])
  else
  open_unless_available ;;
  catalog.startTransaction ;;
  try_catch
    (tempDescr <- catalog.existsByName (CatalogDescr.archive_name this) ;;
     if 0 <=? CatalogDescr.id tempDescr then
       let this := CatalogDescr.setArchiveId (CatalogDescr.id tempDescr) this in
       let this :=
         CatalogDescr.set_coninfo
           (ConnectionDescr.pushAffectedAttribute SQL_CON_ARCHIVE_ID_ATTNO
                                                  (CatalogDescr.coninfo this)) this in
       let contype := ConnectionDescr.type (CatalogDescr.coninfo this) in
       coninfo <- catalog.getCatalogConnection (CatalogDescr.coninfo this)
                    (CatalogDescr.id this)
                    (ConnectionDescr.type (CatalogDescr.coninfo this)) ;;
       let this := CatalogDescr.set_coninfo coninfo this in
       when_ (ConnectionDescr.archive_id (CatalogDescr.coninfo this) <? 0)
         (throw (issue CCatalogIssue
                   ["archive "; dquote; CatalogDescr.archive_name this; dquote;
                    " does not have a connection of type "; dquote; contype; dquote])) ;;
       catalog_more.dropCatalogConnection
         (CatalogDescr.archive_name this)
         (ConnectionDescr.type (CatalogDescr.coninfo this))
     else
       throw (issue CCatalogIssue
                ["archive "; dquote; CatalogDescr.archive_name this; dquote;
                 " does not exist"]))
    (fun e => catalog.rollbackTransaction ;; throw (sliced e)) ;;
  catalog.commitTransaction.

End DropConnectionCatalogCommand.

Module ListConnectionCatalogCommand.

Definition line (s : string) : M unit := cout (Cout (String.append s endl)).

(** Lines 198-209: what is printed for one connection. *)
Definition item (con : ConnectionDescr.t) : M unit :=
  cout (Header (String.append "connection type " (ConnectionDescr.type con))
               (format2 15 60 "Attribute" "Setting") 80) ;;
  line (format2 15 60 "DSN" (ConnectionDescr.dsn con)) ;;
  line (format2 15 60 "PGHOST" (ConnectionDescr.pghost con)) ;;
  line (format2 15 60 "PGDATABASE" (ConnectionDescr.pgdatabase con)) ;;
  line (format2 15 60 "PGUSER" (ConnectionDescr.pguser con)) ;;
  line (format2 15 60 "PGPORT" (str_of_Z (ConnectionDescr.pgport con))).

(** Lines 141-229. *)
Definition execute (this : BaseCatalogCommand.t) (flag : bool) : M unit :=
  if negb (BaseCatalogCommand.has_catalog this) then
    throw (issue CArchiveIssue ["could not execute list command: no catalog"])
  else
  open_unless_available ;;
  catalog.startTransaction ;;
  try_catch
    (tempDescr <- catalog.existsByName (CatalogDescr.archive_name this) ;;
     if 0 <=? CatalogDescr.id tempDescr then
       connections <- catalog_more.getCatalogConnection (CatalogDescr.id tempDescr) ;;
       line (cat ["List of connections for archive "; dquote;
                  CatalogDescr.archive_name this; dquote]) ;;
       for_each connections item
     else
       throw (issue CCatalogIssue
                ["archive "; dquote; CatalogDescr.archive_name this; dquote;
                 " does not exist"]))
    (fun e => catalog.rollbackTransaction ;; throw (sliced e)) ;;
  catalog.commitTransaction.

End ListConnectionCatalogCommand.

Module ListBackupCatalogCommand.

Section Formatter.

(** [StatCatalog::gimmeFormattedString] is abstract in descr.hxx; the text
    it makes of the statistics is left open. *)
Variable gimmeFormattedString : StatCatalogArchive.t -> string.

(** Lines 395-442. *)
Definition execute (this : BaseCatalogCommand.t) (flag : bool) : M unit :=
  if negb (BaseCatalogCommand.has_catalog this) then
    throw (issue CArchiveIssue ["could not execute catalog command: no catalog"])
  else
  open_unless_available ;;
  try_catch
    (catalog.startTransaction ;;
     temp_descr <- catalog.existsByName (CatalogDescr.archive_name this) ;;
     when_ (CatalogDescr.id temp_descr <? 0)
       (throw (issue CCatalogIssue
                 ["cannot stat catalog: archive"; dquote; CatalogDescr.archive_name this;
                  dquote; " does not exist"])) ;;
     stat <- catalog_more.statCatalog (CatalogDescr.archive_name this) ;;
     cout (Cout (gimmeFormattedString stat)) ;;
     catalog.commitTransaction)
    (fun e => catalog.rollbackTransaction ;; throw (sliced e)).

End Formatter.

End ListBackupCatalogCommand.

Module DropBackupProfileCatalogCommand.

(** Lines 797-842. *)
Definition execute (this : BaseCatalogCommand.t) (extended : bool) : M unit :=
  if negb (BaseCatalogCommand.has_catalog this) then
    throw (issue CArchiveIssue ["could not execute archive command: no catalog"])
  else
  open_unless_available ;;
  try_catch_exception
    (catalog.startTransaction ;;
     let profileDescr := CatalogDescr.getBackupProfileDescr this in
     temp_descr <- catalog.getBackupProfile (BackupProfileDescr.name profileDescr) ;;
     when_ (BackupProfileDescr.profile_id temp_descr <? 0)
       (throw (issue CCatalogIssue
                 ["backup profile "; dquote; BackupProfileDescr.name profileDescr; dquote;
                  endl])) ;;
     catalog_more.dropBackupProfile (BackupProfileDescr.name profileDescr) ;;
     catalog.commitTransaction)
    (fun e => catalog.rollbackTransaction ;; throw (sliced_to_exception e)).

End DropBackupProfileCatalogCommand.

Module VerifyArchiveCatalogCommand.

(** Lines 1072-1121. *)
Definition execute (this : BaseCatalogCommand.t) (missingOK : bool) : M unit :=
  if negb (BaseCatalogCommand.has_catalog this) then
    throw (issue CArchiveIssue ["could not execute archive command: no catalog"])
  else
  open_unless_available ;;
  try_catch
    (catalog.startTransaction ;;
     temp_descr <- catalog.existsByName (CatalogDescr.archive_name this) ;;
     when_ (CatalogDescr.id temp_descr <? 0)
       (throw (issue CCatalogIssue
                 ["archive "; CatalogDescr.archive_name this; " does not exist"])) ;;
     archivedir <- CPGBackupCtlFS.getArchiveDirectoryDescr
                     (CatalogDescr.directory temp_descr) ;;
     CPGBackupCtlFS.verify archivedir ;;
     catalog.commitTransaction)
    (fun e => catalog.rollbackTransaction ;; throw (sliced e)).

End VerifyArchiveCatalogCommand.

Module AlterArchiveCatalogCommand.

(** Lines 1267-1316. *)
Definition execute (this : BaseCatalogCommand.t) (ignoreMissing : bool) : M unit :=
  if negb (BaseCatalogCommand.has_catalog this) then
    throw (issue CArchiveIssue ["could not execute archive command: no catalog"])
  else
  open_unless_available ;;
  catalog.startTransaction ;;
  try_catch
    (temp_descr <- catalog.existsByName (CatalogDescr.archive_name this) ;;
     (if 0 <=? CatalogDescr.id temp_descr then
        let this := CatalogDescr.set_id (CatalogDescr.id temp_descr) this in
        catalog.updateArchiveAttributes this (CatalogDescr.affectedAttributes this)
      else
        when_ (negb ignoreMissing)
          (throw (issue CArchiveIssue
                    ["could not alter archive: archive name "; dquote;
                     CatalogDescr.archive_name this; dquote; " does not exists"]))) ;;
     catalog.commitTransaction)
    (fun e => catalog.rollbackTransaction ;; throw (sliced e)).

End AlterArchiveCatalogCommand.

(** ** What the properties below speak of *)

(** No transaction is in progress and the rows are [t0]. *)
Definition resting (t0 : BackupCatalog.Tables) (w : World) : Prop :=
  transaction w = None /\ db w = t0.

(** A transaction that was started on the rows [t0] is in progress. *)
Definition within (t0 : BackupCatalog.Tables) (w : World) : Prop :=
  transaction w = Some t0.

(** A transaction was started on the rows [t0], which are unchanged. *)
Definition entered (t0 : BackupCatalog.Tables) (w : World) : Prop :=
  transaction w = Some t0 /\ db w = t0.

(** The rows are [t0], in a transaction started on them or in none. *)
Definition untouched (t0 : BackupCatalog.Tables) (w : World) : Prop :=
  db w = t0 /\ (transaction w = None \/ transaction w = Some t0).

(** The last call on record is a commit that failed. *)
Definition commit_failed (tr : list Entry) : Prop :=
  exists (e : Failure) (active : bool) (before : list Entry),
    tr = before ++ [mkEntry c_commitTransaction active (Threw e)].

(** The last call on record is the directory lookup, and it failed. *)
Definition lookup_failed (directory : string) (tr : list Entry) : Prop :=
  exists (e : Failure) (before : list Entry),
    tr = before ++ [mkEntry (c_exists directory) true (Threw e)].

(** [what()] of an exception; for a bare [std::exception] it is the text
    the C++ runtime library gives (libstdc++). *)
Definition what_of (e : Exception) : string :=
  match e with
  | Derived e => what e
  | std_exception => "std::exception"
  end.

(** The message of what a run raised. *)
Definition raised {A : Type} (r : Res A) : option string :=
  match r with
  | Ok _ => None
  | Throw e => Some (what_of e)
  end.

(** From a world that satisfies [P], the run of [m] either returns [a] in
    a world that satisfies [Q a], or raises [e], an exception of any kind,
    in one that satisfies [E e]. *)
Definition triple {A : Type} (P : World -> Prop) (m : M A)
    (Q : A -> World -> Prop) (E : Exception -> World -> Prop) : Prop :=
  forall w : World,
    P w -> match m w with
           | (Ok a, w') => Q a w'
           | (Throw e, w') => E e w'
           end.

Definition is_registerTablespaceForBackup (e : Entry) : bool :=
  match call_of e with c_registerTablespaceForBackup _ => true | _ => false end.

(** A registration of a tablespace on record was issued with no
    transaction in progress. *)
Definition tablespaces_outside_transactions (tr : list Entry) : Prop :=
  Forall (fun e => is_registerTablespaceForBackup e = true -> in_transaction e = false) tr.

(** What list-connection prints for one connection: the item header and
    the five attribute lines. *)
Definition connection_block (con : ConnectionDescr.t) : list Out :=
  [Header (String.append "connection type " (ConnectionDescr.type con))
          (format2 15 60 "Attribute" "Setting") 80;
   Cout (String.append (format2 15 60 "DSN" (ConnectionDescr.dsn con)) endl);
   Cout (String.append (format2 15 60 "PGHOST" (ConnectionDescr.pghost con)) endl);
   Cout (String.append (format2 15 60 "PGDATABASE" (ConnectionDescr.pgdatabase con)) endl);
   Cout (String.append (format2 15 60 "PGUSER" (ConnectionDescr.pguser con)) endl);
   Cout (String.append (format2 15 60 "PGPORT" (str_of_Z (ConnectionDescr.pgport con))) endl)].

(** The line list-backup-profile prints for one profile. *)
Definition profile_line (p : BackupProfileDescr.t) : Out :=
  Cout (String.append (format2 25 15 (BackupProfileDescr.name p) (BackupProfileDescr.label p))
                      endl).

(** The order of two connections by their type. *)
Definition by_type (a b : ConnectionDescr.t) : Prop :=
  String.leb (ConnectionDescr.type a) (ConnectionDescr.type b) = true.

(** Between transactions: none is in progress, and no tablespace was
    registered inside one.  Inside a transaction the second half is what
    is kept. *)
Definition calm (w : World) : Prop :=
  idle w /\ tablespaces_outside_transactions (trace w).

Definition busy (w : World) : Prop := tablespaces_outside_transactions (trace w).

Definition is_tablespace_call (c : Call) : bool :=
  match c with c_registerTablespaceForBackup _ => true | _ => false end.

(** The base backup of the running command is registered. *)
Definition flagged (w : World) : Prop := basebackup_registered w = true.

(** The base backup is not registered and the catalog is at rest on the
    rows [t0]. *)
Definition pristine (t0 : BackupCatalog.Tables) (w : World) : Prop :=
  unregistered w /\ resting t0 w.

(** An operation behind a call leaves a member of the world as it is. *)
Definition keeps {A B : Type} (member : World -> B) (op : World -> Refusal (A * World))
  : Prop :=
  forall (w : World) (a : A) (w2 : World), op w = Ok (a, w2) -> member w2 = member w.

(** What a predicate on worlds can tell: the rows and the transaction, or
    the transaction only. *)
Definition of_store (I : World -> Prop) : Prop :=
  forall w w' : World, db w' = db w -> transaction w' = transaction w -> I w -> I w'.

Definition of_transaction (I : World -> Prop) : Prop :=
  forall w w' : World, transaction w' = transaction w -> I w -> I w'.

(** More samples: archive "a" with a streamer connection besides its
    basebackup connection, and commands on them. *)
Module Fixture.

Definition streamer_a : ConnectionDescr.t :=
  ConnectionDescr.mk [] 0 ConnectionDescr.CONNECTION_TYPE_STREAMER "h" 5432 "u" "x" "".

Definition two_connections : BackupCatalog.Tables :=
  BackupCatalog.mkTables [Sample.archive_a] [Sample.connection_a; streamer_a]
                         [Sample.default_profile; Sample.rated_profile] [] [].

(** A command on a connection of an archive, as the parser leaves it. *)
Definition connection_command (tag : CatalogTag) (archive_name type : string)
  : BaseCatalogCommand.t :=
  BaseCatalogCommand.mk
    (Sample.descr tag archive_name ""
                  (ConnectionDescr.set_type type ConnectionDescr.init)
                  BackupProfileDescr.init) true.

(** alter-archive for archive "a" with the directory column named and
    another directory than the archive has. *)
Definition move_command : BaseCatalogCommand.t :=
  BaseCatalogCommand.mk
    (CatalogDescr.mk [SQL_ARCHIVE_DIRECTORY_ATTNO] ALTER_ARCHIVE (-1) "a" EmptyString false
                     "/tmp/elsewhere" ConnectionDescr.init BackupProfileDescr.init true)
    true.

End Fixture.
(** * Properties *)

(** ** Symbolic runs

    The store's operations stay folded while a command is run on a world
    whose rows are not known. *)

Ltac exec :=
  cbv beta iota zeta delta
    [result after calls opening
     bind ret throw try_catch try_catch_exception gets modify call when_ cout on_db
     on_db_checked record
     open_unless_available hd tl is_some negb fst snd quiet idle
     catalog.available catalog.open_rw catalog.close catalog.startTransaction
     catalog.commitTransaction catalog.rollbackTransaction catalog.existsByName
     catalog.exists_ catalog.createArchive catalog.updateArchiveAttributes
     catalog.dropArchive catalog.getArchiveList catalog.getCatalogConnection
     catalog.createCatalogConnection catalog.getBackupProfile catalog.getBackupProfiles
     catalog.createBackupProfile catalog.registerBasebackup catalog.abortBasebackup
     catalog.finalizeBasebackup catalog.registerTablespaceForBackup
     Stream.pure Stream.connect Stream.identify Stream.basebackup Stream.start
     Stream.getBaseBackupDescr Stream.assign Stream.initialize Stream.create
     Stream.readTablespaceInfo Stream.stepTablespace Stream.backupTablespace
     Stream.end_ Stream.disconnect
     set_catalog_open set_db set_transaction set_faults set_trace set_terminal set_bbp
     set_basebackup_registered set_txinprogress
     catalog_open db transaction faults trace terminal bbp basebackup_registered
     txinprogress
     StartBasebackupCatalogCommand.execute StartBasebackupCatalogCommand.prepare
     StartBasebackupCatalogCommand.resolve_archive
     StartBasebackupCatalogCommand.resolve_profile StartBasebackupCatalogCommand.stream
     StartBasebackupCatalogCommand.compensate StartBasebackupCatalogCommand.finalize
     CreateConnectionCatalogCommand.execute CreateBackupProfileCatalogCommand.execute
     DropArchiveCatalogCommand.execute CreateArchiveCatalogCommand.execute
     ListArchiveCatalogCommand.execute ListBackupProfileCatalogCommand.execute].

(** Reads of descriptor members that were just written. *)
Ltac tidy :=
  cbn [CatalogDescr.id CatalogDescr.archive_name CatalogDescr.directory
       CatalogDescr.coninfo CatalogDescr.affectedAttributes CatalogDescr.compression
       CatalogDescr.backup_profile CatalogDescr.tag CatalogDescr.label CatalogDescr.detach
       CatalogDescr.set_coninfo CatalogDescr.set_id CatalogDescr.setArchiveId
       CatalogDescr.setConnectionType CatalogDescr.getBackupProfileDescr
       ConnectionDescr.archive_id ConnectionDescr.type ConnectionDescr.affectedAttributes
       ConnectionDescr.set_archive_id ConnectionDescr.set_type
       ConnectionDescr.pushAffectedAttribute
       BaseCatalogCommand.descr BaseCatalogCommand.has_catalog
       BackupProfileDescr.affectedAttributes BackupProfileDescr.setAffectedAttributes
       BackupProfileDescr.name BackupProfileDescr.profile_id].

(** Reads of tables that were just written. *)
Ltac rows :=
  cbn [BackupCatalog.set_connections BackupCatalog.set_archive
       BackupCatalog.set_backup_profiles BackupCatalog.set_backup
       BackupCatalog.set_backup_tablespaces
       BackupCatalog.archive BackupCatalog.connections BackupCatalog.backup_profiles
       BackupCatalog.backup BackupCatalog.backup_tablespaces].

Ltac rows_in H :=
  cbn [BackupCatalog.set_connections BackupCatalog.set_archive
       BackupCatalog.set_backup_profiles BackupCatalog.set_backup
       BackupCatalog.set_backup_tablespaces
       BackupCatalog.archive BackupCatalog.connections BackupCatalog.backup_profiles
       BackupCatalog.backup BackupCatalog.backup_tablespaces] in H.

(** A world is taken apart into its members. *)
Ltac open_world w :=
  let o := fresh "o" in let t := fresh "t" in let tx := fresh "tx" in
  let f := fresh "f" in let tr := fresh "tr" in let term := fresh "term" in
  let b := fresh "b" in let reg := fresh "reg" in let txp := fresh "txp" in
  destruct w as [o t tx f tr term b reg txp];
  unfold quiet, idle in *; cbn [faults transaction db catalog_open trace bbp
                                basebackup_registered txinprogress terminal] in *;
  subst.

Lemma ltb_true (a b : Z) : a < b -> (a <? b) = true.
Proof. apply Z.ltb_lt. Qed.
Lemma ltb_false (a b : Z) : b <= a -> (a <? b) = false.
Proof. apply Z.ltb_ge. Qed.
Lemma leb_true (a b : Z) : a <= b -> (a <=? b) = true.
Proof. apply Z.leb_le. Qed.
Lemma leb_false (a b : Z) : b < a -> (a <=? b) = false.
Proof. apply Z.leb_gt. Qed.

(** The record of calls is brought into the form [start ++ [e1; ...; en]]. *)
Ltac flat := repeat rewrite <- app_assoc; cbn [app].

(** ** list-backup-profile: the MAX RATE line *)

Lemma max_rate_line_zero :
  ListBackupProfileCatalogCommand.max_rate_line Sample.default_profile
  = format2 25 30 "MAX RATE(kbps)" "0".
Proof. reflexivity. Qed.

(** C4.  The detail view prints NOT RATED exactly for the profiles whose
    [max_rate] is not zero: for a profile with [max_rate = 0] it prints
    the number 0 under MAX RATE(kbps), and for every positive rate it
    prints NOT RATED instead of the rate.  The display is the inverse of
    what the claim asks for; the last conjunct is the terminal output of
    the command for the unlimited default profile. *)
Theorem max_rate_line_inverted :
  (forall profile : BackupProfileDescr.t,
      ListBackupProfileCatalogCommand.max_rate_line profile = not_rated_line
      <-> BackupProfileDescr.max_rate profile <> 0%N)
  /\ In (Cout (String.append (format2 25 30 "MAX RATE(kbps)" "0") endl))
        (terminal (after (ListBackupProfileCatalogCommand.execute
                            (Sample.profile_command LIST_BACKUP_PROFILE_DETAIL "default")
                            false)
                         (world_of Sample.tables [])))
  /\ In (Cout (String.append not_rated_line endl))
        (terminal (after (ListBackupProfileCatalogCommand.execute
                            (Sample.profile_command LIST_BACKUP_PROFILE_DETAIL "rated")
                            false)
                         (world_of Sample.tables []))).
Proof.
  split; [| split; vm_compute; tauto].
  intros profile. unfold ListBackupProfileCatalogCommand.max_rate_line.
  destruct (N.ltb_spec 0 (BackupProfileDescr.max_rate profile)) as [H | H].
  - split; [intros _; lia | reflexivity].
  - assert (E : BackupProfileDescr.max_rate profile = 0%N) by lia.
    rewrite E. split; [intros C; vm_compute in C; discriminate C | intros C; congruence].
Qed.

(** ** start-basebackup: the archive does not exist *)

(** C10.  start-basebackup on an archive name the catalog does not know:
    the lookup transaction is started, the lookup is made and the
    transaction is committed; then, with no transaction in progress any
    more, rollbackTransaction is called once more, and the command raises
    the archive issue that names the missing archive.  Nothing else is
    called. *)
Theorem start_basebackup_missing_archive :
  forall (peer : Stream.t) (this : BaseCatalogCommand.t) (background : bool) (w : World),
    BaseCatalogCommand.has_catalog this = true ->
    idle w ->
    quiet w ->
    CatalogDescr.id (BackupCatalog.existsByName (CatalogDescr.archive_name this) (db w)) < 0 ->
    result (StartBasebackupCatalogCommand.execute peer this background) w
    = Throw (issue CArchiveIssue
               ["archive "; CatalogDescr.archive_name this; " doesn't exist"])
    /\ trace (after (StartBasebackupCatalogCommand.execute peer this background) w)
       = trace w ++ opening w
         ++ [mkEntry c_startTransaction false Done;
             mkEntry (c_existsByName (CatalogDescr.archive_name this)) true Done;
             mkEntry c_commitTransaction true Done;
             mkEntry c_rollbackTransaction false Done].
Proof.
  intros peer this background w Hcat Hidle Hquiet Hmiss.
  open_world w. exec. rewrite Hcat. exec.
  destruct o; exec;
    rewrite (leb_false _ _ Hmiss); rewrite (ltb_true _ _ Hmiss); exec;
    flat; split; reflexivity.
Qed.

Lemma start_basebackup_missing_archive_witness :
  BaseCatalogCommand.has_catalog (Sample.command START_BASEBACKUP "b") = true
  /\ idle (world_of Sample.tables [])
  /\ quiet (world_of Sample.tables [])
  /\ result (StartBasebackupCatalogCommand.execute
               Sample.peer (Sample.command START_BASEBACKUP "b") false)
            (world_of Sample.tables [])
     = Throw (mkFailure CArchiveIssue "archive b doesn't exist").
Proof.
  split; [reflexivity |]. split; [reflexivity |]. split; [reflexivity |].
  apply (start_basebackup_missing_archive
           Sample.peer (Sample.command START_BASEBACKUP "b") false
           (world_of Sample.tables []));
    [reflexivity | reflexivity | reflexivity | vm_compute; reflexivity].
Defined.

(** ** start-basebackup: the profile *)

(** C7.  start-basebackup on an existing archive asks the catalog for the
    profile named by the PROFILE keyword, or for the profile named
    "default" if the keyword was omitted; a profile the catalog knows is
    the one the command goes on with.  If the profile the catalog returns
    has [profile_id < 0], the command raises an archive issue whose
    message names the missing profile, and the calls it has made by then
    are the two lookup transactions only: no call to the replication
    stream is among them. *)
Theorem start_basebackup_missing_profile :
  forall (peer : Stream.t) (this : BaseCatalogCommand.t) (background : bool) (w : World),
    BaseCatalogCommand.has_catalog this = true ->
    idle w ->
    quiet w ->
    0 <= CatalogDescr.id
           (BackupCatalog.existsByName (CatalogDescr.archive_name this) (db w)) ->
    let wanted := requested_profile this in
    let loaded := BackupCatalog.getBackupProfile wanted (db w) in
    (trace (after (StartBasebackupCatalogCommand.resolve_profile this) w)
     = trace w ++ [mkEntry c_startTransaction false Done;
                   mkEntry (c_getBackupProfile wanted) true Done;
                   mkEntry c_commitTransaction true Done]
     /\ (0 <= BackupProfileDescr.profile_id loaded ->
         result (StartBasebackupCatalogCommand.resolve_profile this) w = Ok loaded))
    /\ (BackupProfileDescr.profile_id loaded < 0 ->
        exists (e : Failure) (added : list Entry),
          result (StartBasebackupCatalogCommand.execute peer this background) w = Throw e
          /\ fclass e = CArchiveIssue
          /\ names wanted (what e)
          /\ trace (after (StartBasebackupCatalogCommand.execute peer this background) w)
             = trace w ++ opening w ++ added
          /\ added
             = [mkEntry c_startTransaction false Done;
                mkEntry (c_existsByName (CatalogDescr.archive_name this)) true Done;
                mkEntry (c_getCatalogConnection
                           (CatalogDescr.id
                              (BackupCatalog.existsByName (CatalogDescr.archive_name this)
                                                          (db w)))
                           ConnectionDescr.CONNECTION_TYPE_BASEBACKUP) true Done;
                mkEntry c_commitTransaction true Done;
                mkEntry c_startTransaction false Done;
                mkEntry (c_getBackupProfile wanted) true Done;
                mkEntry c_commitTransaction true Done]
          /\ existsb is_stream_call added = false).
Proof.
  intros peer this background w Hcat Hidle Hquiet Harch wanted loaded.
  subst loaded wanted. open_world w. unfold requested_profile in *.
  destruct (String.eqb (BackupProfileDescr.name (CatalogDescr.backup_profile this)) "")
    eqn:Ename.
  - split.
    + exec. rewrite Ename. exec.
      match goal with
      | |- context [?x <? 0] => destruct (Z.ltb_spec x 0) as [Hlt | Hge]
      end; exec; flat; (split; [reflexivity |]); intros Hknown; [lia | reflexivity].
    + intros Hprof. eexists; eexists. exec. rewrite Hcat. exec. rewrite Ename.
      destruct o; exec;
        rewrite (leb_true _ _ Harch); tidy; rewrite (ltb_false _ _ Harch); exec;
        rewrite (ltb_true _ _ Hprof); flat;
        (split; [reflexivity |]); (split; [reflexivity |]);
        (split; [exists dquote; eexists; reflexivity |]);
        (split; [reflexivity |]); split; reflexivity.
  - split.
    + exec. rewrite Ename. exec.
      match goal with
      | |- context [?x <? 0] => destruct (Z.ltb_spec x 0) as [Hlt | Hge]
      end; exec; flat; (split; [reflexivity |]); intros Hknown; [lia | reflexivity].
    + intros Hprof. eexists; eexists. exec. rewrite Hcat. exec. rewrite Ename.
      destruct o; exec;
        rewrite (leb_true _ _ Harch); tidy; rewrite (ltb_false _ _ Harch); exec;
        rewrite (ltb_true _ _ Hprof); flat;
        (split; [reflexivity |]); (split; [reflexivity |]);
        (split; [exists (String.append "backup profile " dquote); eexists; reflexivity |]);
        (split; [reflexivity |]); split; reflexivity.
Qed.

Lemma start_basebackup_missing_profile_witness :
  BaseCatalogCommand.has_catalog (Sample.backup_command "a" "nightly") = true
  /\ idle (world_of Sample.tables [])
  /\ quiet (world_of Sample.tables [])
  /\ 0 <= CatalogDescr.id (BackupCatalog.existsByName "a" Sample.tables)
  /\ BackupProfileDescr.profile_id (BackupCatalog.getBackupProfile "nightly" Sample.tables) < 0
  /\ exists e : Failure,
       result (StartBasebackupCatalogCommand.execute
                 Sample.peer (Sample.backup_command "a" "nightly") false)
              (world_of Sample.tables []) = Throw e
       /\ names "nightly" (what e).
Proof.
  assert (Ha : 0 <= CatalogDescr.id (BackupCatalog.existsByName "a" Sample.tables))
    by (vm_compute; discriminate).
  assert (Hp : BackupProfileDescr.profile_id
                 (BackupCatalog.getBackupProfile "nightly" Sample.tables) < 0)
    by (vm_compute; reflexivity).
  repeat (split; [first [reflexivity | assumption] |]).
  destruct (start_basebackup_missing_profile
              Sample.peer (Sample.backup_command "a" "nightly") false
              (world_of Sample.tables []) eq_refl eq_refl eq_refl Ha) as [_ Hmissing].
  destruct (Hmissing Hp) as (e & added & Hr & _ & Hn & _).
  exists e. split; [exact Hr | exact Hn].
Defined.

(** ** create-backup-profile *)

Lemma existsb_false_find {A : Type} (f : A -> bool) (l : list A) :
  existsb f l = false -> find f l = None.
Proof.
  induction l as [| x l IH]; cbn; [reflexivity |].
  destruct (f x); cbn; [discriminate | exact IH].
Qed.

Lemma existsb_true_find {A : Type} (f : A -> bool) (l : list A) :
  existsb f l = true -> exists x, find f l = Some x /\ In x l.
Proof.
  induction l as [| x l IH]; cbn; [discriminate |].
  destruct (f x); cbn.
  - intros _. exists x. split; [reflexivity | left; reflexivity].
  - intros H. destruct (IH H) as (y & Hy & Hin). exists y. split; [exact Hy | right; exact Hin].
Qed.

(** C5.  create-backup-profile on a catalog without a profile of the
    given name (the lookup returns [profile_id < 0]) inserts the profile
    with exactly the affected attributes name, compress_type, max_rate,
    label, fast_checkpoint, include_wal and wait_for_wal, and commits.  If
    a profile of that name exists, nothing is inserted and the rows of the
    catalog stay as they are: the command returns when existsOk is set
    and raises "already exists" otherwise.  The failure is thrown inside
    the protected block as a catalog issue; what the caller gets is the
    copy the handler throws, a [CPGBackupCtlFailure] with that message. *)
Theorem create_backup_profile_contract :
  forall (this : CreateBackupProfileCatalogCommand.t) (existsOk : bool) (w : World),
    BaseCatalogCommand.has_catalog (CreateBackupProfileCatalogCommand.base this) = true ->
    idle w ->
    quiet w ->
    persisted (db w) ->
    let p := CreateBackupProfileCatalogCommand.profileDescr this in
    let name := BackupProfileDescr.name p in
    let run := CreateBackupProfileCatalogCommand.execute this existsOk in
    let known := existsb (BackupCatalog.profile_named name)
                         (BackupCatalog.backup_profiles (db w)) in
    (known = false ->
       BackupProfileDescr.profile_id (BackupCatalog.getBackupProfile name (db w)) < 0
       /\ result run w = Ok tt
       /\ trace (after run w)
          = trace w ++ opening w
            ++ [mkEntry c_startTransaction false Done;
                mkEntry (c_getBackupProfile name) true Done;
                mkEntry (c_createBackupProfile
                           (BackupProfileDescr.setAffectedAttributes
                              [SQL_BCK_PROF_NAME_ATTNO; SQL_BCK_PROF_COMPRESS_TYPE_ATTNO;
                               SQL_BCK_PROF_MAX_RATE_ATTNO; SQL_BCK_PROF_LABEL_ATTNO;
                               SQL_BCK_PROF_FAST_CHKPT_ATTNO; SQL_BCK_PROF_INCL_WAL_ATTNO;
                               SQL_BCK_PROF_WAIT_FOR_WAL_ATTNO] p)) true Done;
                mkEntry c_commitTransaction true Done]
       /\ db (after run w)
          = BackupCatalog.set_backup_profiles
              (BackupCatalog.backup_profiles (db w)
               ++ [new_profile_row
                     (BackupCatalog.next_id
                        (map BackupProfileDescr.profile_id
                             (BackupCatalog.backup_profiles (db w)))) p])
              (db w)
       /\ transaction (after run w) = None)
    /\ (known = true ->
        0 <= BackupProfileDescr.profile_id (BackupCatalog.getBackupProfile name (db w))
        /\ result run w
           = (if existsOk then Ok tt
              else Throw (sliced (issue CCatalogIssue
                                    ["backup profile "; name; " already exists"])))
        /\ db (after run w) = db w
        /\ transaction (after run w) = None
        /\ existsb (fun e => match call_of e with
                             | c_createBackupProfile _ => true
                             | _ => false
                             end)
                   (trace (after run w)) 
           = existsb (fun e => match call_of e with
                               | c_createBackupProfile _ => true
                               | _ => false
                               end)
                     (trace w)).
Proof.
  intros this existsOk w Hcat Hidle Hquiet Hpers p name run known.
  subst run known name p. open_world w. split.
  - intros Hnew.
    assert (Hfind : BackupCatalog.getBackupProfile
                      (BackupProfileDescr.name
                         (CreateBackupProfileCatalogCommand.profileDescr this)) t
                    = BackupProfileDescr.init).
    { unfold BackupCatalog.getBackupProfile. now rewrite (existsb_false_find _ _ Hnew). }
    split; [rewrite Hfind; reflexivity |].
    exec. rewrite Hcat. exec.
    destruct o; exec; rewrite Hfind;
      cbn [BackupProfileDescr.profile_id BackupProfileDescr.init];
      change (-1 <? 0) with true; cbv iota;
      unfold BackupCatalog.createBackupProfile;
      change (BackupProfileDescr.name
                (BackupCatalog.profile_row _
                   (BackupProfileDescr.setAffectedAttributes
                      CreateBackupProfileCatalogCommand.attr
                      (CreateBackupProfileCatalogCommand.profileDescr this))))
        with (BackupProfileDescr.name
                (CreateBackupProfileCatalogCommand.profileDescr this));
      cbn [BackupCatalog.backup_profiles]; rewrite Hnew; exec; flat;
      repeat split; reflexivity.
  - intros Hold.
    destruct (existsb_true_find _ _ Hold) as (q & Hq & Hin).
    assert (Hfind : BackupCatalog.getBackupProfile
                      (BackupProfileDescr.name
                         (CreateBackupProfileCatalogCommand.profileDescr this)) t = q).
    { unfold BackupCatalog.getBackupProfile. now rewrite Hq. }
    assert (Hid : 0 <= BackupProfileDescr.profile_id q).
    { destruct Hpers as [_ Hp]. rewrite Forall_forall in Hp. apply Hp. exact Hin. }
    split; [rewrite Hfind; exact Hid |].
    exec. rewrite Hcat. exec.
    destruct o; exec; rewrite Hfind; rewrite (ltb_false _ _ Hid);
      destruct existsOk; exec; flat;
      repeat rewrite existsb_app; cbn; rewrite ?orb_false_r;
      repeat split; reflexivity.
Qed.

Lemma persisted_sample : persisted Sample.tables.
Proof. split; repeat constructor; cbn; lia. Qed.

Lemma create_backup_profile_contract_witness :
  BaseCatalogCommand.has_catalog
    (CreateBackupProfileCatalogCommand.base
       (Sample.create_profile "weekly" BACKUP_COMPRESS_TYPE_GZIP)) = true
  /\ idle (world_of Sample.tables [])
  /\ quiet (world_of Sample.tables [])
  /\ persisted Sample.tables
  /\ result (CreateBackupProfileCatalogCommand.execute
               (Sample.create_profile "weekly" BACKUP_COMPRESS_TYPE_GZIP) false)
            (world_of Sample.tables []) = Ok tt
  /\ result (CreateBackupProfileCatalogCommand.execute
               (Sample.create_profile "default" BACKUP_COMPRESS_TYPE_ZSTD) true)
            (world_of Sample.tables []) = Ok tt
  /\ db (after (CreateBackupProfileCatalogCommand.execute
                  (Sample.create_profile "default" BACKUP_COMPRESS_TYPE_ZSTD) true)
               (world_of Sample.tables [])) = Sample.tables.
Proof.
  split; [reflexivity |]. split; [reflexivity |]. split; [reflexivity |].
  split; [exact persisted_sample |].
  split.
  - apply (create_backup_profile_contract
             (Sample.create_profile "weekly" BACKUP_COMPRESS_TYPE_GZIP) false
             (world_of Sample.tables []) eq_refl eq_refl eq_refl persisted_sample).
    reflexivity.
  - destruct (create_backup_profile_contract
                (Sample.create_profile "default" BACKUP_COMPRESS_TYPE_ZSTD) true
                (world_of Sample.tables []) eq_refl eq_refl eq_refl persisted_sample)
      as [_ Hold].
    destruct (Hold eq_refl) as (_ & Hr & Hdb & _).
    split; [exact Hr | exact Hdb].
Defined.

(** ** drop-archive *)

(** C3.  What drop-archive calls.  On an archive that exists the cascading
    drop routine is called twice before the commit: once in the branch
    that found the archive and once more after it.  On a missing archive
    with existsOk set the routine is still called once; without existsOk
    the command rolls back and raises: the archive issue thrown inside
    the protected block reaches the caller as the copy the handler
    throws, a [CPGBackupCtlFailure] with the same message.  The claim
    asks for exactly one call for an existing archive and for none for a
    missing one. *)
Theorem drop_archive_calls :
  forall (this : BaseCatalogCommand.t) (existsOk : bool) (w : World),
    BaseCatalogCommand.has_catalog this = true ->
    idle w ->
    quiet w ->
    let name := CatalogDescr.archive_name this in
    let run := DropArchiveCatalogCommand.execute this existsOk in
    let found := CatalogDescr.id (BackupCatalog.existsByName name (db w)) in
    (0 <= found ->
       result run w = Ok tt
       /\ trace (after run w)
          = trace w ++ opening w
            ++ [mkEntry c_startTransaction false Done;
                mkEntry (c_existsByName name) true Done;
                mkEntry (c_dropArchive name) true Done;
                mkEntry (c_dropArchive name) true Done;
                mkEntry c_commitTransaction true Done]
       /\ List.length (filter is_dropArchive (trace (after run w)))
          = (List.length (filter is_dropArchive (trace w)) + 2)%nat)
    /\ (found < 0 -> existsOk = true ->
        result run w = Ok tt
        /\ trace (after run w)
           = trace w ++ opening w
             ++ [mkEntry c_startTransaction false Done;
                 mkEntry (c_existsByName name) true Done;
                 mkEntry (c_dropArchive name) true Done;
                 mkEntry c_commitTransaction true Done]
        /\ List.length (filter is_dropArchive (trace (after run w)))
           = (List.length (filter is_dropArchive (trace w)) + 1)%nat)
    /\ (found < 0 -> existsOk = false ->
        result run w
        = Throw (sliced (issue CArchiveIssue
                           ["specified archive name "; dquote; name; dquote;
                            " does not exists"]))
        /\ trace (after run w)
           = trace w ++ opening w
             ++ [mkEntry c_startTransaction false Done;
                 mkEntry (c_existsByName name) true Done;
                 mkEntry c_rollbackTransaction true Done]).
Proof.
  intros this existsOk w Hcat Hidle Hquiet name run found. subst run found name.
  open_world w.
  split; [| split].
  - intros Hfound. exec. rewrite Hcat. exec.
    destruct o; exec; rewrite (leb_true _ _ Hfound); exec; flat;
      (split; [reflexivity |]); (split; [reflexivity |]);
      rewrite filter_app, length_app; reflexivity.
  - intros Hmiss Hok. subst existsOk. exec. rewrite Hcat. exec.
    destruct o; exec; rewrite (leb_false _ _ Hmiss); exec; flat;
      (split; [reflexivity |]); (split; [reflexivity |]);
      rewrite filter_app, length_app; reflexivity.
  - intros Hmiss Hok. subst existsOk. exec. rewrite Hcat. exec.
    destruct o; exec; rewrite (leb_false _ _ Hmiss); exec; flat; split; reflexivity.
Qed.

Lemma drop_archive_calls_witness :
  BaseCatalogCommand.has_catalog (Sample.command DROP_ARCHIVE "a") = true
  /\ idle (world_of Sample.tables [])
  /\ quiet (world_of Sample.tables [])
  /\ 0 <= CatalogDescr.id (BackupCatalog.existsByName "a" Sample.tables)
  /\ calls (DropArchiveCatalogCommand.execute (Sample.command DROP_ARCHIVE "a") false)
           (world_of Sample.tables [])
     = [c_startTransaction; c_existsByName "a"; c_dropArchive "a"; c_dropArchive "a";
        c_commitTransaction].
Proof.
  assert (Ha : 0 <= CatalogDescr.id (BackupCatalog.existsByName "a" Sample.tables))
    by (vm_compute; discriminate).
  repeat (split; [first [reflexivity | assumption] |]).
  destruct (drop_archive_calls (Sample.command DROP_ARCHIVE "a") false
              (world_of Sample.tables []) eq_refl eq_refl eq_refl) as [Hfound _].
  destruct (Hfound Ha) as (_ & Htrace & _).
  unfold calls. rewrite Htrace. reflexivity.
Defined.

(** ** list-archive *)

Lemma for_each_prints {A : Type} (body : A -> M unit) :
  (forall x w, exists out, body x w = (Ok tt, set_terminal out w)) ->
  forall l w, exists out, for_each l body w = (Ok tt, set_terminal out w).
Proof.
  intros Hbody l. induction l as [| x l IH]; intros w; cbn [for_each].
  - exists (terminal w). destruct w; reflexivity.
  - destruct (Hbody x w) as [out1 E1].
    destruct (IH (set_terminal out1 w)) as [out2 E2].
    exists out2. unfold bind. rewrite E1, E2. destruct w; reflexivity.
Qed.

Lemma row_prints (x : CatalogDescr.t) (w : World) :
  exists out, ListArchiveCatalogCommand.row x w = (Ok tt, set_terminal out w).
Proof. eexists. reflexivity. Qed.

Lemma detail_prints (x : CatalogDescr.t) (w : World) :
  exists out, ListArchiveCatalogCommand.detail x w = (Ok tt, set_terminal out w).
Proof. eexists. destruct w. reflexivity. Qed.

Ltac print_loop :=
  match goal with
  | |- context [for_each ?l ListArchiveCatalogCommand.row ?w] =>
      let out := fresh "out" in let E := fresh "E" in
      destruct (for_each_prints _ row_prints l w) as [out E]; rewrite E
  | |- context [for_each ?l ListArchiveCatalogCommand.detail ?w] =>
      let out := fresh "out" in let E := fresh "E" in
      destruct (for_each_prints _ detail_prints l w) as [out E]; rewrite E
  end.

(** C8.  list-archive, when nothing fails, starts a transaction, reads the
    archive list and closes the catalog.  It returns without a call to
    commitTransaction, and the transaction it started is still in
    progress when the catalog is closed.  The commands that share its
    envelope commit at this point. *)
Theorem list_archive_never_commits :
  forall (this : ListArchiveCatalogCommand.t) (extendedOutput : bool) (w : World),
    BaseCatalogCommand.has_catalog (ListArchiveCatalogCommand.base this) = true ->
    idle w ->
    quiet w ->
    let run := ListArchiveCatalogCommand.execute this extendedOutput in
    exists (flt : option (CatalogDescr.t * list Z)) (added : list Entry),
      result run w = Ok tt
      /\ trace (after run w) = trace w ++ opening w ++ added
      /\ added = [mkEntry c_startTransaction false Done;
                  mkEntry (c_getArchiveList flt) true Done;
                  mkEntry c_close true Done]
      /\ existsb is_commit added = false
      /\ transaction (after run w) = Some (db w).
Proof.
  intros this extendedOutput w Hcat Hidle Hquiet run. subst run.
  open_world w. exec. rewrite Hcat. exec.
  destruct o; destruct (ListArchiveCatalogCommand.mode this);
    eexists; eexists; exec; print_loop; exec; flat; repeat split; reflexivity.
Qed.

Lemma list_archive_never_commits_witness :
  BaseCatalogCommand.has_catalog (ListArchiveCatalogCommand.base Sample.list_archives) = true
  /\ idle (world_of Sample.tables [])
  /\ quiet (world_of Sample.tables [])
  /\ exists (flt : option (CatalogDescr.t * list Z)) (added : list Entry),
       result (ListArchiveCatalogCommand.execute Sample.list_archives false)
              (world_of Sample.tables []) = Ok tt
       /\ trace (after (ListArchiveCatalogCommand.execute Sample.list_archives false)
                       (world_of Sample.tables [])) = added
       /\ existsb is_commit added = false.
Proof.
  do 3 (split; [reflexivity |]).
  destruct (list_archive_never_commits Sample.list_archives false
              (world_of Sample.tables []) eq_refl eq_refl eq_refl)
    as (flt & added & Hres & Htrace & _ & Hcommit & _).
  exists flt, added. split; [exact Hres |]. split; [exact Htrace | exact Hcommit].
Defined.

(** ** create-connection *)

Lemma con_key_find (archive_id : Z) (type : string) (l : list ConnectionDescr.t)
    (row : ConnectionDescr.t) :
  find (BackupCatalog.con_key archive_id type) l = Some row ->
  ConnectionDescr.archive_id row = archive_id /\ ConnectionDescr.type row = type.
Proof.
  intros H. apply find_some in H. destruct H as [_ H].
  unfold BackupCatalog.con_key in H. apply andb_true_iff in H. destruct H as [H1 H2].
  split; [apply Z.eqb_eq; exact H1 | apply String.eqb_eq; exact H2].
Qed.

(** C9.  create-connection on an existing archive.  If the catalog holds a
    connection with the same (archive_id, type), the command raises, the
    transaction is rolled back and no row is added; for every type but
    "unknown" the failure is the command's own "already has a connection
    of this type configured", thrown before the insert is attempted (a
    duplicate of type "unknown" passes the command's check and is refused
    by the primary key of the store).  The failure is thrown inside the
    protected block as a catalog issue; what the caller gets is the copy
    the handler throws, a [CPGBackupCtlFailure] with the same message.
    If there is no such connection, the new connection is inserted for
    the archive's id and the transaction is committed. *)
Theorem create_connection_rejects_duplicates :
  forall (this : BaseCatalogCommand.t) (flag : bool) (w : World),
    BaseCatalogCommand.has_catalog this = true ->
    idle w ->
    quiet w ->
    let name := CatalogDescr.archive_name this in
    let type := ConnectionDescr.type (CatalogDescr.coninfo this) in
    let archive_id := CatalogDescr.id (BackupCatalog.existsByName name (db w)) in
    let run := CreateConnectionCatalogCommand.execute this flag in
    let present := existsb (BackupCatalog.con_key archive_id type)
                           (BackupCatalog.connections (db w)) in
    0 <= archive_id ->
    (present = true ->
       exists e : Failure,
         result run w = Throw e
         /\ fclass e = CPGBackupCtlFailure
         /\ db (after run w) = db w
         /\ transaction (after run w) = None
         /\ (type <> ConnectionDescr.CONNECTION_TYPE_UNKNOWN ->
             e = sliced (issue CCatalogIssue
                           ["archive "; dquote; name; dquote;
                            " already has a connection of this type configured"; endl])
             /\ existsb is_createCatalogConnection (trace (after run w))
                = existsb is_createCatalogConnection (trace w)))
    /\ (present = false ->
        result run w = Ok tt
        /\ db (after run w)
           = BackupCatalog.set_connections
               (BackupCatalog.connections (db w)
                ++ [BackupCatalog.con_row
                      (ConnectionDescr.set_archive_id archive_id (CatalogDescr.coninfo this))])
               (db w)
        /\ transaction (after run w) = None).
Proof.
  intros this flag w Hcat Hidle Hquiet name type archive_id run present Harch.
  subst run present archive_id type name. open_world w. split.
  - intros Hdup.
    destruct (existsb_true_find _ _ Hdup) as (row & Hrow & _).
    destruct (con_key_find _ _ _ _ Hrow) as [Hrid Hrty].
    destruct (String.eqb (ConnectionDescr.type (CatalogDescr.coninfo this))
                         ConnectionDescr.CONNECTION_TYPE_UNKNOWN) eqn:Eunknown.
    + eexists. exec. rewrite Hcat. exec.
      destruct o; exec; rewrite (ltb_false _ _ Harch); exec; tidy;
        unfold BackupCatalog.getCatalogConnection; rewrite Hrow;
        cbn -[Z.leb String.eqb]; rewrite Hrid, Hrty, Eunknown, (leb_true _ _ Harch);
        cbn -[Z.leb String.eqb BackupCatalog.con_key];
        unfold BackupCatalog.createCatalogConnection; tidy; rewrite Hdup;
        exec; flat;
        do 4 (split; [reflexivity |]);
        intros Hne; apply String.eqb_eq in Eunknown; contradiction.
    + eexists. exec. rewrite Hcat. exec.
      destruct o; exec; rewrite (ltb_false _ _ Harch); exec; tidy;
        unfold BackupCatalog.getCatalogConnection; rewrite Hrow;
        cbn -[Z.leb String.eqb]; rewrite Hrid, Hrty, Eunknown, (leb_true _ _ Harch);
        cbn -[Z.leb String.eqb BackupCatalog.con_key];
        exec; flat;
        do 4 (split; [reflexivity |]);
        intros _; (split; [reflexivity |]);
        repeat rewrite existsb_app; cbn; rewrite ?orb_false_r; reflexivity.
  - intros Hnew.
    exec. rewrite Hcat. exec.
    destruct o; exec; rewrite (ltb_false _ _ Harch); exec; tidy;
      unfold BackupCatalog.getCatalogConnection;
      rewrite (existsb_false_find _ _ Hnew); tidy;
      change (0 <=? -1) with false; cbn [andb]; exec;
      unfold BackupCatalog.createCatalogConnection; tidy; rewrite Hnew;
      exec; flat; repeat split; reflexivity.
Qed.

Lemma create_connection_rejects_duplicates_witness :
  BaseCatalogCommand.has_catalog (Sample.create_connection "a" Sample.streamer) = true
  /\ idle (world_of Sample.tables [])
  /\ quiet (world_of Sample.tables [])
  /\ 0 <= CatalogDescr.id (BackupCatalog.existsByName "a" Sample.tables)
  /\ result (CreateConnectionCatalogCommand.execute
               (Sample.create_connection "a" Sample.streamer) false)
            (world_of Sample.tables []) = Ok tt
  /\ exists e : Failure,
       result (CreateConnectionCatalogCommand.execute
                 (Sample.create_connection "a" Sample.connection_a) false)
              (world_of Sample.tables []) = Throw e
       /\ db (after (CreateConnectionCatalogCommand.execute
                       (Sample.create_connection "a" Sample.connection_a) false)
                    (world_of Sample.tables [])) = Sample.tables.
Proof.
  assert (Ha : 0 <= CatalogDescr.id (BackupCatalog.existsByName "a" Sample.tables))
    by (vm_compute; discriminate).
  do 3 (split; [reflexivity |]). split; [exact Ha |].
  split.
  - apply (create_connection_rejects_duplicates
             (Sample.create_connection "a" Sample.streamer) false
             (world_of Sample.tables []) eq_refl eq_refl eq_refl Ha).
    reflexivity.
  - destruct (create_connection_rejects_duplicates
                (Sample.create_connection "a" Sample.connection_a) false
                (world_of Sample.tables []) eq_refl eq_refl eq_refl Ha) as [Hdup _].
    destruct (Hdup eq_refl) as (e & Hr & _ & Hdb & _).
    exists e. split; [exact Hr | exact Hdb].
Defined.

(** ** create-archive *)

Lemma next_id_fresh (ids : list Z) (x : Z) : In x ids -> x < BackupCatalog.next_id ids.
Proof.
  unfold BackupCatalog.next_id. induction ids as [| y ids IH]; cbn [In fold_right].
  - intros [].
  - intros [E | H]; [subst; lia | specialize (IH H); lia].
Qed.

Lemma existsb_false_filter {A : Type} (f : A -> bool) (l : list A) :
  existsb f l = false -> filter f l = [].
Proof.
  induction l as [| x l IH]; cbn; [reflexivity |].
  destruct (f x); cbn; [discriminate | exact IH].
Qed.

Lemma connection_count_snoc (archive_id : Z) (type : string) (c : ConnectionDescr.t)
    (t : BackupCatalog.Tables) :
  connection_count archive_id type
    (BackupCatalog.set_connections (BackupCatalog.connections t ++ [c]) t)
  = (connection_count archive_id type t
     + if BackupCatalog.con_key archive_id type c then 1 else 0)%nat.
Proof.
  unfold connection_count. cbn [BackupCatalog.set_connections BackupCatalog.connections].
  rewrite filter_app, length_app. cbn [filter].
  destruct (BackupCatalog.con_key archive_id type c); reflexivity.
Qed.

Lemma update_row_id (descr : CatalogDescr.t) (attrs : list Z) (r : BackupCatalog.ArchiveRow) :
  BackupCatalog.arch_id (BackupCatalog.update_row descr attrs r) = BackupCatalog.arch_id r.
Proof.
  unfold BackupCatalog.update_row.
  destruct (BackupCatalog.arch_id r =? CatalogDescr.id descr); reflexivity.
Qed.

Lemma update_accepted (descr : CatalogDescr.t) (attrs : list Z)
    (t t' : BackupCatalog.Tables) :
  BackupCatalog.updateArchiveAttributes descr attrs t = Ok (tt, t') ->
  t' = BackupCatalog.set_archive
         (map (BackupCatalog.update_row descr attrs) (BackupCatalog.archive t)) t.
Proof.
  unfold BackupCatalog.updateArchiveAttributes.
  destruct (BackupCatalog.moves_archive descr attrs t); [discriminate |].
  destruct (BackupCatalog.takes_name descr attrs t); [discriminate |].
  intros E. inversion E. reflexivity.
Qed.

(** C6.  create-archive that returns.  For a new archive (the directory
    lookup gave [id < 0]) the calls are, inside one transaction: the
    lookup, createArchive, createCatalogConnection for the connection info
    of the descriptor with the new archive's id and type basebackup, and
    the commit; afterwards the new archive has exactly one connection of
    type basebackup.  In every case, if each persisted archive had exactly
    one basebackup connection before the command, each has exactly one
    after it. *)
Theorem create_archive_basebackup_connection :
  forall (this : BaseCatalogCommand.t) (existsOk : bool) (w : World),
    BaseCatalogCommand.has_catalog this = true ->
    idle w ->
    quiet w ->
    let run := CreateArchiveCatalogCommand.execute this existsOk in
    let found := CatalogDescr.id (BackupCatalog.exists_ (CatalogDescr.directory this) (db w)) in
    let new_id := BackupCatalog.next_id
                    (map BackupCatalog.arch_id (BackupCatalog.archive (db w))) in
    let con := ConnectionDescr.set_type ConnectionDescr.CONNECTION_TYPE_BASEBACKUP
                 (ConnectionDescr.set_archive_id new_id (CatalogDescr.coninfo this)) in
    result run w = Ok tt ->
    (found < 0 ->
       trace (after run w)
       = trace w ++ opening w
         ++ [mkEntry c_startTransaction false Done;
             mkEntry (c_exists (CatalogDescr.directory this)) true Done;
             mkEntry (c_createArchive this) true Done;
             mkEntry (c_createCatalogConnection con) true Done;
             mkEntry c_commitTransaction true Done]
       /\ BackupCatalog.archive (db (after run w))
          = BackupCatalog.archive (db w)
            ++ [BackupCatalog.mkArchiveRow new_id (CatalogDescr.archive_name this)
                  (CatalogDescr.directory this) (CatalogDescr.compression this)]
       /\ BackupCatalog.connections (db (after run w))
          = BackupCatalog.connections (db w) ++ [BackupCatalog.con_row con]
       /\ connection_count new_id ConnectionDescr.CONNECTION_TYPE_BASEBACKUP
            (db (after run w)) = 1%nat
       /\ transaction (after run w) = None)
    /\ (one_basebackup_connection (db w) -> one_basebackup_connection (db (after run w))).
Proof.
  intros this existsOk w Hcat Hidle Hquiet run found new_id con.
  subst run found con new_id. open_world w.
  destruct (Z.ltb_spec
              (CatalogDescr.id (BackupCatalog.exists_ (CatalogDescr.directory this) t)) 0)
    as [Hnew | Hold].
  - exec. rewrite Hcat. exec.
    destruct o; exec; rewrite (ltb_true _ _ Hnew); exec;
      unfold BackupCatalog.createArchive;
      (destruct (existsb (BackupCatalog.has_name (CatalogDescr.archive_name this))
                         (BackupCatalog.archive t)
                 || existsb (BackupCatalog.has_directory (CatalogDescr.directory this))
                            (BackupCatalog.archive t)) eqn:Euniq;
       exec; [intros Hres; discriminate Hres |]);
      tidy; unfold BackupCatalog.createCatalogConnection; tidy;
      cbn [BackupCatalog.connections BackupCatalog.set_archive];
      (destruct (existsb
                   (BackupCatalog.con_key
                      (BackupCatalog.next_id
                         (map BackupCatalog.arch_id (BackupCatalog.archive t)))
                      ConnectionDescr.CONNECTION_TYPE_BASEBACKUP)
                   (BackupCatalog.connections t)) eqn:Epk;
       exec; [intros Hres; discriminate Hres |]);
      intros _; flat.
    all: assert (Hcount :
             connection_count
               (BackupCatalog.next_id (map BackupCatalog.arch_id (BackupCatalog.archive t)))
               ConnectionDescr.CONNECTION_TYPE_BASEBACKUP t = 0%nat)
        by (unfold connection_count; rewrite (existsb_false_filter _ _ Epk); reflexivity).
    all: split;
      [ intros _; rows; (split; [reflexivity |]); (split; [reflexivity |]);
        (split; [reflexivity |]); (split; [| reflexivity]);
        unfold connection_count; rows;
        rewrite filter_app, length_app;
        rewrite (existsb_false_filter _ _ Epk);
        unfold BackupCatalog.con_key; cbn [filter BackupCatalog.con_row
          ConnectionDescr.archive_id ConnectionDescr.type ConnectionDescr.set_type
          ConnectionDescr.set_archive_id];
        rewrite Z.eqb_refl, String.eqb_refl; reflexivity
      | intros Hinv r Hin;
        rows_in Hin;
        unfold connection_count in *; rows;
        rewrite filter_app, length_app;
        unfold BackupCatalog.con_key at 2; cbn [filter BackupCatalog.con_row
          ConnectionDescr.archive_id ConnectionDescr.type ConnectionDescr.set_type
          ConnectionDescr.set_archive_id];
        apply in_app_or in Hin; destruct Hin as [Hin | [Hin | []]];
        [ specialize (Hinv r Hin);
          assert (Hlt : BackupCatalog.arch_id r
                        < BackupCatalog.next_id
                            (map BackupCatalog.arch_id (BackupCatalog.archive t)))
            by (apply next_id_fresh; apply in_map; exact Hin);
          destruct (Z.eqb_spec
                      (BackupCatalog.next_id
                         (map BackupCatalog.arch_id (BackupCatalog.archive t)))
                      (BackupCatalog.arch_id r)) as [E | _]; [lia |];
          cbn [andb List.length]; unfold connection_count in Hinv; rewrite Hinv;
          reflexivity
        | subst r; cbn [BackupCatalog.arch_id];
          rewrite Z.eqb_refl, String.eqb_refl; cbn [andb List.length];
          rewrite Hcount; reflexivity ] ].
  - split; [intros Hlt; lia |].
    revert H. exec. rewrite Hcat. exec.
    destruct o; exec; rewrite (ltb_false _ _ Hold); destruct existsOk; exec;
      try (intros Hres; discriminate Hres);
      match goal with
      | |- context [BackupCatalog.updateArchiveAttributes ?d ?a ?rows] =>
          destruct (BackupCatalog.updateArchiveAttributes d a rows)
            as [[[] t'] | e2] eqn:Eupd
      end;
      exec; intros Hres; try discriminate Hres;
      apply update_accepted in Eupd; subst t';
      intros Hinv r Hin;
      cbn [BackupCatalog.set_archive BackupCatalog.archive] in Hin;
      apply in_map_iff in Hin; destruct Hin as (r0 & Er & Hin0);
      subst r; rewrite update_row_id;
      exact (Hinv r0 Hin0).
Qed.

Lemma one_basebackup_connection_sample : one_basebackup_connection Sample.tables.
Proof. intros r [E | []]. subst r. reflexivity. Qed.

Lemma create_archive_basebackup_connection_witness :
  BaseCatalogCommand.has_catalog (Sample.create_archive "b" "/tmp/b") = true
  /\ idle (world_of Sample.tables [])
  /\ quiet (world_of Sample.tables [])
  /\ result (CreateArchiveCatalogCommand.execute (Sample.create_archive "b" "/tmp/b") false)
            (world_of Sample.tables []) = Ok tt
  /\ connection_count 1 ConnectionDescr.CONNECTION_TYPE_BASEBACKUP
       (db (after (CreateArchiveCatalogCommand.execute
                     (Sample.create_archive "b" "/tmp/b") false)
                  (world_of Sample.tables []))) = 1%nat
  /\ one_basebackup_connection
       (db (after (CreateArchiveCatalogCommand.execute
                     (Sample.create_archive "b" "/tmp/b") false)
                  (world_of Sample.tables []))).
Proof.
  do 4 (split; [reflexivity |]).
  destruct (create_archive_basebackup_connection
              (Sample.create_archive "b" "/tmp/b") false (world_of Sample.tables [])
              eq_refl eq_refl eq_refl eq_refl) as [Hnew Hinv].
  split.
  - assert (Hlt : CatalogDescr.id (BackupCatalog.exists_ "/tmp/b" Sample.tables) < 0)
      by (vm_compute; reflexivity).
    destruct (Hnew Hlt) as (_ & _ & _ & Hcount & _). exact Hcount.
  - exact (Hinv one_basebackup_connection_sample).
Defined.

(** ** Rules for specifications of runs *)

Lemma hoare_weaken {A : Type} (P P' : World -> Prop) (m : M A)
    (Q Q' : A -> World -> Prop) (E E' : Failure -> World -> Prop) :
  hoare P' m Q' E' ->
  (forall w, P w -> P' w) ->
  (forall a w, Q' a w -> Q a w) ->
  (forall e w, E' e w -> E e w) ->
  hoare P m Q E.
Proof.
  intros H HP HQ HE w Hw. specialize (H w (HP w Hw)).
  destruct (m w) as [[a | [e |]] w']; [apply HQ | apply HE |]; exact H.
Qed.

Lemma hoare_bind {A B : Type} (P : World -> Prop) (m : M A) (k : A -> M B)
    (R : A -> World -> Prop) (Q : B -> World -> Prop) (E : Failure -> World -> Prop) :
  hoare P m R E ->
  (forall a, hoare (R a) (k a) Q E) ->
  hoare P (bind m k) Q E.
Proof.
  intros Hm Hk w Hw. unfold bind. specialize (Hm w Hw).
  destruct (m w) as [[a | [e |]] w']; [apply (Hk a w' Hm) | exact Hm | exact Hm].
Qed.

Lemma hoare_try_catch {A : Type} (P : World -> Prop) (m : M A) (h : Failure -> M A)
    (R : Failure -> World -> Prop) (Q : A -> World -> Prop) (E : Failure -> World -> Prop) :
  hoare P m Q R ->
  (forall e, hoare (R e) (h e) Q E) ->
  hoare P (try_catch m h) Q E.
Proof.
  intros Hm Hh w Hw. unfold try_catch. specialize (Hm w Hw).
  destruct (m w) as [[a | [e |]] w']; [exact Hm | apply (Hh e w' Hm) | exact Hm].
Qed.

Lemma inv_bind {A B : Type} (I : World -> Prop) (m : M A) (k : A -> M B) :
  inv I m -> (forall a, inv I (k a)) -> inv I (bind m k).
Proof. intros Hm Hk. exact (hoare_bind _ _ _ _ _ _ Hm Hk). Qed.

Lemma inv_try_catch {A : Type} (I : World -> Prop) (m : M A) (h : Failure -> M A) :
  inv I m -> (forall e, inv I (h e)) -> inv I (try_catch m h).
Proof. intros Hm Hh. exact (hoare_try_catch _ _ _ _ _ _ Hm Hh). Qed.

Lemma inv_ret {A : Type} (I : World -> Prop) (a : A) : inv I (ret a).
Proof. intros w Hw. exact Hw. Qed.

Lemma inv_throw {A : Type} (I : World -> Prop) (e : Failure) : inv I (@throw A e).
Proof. intros w Hw. exact Hw. Qed.

Lemma inv_gets {A : Type} (I : World -> Prop) (f : World -> A) : inv I (gets f).
Proof. intros w Hw. exact Hw. Qed.

Lemma inv_modify (I : World -> Prop) (g : World -> World) :
  (forall w, I w -> I (g w)) -> inv I (modify g).
Proof. intros Hg w Hw. exact (Hg w Hw). Qed.

Lemma inv_when (I : World -> Prop) (c : bool) (m : M unit) :
  inv I m -> inv I (when_ c m).
Proof. intros Hm. destruct c; [exact Hm | apply inv_ret]. Qed.

Lemma inv_if {A : Type} (I : World -> Prop) (c : bool) (m1 m2 : M A) :
  inv I m1 -> inv I m2 -> inv I (if c then m1 else m2).
Proof. intros H1 H2. destruct c; assumption. Qed.

(** A call keeps what neither the plan of failures nor the record of calls
    can tell, if the operation behind it does. *)
Lemma inv_call {A : Type} (I : World -> Prop) (c : Call) (op : World -> Refusal (A * World)) :
  (forall w l, I w -> I (set_faults l w)) ->
  (forall w t, I w -> I (set_trace t w)) ->
  (forall w a w2, I w -> op w = Ok (a, w2) -> I w2) ->
  inv I (call c op).
Proof.
  intros Hf Ht Hop w Hw. unfold call, record.
  destruct (hd None (faults w)) as [e |].
  - apply Ht, Hf, Hw.
  - destruct (op (set_faults (tl (faults w)) w)) as [[a w2] | e] eqn:Eop.
    + apply Ht. apply (Hop _ _ _ (Hf w _ Hw) Eop).
    + apply Ht, Hf, Hw.
Qed.

Lemma unregistered_faults (w : World) (l : list (option Failure)) :
  unregistered w -> unregistered (set_faults l w).
Proof. intros H. exact H. Qed.

Lemma unregistered_trace (w : World) (t : list Entry) :
  unregistered w -> unregistered (set_trace t w).
Proof. intros H. exact H. Qed.

Lemma unregistered_on_db {A : Type}
    (f : BackupCatalog.Tables -> A * BackupCatalog.Tables) (w : World) (a : A) (w2 : World) :
  unregistered w -> on_db f w = Ok (a, w2) -> unregistered w2.
Proof.
  unfold on_db. destruct (f (db w)) as [a' t]. intros H E.
  inversion E; subst. exact H.
Qed.

Lemma unregistered_pure {A : Type} (x : A) (w : World) (a : A) (w2 : World) :
  unregistered w -> Stream.pure x w = Ok (a, w2) -> unregistered w2.
Proof. unfold Stream.pure. intros H E. inversion E; subst. exact H. Qed.

Lemma inv_unregistered_call {A : Type} (c : Call) (op : World -> Refusal (A * World)) :
  (forall w a w2, unregistered w -> op w = Ok (a, w2) -> unregistered w2) ->
  inv unregistered (call c op).
Proof. apply inv_call; [exact unregistered_faults | exact unregistered_trace]. Qed.

Lemma inv_unregistered_rollback : inv unregistered catalog.rollbackTransaction.
Proof.
  intros w Hw. unfold catalog.rollbackTransaction.
  destruct w as [o t [s |] f tr term b reg txp]; exact Hw.
Qed.

(** The steps that keep the registration flag as it is. *)
Ltac keeps_unregistered :=
  repeat first
    [ apply inv_bind; [| intros ?]
    | apply inv_try_catch; [| intros ?]
    | apply inv_ret
    | apply inv_throw
    | apply inv_gets
    | apply inv_when
    | apply inv_if
    | apply inv_unregistered_rollback
    | progress cbv zeta
    | apply inv_modify; intros [? ? ? ? ? ? ? ? ?] ?; assumption
    | apply inv_unregistered_call;
      first [ intros ? ? ? ?; apply unregistered_on_db; assumption
            | intros ? ? ? ?; apply unregistered_pure; assumption
            | intros [? ? [?|] ? ? ? [?|] ? ?] ? ? ? Hop; cbn in Hop;
              inversion Hop; subst; assumption ] ].

Lemma inv_unregistered_open : inv unregistered open_unless_available.
Proof.
  unfold open_unless_available, catalog.available, catalog.open_rw. keeps_unregistered.
Qed.

Lemma inv_unregistered_resolve_archive (this : BaseCatalogCommand.t) :
  inv unregistered (StartBasebackupCatalogCommand.resolve_archive this).
Proof.
  unfold StartBasebackupCatalogCommand.resolve_archive, catalog.startTransaction,
    catalog.existsByName, catalog.getCatalogConnection, catalog.commitTransaction.
  keeps_unregistered.
Qed.

Lemma inv_unregistered_resolve_profile (this : BaseCatalogCommand.t) :
  inv unregistered (StartBasebackupCatalogCommand.resolve_profile this).
Proof.
  unfold StartBasebackupCatalogCommand.resolve_profile, catalog.startTransaction,
    catalog.getBackupProfile, catalog.commitTransaction.
  cbv zeta. keeps_unregistered.
Qed.

(** The command starts with the flag cleared, and nothing before the
    protected block sets it. *)
Lemma prepare_unregistered (this : BaseCatalogCommand.t) :
  hoare (fun _ => True) (StartBasebackupCatalogCommand.prepare this)
        (fun _ => unregistered) (fun _ => unregistered).
Proof.
  unfold StartBasebackupCatalogCommand.prepare.
  apply hoare_bind with (R := fun _ => unregistered).
  - intros [? ? ? ? ? ? ? ? ?] _. reflexivity.
  - intros _. apply inv_if; [apply inv_throw |].
    apply inv_bind; [apply inv_unregistered_open | intros _].
    apply inv_bind; [apply inv_unregistered_resolve_archive | intros temp].
    apply inv_bind; [apply inv_unregistered_resolve_profile | intros prof].
    apply inv_ret.
Qed.

(** ** The row of a base backup *)

Lemma find_snoc {A : Type} (f : A -> bool) (l : list A) (x : A) :
  find f (l ++ [x])
  = match find f l with
    | Some y => Some y
    | None => if f x then Some x else None
    end.
Proof.
  induction l as [| y l IH]; cbn [app find]; [reflexivity |].
  destruct (f y); [reflexivity | exact IH].
Qed.

Lemma find_backup_fresh (l : list BaseBackupDescr.t) :
  find (fun b => BaseBackupDescr.id b =? BackupCatalog.next_id (map BaseBackupDescr.id l)) l
  = None.
Proof.
  apply existsb_false_find.
  destruct (existsb (fun b => BaseBackupDescr.id b
                              =? BackupCatalog.next_id (map BaseBackupDescr.id l)) l) eqn:E;
    [| reflexivity].
  apply existsb_exists in E. destruct E as (b & Hin & Hb).
  apply Z.eqb_eq in Hb.
  pose proof (next_id_fresh (map BaseBackupDescr.id l) (BaseBackupDescr.id b)
                            (in_map _ _ _ Hin)).
  lia.
Qed.

(** A base backup that was just registered is found under its id, with
    status in progress. *)
Lemma register_settled (archive_id : Z) (d : BaseBackupDescr.t) (t : BackupCatalog.Tables) :
  let r := BackupCatalog.registerBasebackup archive_id d t in
  BackupCatalog.find_backup (BaseBackupDescr.id (fst r)) (snd r) = Some (fst r)
  /\ BaseBackupDescr.status (fst r) = BaseBackupDescr.BASEBACKUP_STATUS_IN_PROGRESS.
Proof.
  unfold BackupCatalog.registerBasebackup, BackupCatalog.find_backup.
  cbn [fst snd BackupCatalog.backup BackupCatalog.set_backup BaseBackupDescr.id
       BaseBackupDescr.status BaseBackupDescr.set_status BaseBackupDescr.set_archive_id
       BaseBackupDescr.set_id].
  split; [| reflexivity].
  rewrite find_snoc, find_backup_fresh.
  cbn [BaseBackupDescr.id]. rewrite Z.eqb_refl. reflexivity.
Qed.

Lemma find_on_backup (id : Z) (f : BaseBackupDescr.t -> BaseBackupDescr.t)
    (l : list BaseBackupDescr.t) :
  (forall b, BaseBackupDescr.id (f b) = BaseBackupDescr.id b) ->
  find (fun b => BaseBackupDescr.id b =? id) (map (BackupCatalog.on_backup id f) l)
  = option_map f (find (fun b => BaseBackupDescr.id b =? id) l).
Proof.
  intros Hf. unfold BackupCatalog.on_backup.
  induction l as [| b l IH]; cbn [map find option_map]; [reflexivity |].
  destruct (BaseBackupDescr.id b =? id) eqn:E.
  - rewrite Hf, E. reflexivity.
  - rewrite E. exact IH.
Qed.

Lemma find_backup_abort (d row : BaseBackupDescr.t) (t : BackupCatalog.Tables) :
  BackupCatalog.find_backup (BaseBackupDescr.id d) t = Some row ->
  BackupCatalog.find_backup (BaseBackupDescr.id d) (BackupCatalog.abortBasebackup d t)
  = Some (BaseBackupDescr.set_status BaseBackupDescr.BASEBACKUP_STATUS_ABORTED row).
Proof.
  unfold BackupCatalog.find_backup, BackupCatalog.abortBasebackup. intros H.
  cbn [BackupCatalog.backup BackupCatalog.set_backup].
  rewrite find_on_backup by reflexivity. rewrite H. reflexivity.
Qed.



(** ** start-basebackup: the protected block *)

Ltac plan_case :=
  match goal with
  | |- context [match ?f with [] => _ | _ :: _ => _ end] =>
      is_var f; destruct f as [| [?|] ?]
  end.

Ltac plan_cases := exec; repeat (plan_case; exec).

(** The registration transaction (lines 660-683): it either commits the
    row of the backup or leaves the flag cleared. *)
Lemma registration_spec (peer : Stream.t) (temp_descr : CatalogDescr.t) :
  hoare unregistered
    (try_catch
       (Stream.initialize ;;
        Stream.create ;;
        Stream.assign (BaseBackupDescr.set_archive_id (CatalogDescr.id temp_descr)) ;;
        Stream.assign (BaseBackupDescr.set_fsentry (Stream.backupDirectoryString peer)) ;;
        basebackupDescr <- Stream.getBaseBackupDescr ;;
        cout (Cerr (cat ["directory handle path "; BaseBackupDescr.fsentry basebackupDescr;
                         endl])) ;;
        catalog.registerBasebackup (CatalogDescr.id temp_descr) basebackupDescr ;;
        catalog.commitTransaction)
       (fun e => catalog.rollbackTransaction ;; throw (sliced e)))
    (fun _ w => unregistered w /\ committed w)
    (fun _ w => unregistered w).
Proof.
  intros w Hw. unfold unregistered in Hw. open_world w.
  destruct b as [d |]; destruct tx as [s |]; plan_cases;
    unfold unregistered, committed, settled;
    cbn [basebackup_registered transaction bbp db option_map];
    try reflexivity;
    (split; [reflexivity |]); (split; [reflexivity |]);
    eexists; eexists; (split; [reflexivity |]);
    apply register_settled.
Qed.

Lemma registered_faults (w : World) (l : list (option Failure)) :
  registered w -> registered (set_faults l w).
Proof. intros H. exact H. Qed.

Lemma registered_trace (w : World) (t : list Entry) :
  registered w -> registered (set_trace t w).
Proof. intros H. exact H. Qed.

Lemma inv_registered_call {A : Type} (c : Call) (op : World -> Refusal (A * World)) :
  (forall w a w2, registered w -> op w = Ok (a, w2) -> registered w2) ->
  inv registered (call c op).
Proof. apply inv_call; [exact registered_faults | exact registered_trace]. Qed.

Lemma registered_pure {A : Type} (x : A) (w : World) (a : A) (w2 : World) :
  registered w -> Stream.pure x w = Ok (a, w2) -> registered w2.
Proof. unfold Stream.pure. intros H E. inversion E; subst. exact H. Qed.

Lemma inv_registered_tablespace (s : BackupTablespaceDescr.t) :
  inv registered (catalog.registerTablespaceForBackup s).
Proof.
  apply inv_registered_call. intros w a w2 H.
  unfold on_db_checked, BackupCatalog.registerTablespaceForBackup.
  destruct (BackupTablespaceDescr.backup_id s <? 0); [discriminate |].
  intros E. inversion E; subst. destruct w. exact H.
Qed.

Lemma inv_registered_end (peer : Stream.t) : inv registered (Stream.end_ peer).
Proof.
  apply inv_registered_call. intros w a w2 (Hreg & Htx & d & row & Hd & Hrow & Hst) E.
  inversion E; subst. destruct w as [o t tx f tr term b reg txp].
  cbn [bbp] in Hd. subst b.
  split; [exact Hreg |]. split; [exact Htx |].
  eexists; exists row. split; [reflexivity |]. split; [exact Hrow | exact Hst].
Qed.

Lemma inv_registered_tablespaces (queue : list BackupTablespaceDescr.t) :
  inv registered (StartBasebackupCatalogCommand.stream_tablespaces queue).
Proof.
  induction queue as [| s queue IH]; cbn [StartBasebackupCatalogCommand.stream_tablespaces].
  - apply inv_bind; [| intros _; apply inv_ret].
    apply inv_registered_call. intros w a w2. apply registered_pure.
  - apply inv_bind; [apply inv_registered_call; intros w a w2; apply registered_pure |].
    intros _. apply inv_bind; [apply inv_gets | intros d]. cbv zeta.
    apply inv_bind; [apply inv_registered_tablespace | intros _].
    apply inv_bind; [apply inv_registered_call; intros w a w2; apply registered_pure |].
    intros _. exact IH.
Qed.

(** The protected block (lines 594-735), started with the flag cleared:
    when it returns the backup is registered; when it raises, the backup
    is registered if and only if the flag is set. *)
Lemma stream_spec (peer : Stream.t) (temp_descr : CatalogDescr.t)
    (backupProfile : BackupProfileDescr.t) :
  hoare unregistered
    (StartBasebackupCatalogCommand.stream peer temp_descr backupProfile)
    (fun _ w => registered w)
    (fun _ w => unregistered w \/ registered w).
Proof.
  assert (Hpre : forall (A : Type) (m : M A),
             inv unregistered m ->
             hoare unregistered m (fun _ => unregistered)
                   (fun _ w => unregistered w \/ registered w)).
  { intros A m H. apply (hoare_weaken _ _ _ _ _ _ _ H); auto. }
  assert (Hpost : forall (A : Type) (m : M A),
             inv registered m ->
             hoare registered m (fun _ => registered)
                   (fun _ w => unregistered w \/ registered w)).
  { intros A m H. apply (hoare_weaken _ _ _ _ _ _ _ H); auto. }
  unfold StartBasebackupCatalogCommand.stream.
  apply hoare_bind with (R := fun _ => unregistered);
    [apply Hpre; unfold Stream.connect; keeps_unregistered | intros _].
  apply hoare_bind with (R := fun _ => unregistered);
    [apply Hpre; unfold Stream.identify; keeps_unregistered | intros _].
  apply hoare_bind with (R := fun _ => unregistered);
    [apply Hpre; unfold Stream.basebackup; keeps_unregistered | intros _].
  apply hoare_bind with (R := fun _ => unregistered);
    [apply Hpre; unfold Stream.start; keeps_unregistered | intros _].
  apply hoare_bind with (R := fun _ => unregistered);
    [apply Hpre; unfold catalog.startTransaction; keeps_unregistered | intros _].
  apply hoare_bind with (R := fun _ w => unregistered w /\ committed w).
  { apply (hoare_weaken _ _ _ _ _ _ _ (registration_spec peer temp_descr)); auto. }
  intros _.
  apply hoare_bind with (R := fun _ => registered).
  { intros [o t tx f tr term b reg txp] [_ Hc]. split; [reflexivity | exact Hc]. }
  intros _. apply Hpost.
  apply inv_bind;
    [apply inv_registered_call; intros w a w2; apply registered_pure | intros queue].
  apply inv_bind; [apply inv_registered_tablespaces | intros _].
  apply inv_bind; [apply inv_registered_end | intros _].
  apply inv_registered_call. intros w a w2. apply registered_pure.
Qed.

(** The handler when the base backup is not registered: it raises its
    copy of the failure it caught. *)
Lemma compensate_unregistered (e : Failure) (w : World) :
  unregistered w ->
  StartBasebackupCatalogCommand.compensate e w
  = (Throw (Derived (sliced e)), set_txinprogress false w).
Proof.
  intros Hw. unfold unregistered in Hw. open_world w. reflexivity.
Qed.

(** The handler when the base backup is registered. *)
Lemma compensate_registered (e : Failure) (w : World) :
  registered w ->
  let w' := after (StartBasebackupCatalogCommand.compensate e) w in
  exists (d : BaseBackupDescr.t) (tail : list Entry),
    bbp w = Some d
    /\ result (StartBasebackupCatalogCommand.compensate e) w = Throw (sliced e)
    /\ trace w' = trace w ++ tail
    /\ Compensation d tail
    /\ bbp w' = Some d
    /\ settled (if closing_commit tail
                then BaseBackupDescr.BASEBACKUP_STATUS_ABORTED
                else BaseBackupDescr.BASEBACKUP_STATUS_IN_PROGRESS) w'.
Proof.
  intros (Hreg & Htx & d & row & Hd & Hrow & Hst) w'. subst w'.
  open_world w. exists d.
  plan_cases; flat; eexists;
    (split; [reflexivity |]); (split; [reflexivity |]); (split; [reflexivity |]);
    (split; [constructor |]); (split; [reflexivity |]);
    cbv [closing_commit last];
    first
      [ exists d, row; split; [reflexivity |]; split; [exact Hrow | exact Hst]
      | exists d; eexists; split; [reflexivity |];
        split; [apply find_backup_abort; exact Hrow | reflexivity] ].
Qed.




(** ** start-basebackup: failures after the registration *)

(** C1 (as amended).  Once the base backup is registered, a failure [e]
    of the protected block (reading the tablespace list, streaming the
    tablespaces, ending the stream, disconnecting) makes the command start
    a transaction of its own, with none in progress, and call
    abortBasebackup for the registered backup inside it, then commit.  If
    one of these calls fails, the transaction is rolled back if it had been
    started, and the secondary failure is dropped.  In every case what the
    command raises is made from [e], the failure of the protected block,
    and never from the secondary failure: it is the copy the handler
    throws, a [CPGBackupCtlFailure] with the message of [e], whatever
    subclass [e] was of.  Nothing is called after the compensation. *)
Theorem start_basebackup_compensation :
  forall (peer : Stream.t) (this : BaseCatalogCommand.t) (background : bool)
         (w w0 w1 : World) (temp_descr : CatalogDescr.t)
         (backupProfile : BackupProfileDescr.t) (e : Failure),
    StartBasebackupCatalogCommand.prepare this w = (Ok (temp_descr, backupProfile), w0) ->
    StartBasebackupCatalogCommand.stream peer temp_descr backupProfile w0
    = (Throw (Derived e), w1) ->
    basebackup_registered w1 = true ->
    result (StartBasebackupCatalogCommand.execute peer this background) w
    = Throw (sliced e)
    /\ exists (d : BaseBackupDescr.t) (tail : list Entry),
         bbp w1 = Some d
         /\ trace (after (StartBasebackupCatalogCommand.execute peer this background) w)
            = trace w1 ++ tail
         /\ Compensation d tail.
Proof.
  intros peer this background w w0 w1 temp_descr backupProfile e Hprep Hstream Hflag.
  assert (H0 : unregistered w0).
  { pose proof (prepare_unregistered this w I) as H. rewrite Hprep in H. exact H. }
  assert (H1 : registered w1).
  { pose proof (stream_spec peer temp_descr backupProfile w0 H0) as H.
    rewrite Hstream in H. destruct H as [H | H]; [| exact H].
    unfold unregistered in H. congruence. }
  destruct (compensate_registered e w1 H1)
    as (d & tail & Hd & Hres & Htrace & Hshape & _).
  unfold result, after, StartBasebackupCatalogCommand.execute, bind, try_catch in *.
  rewrite Hprep. cbn [fst snd]. rewrite Hstream.
  destruct (StartBasebackupCatalogCommand.compensate e w1) as [[[] | e'] w2];
    cbn [fst snd] in *; [discriminate Hres |].
  inversion Hres; subst e'.
  split; [reflexivity |]. exists d, tail. auto.
Qed.


Lemma start_basebackup_compensation_witness :
  let cmd := Sample.backup_command "a" "" in
  let w := world_of Sample.tables Sample.end_fails in
  let resolved := value (CatalogDescr.init, BackupProfileDescr.init)
                        (result (StartBasebackupCatalogCommand.prepare cmd) w) in
  let w0 := after (StartBasebackupCatalogCommand.prepare cmd) w in
  let w1 := after (StartBasebackupCatalogCommand.stream
                     Sample.peer (fst resolved) (snd resolved)) w0 in
  StartBasebackupCatalogCommand.prepare cmd w = (Ok (fst resolved, snd resolved), w0)
  /\ StartBasebackupCatalogCommand.stream Sample.peer (fst resolved) (snd resolved) w0
     = (Throw (Derived Sample.stream_failure), w1)
  /\ basebackup_registered w1 = true
  /\ result (StartBasebackupCatalogCommand.execute Sample.peer cmd false) w
     = Throw (sliced Sample.stream_failure).
Proof.
  intros cmd w resolved w0 w1.
  assert (Hp : StartBasebackupCatalogCommand.prepare cmd w
               = (Ok (fst resolved, snd resolved), w0)) by (vm_compute; reflexivity).
  assert (Hs : StartBasebackupCatalogCommand.stream
                 Sample.peer (fst resolved) (snd resolved) w0
               = (Throw (Derived Sample.stream_failure), w1)) by (vm_compute; reflexivity).
  assert (Hf : basebackup_registered w1 = true) by (vm_compute; reflexivity).
  split; [exact Hp |]. split; [exact Hs |]. split; [exact Hf |].
  apply (start_basebackup_compensation Sample.peer cmd false w w0 w1
           (fst resolved) (snd resolved) Sample.stream_failure Hp Hs Hf).
Defined.

(** The claim C1 as it is worded fails in two ways: a failure of the
    finalizing transaction is raised after the registration without any
    call of abortBasebackup, and so is a failure of the protected block
    whose compensating transaction cannot be started. *)
Lemma compensation_counterexample :
  ~ aborts_after_registration Sample.peer (Sample.backup_command "a" "") false
      (world_of Sample.tables Sample.finalize_fails)
  /\ ~ aborts_after_registration Sample.peer (Sample.backup_command "a" "") false
        (world_of Sample.tables Sample.end_fails_no_transaction).
Proof.
  split; intros H.
  - specialize (H (Derived (sliced Sample.catalog_failure))).
    assert (Hr : result (StartBasebackupCatalogCommand.execute
                           Sample.peer (Sample.backup_command "a" "") false)
                        (world_of Sample.tables Sample.finalize_fails)
                 = Throw (sliced Sample.catalog_failure)) by (vm_compute; reflexivity).
    assert (Hf : basebackup_registered
                   (after (StartBasebackupCatalogCommand.execute
                             Sample.peer (Sample.backup_command "a" "") false)
                          (world_of Sample.tables Sample.finalize_fails)) = true)
      by (vm_compute; reflexivity).
    specialize (H Hr Hf). vm_compute in H. discriminate H.
  - specialize (H (Derived (sliced Sample.stream_failure))).
    assert (Hr : result (StartBasebackupCatalogCommand.execute
                           Sample.peer (Sample.backup_command "a" "") false)
                        (world_of Sample.tables Sample.end_fails_no_transaction)
                 = Throw (sliced Sample.stream_failure)) by (vm_compute; reflexivity).
    assert (Hf : basebackup_registered
                   (after (StartBasebackupCatalogCommand.execute
                             Sample.peer (Sample.backup_command "a" "") false)
                          (world_of Sample.tables Sample.end_fails_no_transaction)) = true)
      by (vm_compute; reflexivity).
    specialize (H Hr Hf). vm_compute in H. discriminate H.
Qed.



(** * More properties *)

(** ** Byte order *)

Lemma mask_bit (k n : Z) :
  0 <= k -> Z.testbit (Z.shiftl 255 k) n = (k <=? n) && (n <? k + 8).
Proof.
  intros Hk.
  destruct (Z.ltb_spec n 0) as [Hn | Hn].
  - rewrite Z.testbit_neg_r by lia.
    destruct (Z.leb_spec k n); [lia | reflexivity].
  - rewrite Z.shiftl_spec by lia.
    change 255 with (Z.ones 8). rewrite Z.testbit_ones by lia.
    destruct (Z.leb_spec 0 (n - k)); destruct (Z.leb_spec k n); try lia;
      destruct (Z.ltb_spec (n - k) 8); destruct (Z.ltb_spec n (k + 8)); try lia; reflexivity.
Qed.

Ltac decide_bounds :=
  repeat match goal with
         | |- context [?a <=? ?b] => destruct (Z.leb_spec a b); try lia
         | |- context [?a <? ?b] => destruct (Z.ltb_spec a b); try lia
         end.

Lemma octet (n : Z) : 0 <= n -> 8 * (n / 8) <= n < 8 * (n / 8) + 8.
Proof.
  intros Hn. pose proof (Z.div_mod n 8 ltac:(lia)).
  pose proof (Z.mod_pos_bound n 8 ltac:(lia)). lia.
Qed.

(** Bit [n] of the swapped value is the bit of the same position within
    the mirrored byte. *)
Lemma swap_bit (x n : Z) :
  0 <= n ->
  Z.testbit (uint64_to_host_byteorder x) n
  = (n <? 64) && Z.testbit x (n + 56 - 16 * (n / 8)).
Proof.
  intros Hn. unfold uint64_to_host_byteorder, uint64.
  change 0xff00000000000000 with (Z.shiftl 255 56).
  change 0x00ff000000000000 with (Z.shiftl 255 48).
  change 0x0000ff0000000000 with (Z.shiftl 255 40).
  change 0x000000ff00000000 with (Z.shiftl 255 32).
  change 0x00000000ff000000 with (Z.shiftl 255 24).
  change 0x0000000000ff0000 with (Z.shiftl 255 16).
  change 0x000000000000ff00 with (Z.shiftl 255 8).
  change 0x00000000000000ff with (Z.shiftl 255 0).
  repeat rewrite Z.lor_spec. repeat rewrite Z.land_spec.
  repeat rewrite mask_bit by lia.
  repeat rewrite Z.testbit_mod_pow2 by lia.
  repeat rewrite Z.shiftl_spec by lia.
  repeat rewrite Z.shiftr_spec by lia.
  pose proof (octet n Hn) as Hd.
  destruct (Z.ltb_spec n 64) as [H64 | H64].
  - assert (Hc : n / 8 = 0 \/ n / 8 = 1 \/ n / 8 = 2 \/ n / 8 = 3 \/ n / 8 = 4
                 \/ n / 8 = 5 \/ n / 8 = 6 \/ n / 8 = 7) by lia.
    destruct Hc as [E | [E | [E | [E | [E | [E | [E | E]]]]]]]; rewrite E in *;
      decide_bounds; rewrite ?andb_false_r, ?andb_true_r; cbn [andb orb];
      rewrite ?orb_false_r; f_equal; lia.
  - decide_bounds; reflexivity.
Qed.

Lemma uint64_high_bit (x n : Z) : 0 <= x < 2 ^ 64 -> 64 <= n -> Z.testbit x n = false.
Proof.
  intros Hx Hn. rewrite <- (Z.mod_small x (2 ^ 64)) by exact Hx.
  apply Z.mod_pow2_bits_high. lia.
Qed.

Lemma byte_at_div (i x : Z) : 0 <= i -> byte_at i x = (x / 2 ^ (8 * i)) mod 256.
Proof.
  intros Hi. unfold byte_at. change 255 with (Z.ones 8).
  rewrite Z.land_ones by lia. rewrite Z.shiftr_div_pow2 by lia. reflexivity.
Qed.

Lemma swap_mirrors (x i : Z) :
  0 <= i <= 7 -> byte_at i (uint64_to_host_byteorder x) = byte_at (7 - i) x.
Proof.
  intros Hi. unfold byte_at. apply Z.bits_inj'. intros n Hn.
  rewrite !Z.land_spec, !Z.shiftr_spec by lia.
  change 255 with (Z.ones 8). rewrite Z.testbit_ones by lia.
  destruct (Z.leb_spec 0 n); [| lia]. cbn [andb].
  destruct (Z.ltb_spec n 8) as [H8 | H8]; rewrite ?andb_false_r; [| reflexivity].
  rewrite !andb_true_r. rewrite swap_bit by lia.
  assert (Hm : (n + 8 * i) / 8 = i).
  { symmetry. apply Z.div_unique with (r := n); lia. }
  rewrite Hm. destruct (Z.ltb_spec (n + 8 * i) 64); [| lia].
  cbn [andb]. f_equal. lia.
Qed.

Lemma network_value_bytes (x : Z) :
  0 <= x < 2 ^ 64 ->
  network_value [byte_at 7 x; byte_at 6 x; byte_at 5 x; byte_at 4 x;
                 byte_at 3 x; byte_at 2 x; byte_at 1 x; byte_at 0 x] = x.
Proof.
  intros Hx. unfold network_value. cbn [fold_left].
  rewrite !byte_at_div by lia.
  change (2 ^ 64) with 18446744073709551616 in Hx.
  change (2 ^ (8 * 7)) with 72057594037927936.
  change (2 ^ (8 * 6)) with 281474976710656.
  change (2 ^ (8 * 5)) with 1099511627776.
  change (2 ^ (8 * 4)) with 4294967296.
  change (2 ^ (8 * 3)) with 16777216.
  change (2 ^ (8 * 2)) with 65536.
  change (2 ^ (8 * 1)) with 256.
  change (2 ^ (8 * 0)) with 1.
  Z.div_mod_to_equations. lia.
Qed.

(** X1.  [uint64_to_host_byteorder] reverses the order of the eight bytes
    of its argument: the byte of significance [i] of the result is the
    byte of significance [7 - i] of the argument.  This holds for every
    integer, whatever bits it has beyond the 64th; the result is a 64-bit
    value. *)
Theorem uint64_to_host_byteorder_reverses_bytes :
  forall x i : Z,
    0 <= i <= 7 ->
    byte_at i (uint64_to_host_byteorder x) = byte_at (7 - i) x
    /\ 0 <= uint64_to_host_byteorder x < 2 ^ 64.
Proof.
  intros x i Hi. split; [apply swap_mirrors; exact Hi |].
  assert (H : uint64_to_host_byteorder x = uint64_to_host_byteorder x mod 2 ^ 64).
  { apply Z.bits_inj'. intros n Hn. rewrite Z.testbit_mod_pow2 by lia.
    rewrite swap_bit by exact Hn.
    destruct (n <? 64); reflexivity. }
  rewrite H. apply Z.mod_pos_bound. lia.
Qed.

Lemma uint64_to_host_byteorder_reverses_bytes_witness :
  0 <= 1 <= 7
  /\ byte_at 1 (uint64_to_host_byteorder 0x0102030405060708) = 0x02.
Proof.
  split; [lia |].
  destruct (uint64_to_host_byteorder_reverses_bytes 0x0102030405060708 1 ltac:(lia))
    as [H _].
  rewrite H. reflexivity.
Defined.

(** X2.  On 64-bit values [uint64_to_host_byteorder] is its own inverse:
    swapping twice gives the value back. *)
Theorem uint64_to_host_byteorder_involutive :
  forall x : Z,
    0 <= x < 2 ^ 64 ->
    uint64_to_host_byteorder (uint64_to_host_byteorder x) = x.
Proof.
  intros x Hx. apply Z.bits_inj'. intros n Hn.
  rewrite swap_bit by exact Hn.
  destruct (Z.ltb_spec n 64) as [H64 | H64]; cbn [andb].
  - pose proof (octet n Hn) as Hd.
    rewrite swap_bit by lia.
    assert (Hm : (n + 56 - 16 * (n / 8)) / 8 = 7 - n / 8).
    { symmetry. apply Z.div_unique with (r := n - 8 * (n / 8)); lia. }
    rewrite Hm.
    destruct (Z.ltb_spec (n + 56 - 16 * (n / 8)) 64); [| lia].
    cbn [andb]. f_equal. lia.
  - symmetry. apply uint64_high_bit; assumption.
Qed.

Lemma uint64_to_host_byteorder_involutive_witness :
  0 <= 0x0102030405060708 < 2 ^ 64
  /\ uint64_to_host_byteorder 0x0102030405060708 = 0x0807060504030201
  /\ uint64_to_host_byteorder (uint64_to_host_byteorder 0x0102030405060708)
     = 0x0102030405060708.
Proof.
  split; [lia |]. split; [reflexivity |].
  apply (uint64_to_host_byteorder_involutive 0x0102030405060708). lia.
Defined.

(** X3.  [uint64_hton_sendbuf] writes a 64-bit value into the first eight
    bytes of the buffer in network byte order, most significant byte
    first, on a little-endian machine and on a big-endian machine whose
    build defines [PG_BACKUP_CTL_BIG_ENDIAN]; the bytes behind the eighth
    stay as they are, and reading the eight bytes back as a big-endian
    number gives the value. *)
Theorem uint64_hton_sendbuf_network_order :
  forall (PG_BACKUP_CTL_BIG_ENDIAN : bool) (host : ByteOrder) (buf : list Z) (val : Z),
    configured PG_BACKUP_CTL_BIG_ENDIAN host ->
    0 <= val < 2 ^ 64 ->
    (8 <= List.length buf)%nat ->
    let sent := uint64_hton_sendbuf PG_BACKUP_CTL_BIG_ENDIAN host buf val in
    sent = [byte_at 7 val; byte_at 6 val; byte_at 5 val; byte_at 4 val;
            byte_at 3 val; byte_at 2 val; byte_at 1 val; byte_at 0 val] ++ skipn 8 buf
    /\ List.length sent = List.length buf
    /\ network_value (firstn 8 sent) = val.
Proof.
  intros flag host buf val Hc Hval Hbuf sent. subst sent.
  assert (E : uint64_hton_sendbuf flag host buf val
              = [byte_at 7 val; byte_at 6 val; byte_at 5 val; byte_at 4 val;
                 byte_at 3 val; byte_at 2 val; byte_at 1 val; byte_at 0 val] ++ skipn 8 buf).
  { unfold configured in Hc. subst flag.
    unfold uint64_hton_sendbuf, memcpy, object_representation, SWAP_UINT64.
    destruct host; cbn [map rev app List.length].
    - rewrite !swap_mirrors by lia. reflexivity.
    - reflexivity. }
  rewrite E. split; [reflexivity |]. split.
  - rewrite length_app, length_skipn. cbn [List.length]. lia.
  - cbn [firstn app]. apply network_value_bytes. exact Hval.
Qed.

Lemma uint64_hton_sendbuf_network_order_witness :
  configured false little_endian
  /\ 0 <= 258 < 2 ^ 64
  /\ (8 <= List.length [9; 9; 9; 9; 9; 9; 9; 9; 9; 9])%nat
  /\ uint64_hton_sendbuf false little_endian [9; 9; 9; 9; 9; 9; 9; 9; 9; 9] 258
     = [0; 0; 0; 0; 0; 0; 1; 2; 9; 9].
Proof.
  split; [reflexivity |]. split; [lia |]. split; [cbn; lia |].
  destruct (uint64_hton_sendbuf_network_order false little_endian
              [9; 9; 9; 9; 9; 9; 9; 9; 9; 9] 258 eq_refl ltac:(lia) ltac:(cbn; lia))
    as [H _].
  rewrite H. reflexivity.
Defined.

(** ** Rules for transactions *)

Ltac exec2 :=
  cbv beta iota zeta delta
    [result after calls opening raised what_of
     bind ret throw try_catch try_catch_exception gets modify call invoke when_ cout on_db
     on_db_checked record
     open_unless_available hd tl is_some negb fst snd quiet idle
     catalog.available catalog.open_rw catalog.close catalog.startTransaction
     catalog.commitTransaction catalog.rollbackTransaction catalog.existsByName
     catalog.exists_ catalog.createArchive catalog.updateArchiveAttributes
     catalog.dropArchive catalog.getArchiveList catalog.getCatalogConnection
     catalog.createCatalogConnection catalog.getBackupProfile catalog.getBackupProfiles
     catalog.createBackupProfile catalog.registerBasebackup catalog.abortBasebackup
     catalog.finalizeBasebackup catalog.registerTablespaceForBackup
     catalog_more.dropCatalogConnection catalog_more.getCatalogConnection
     catalog_more.dropBackupProfile catalog_more.statCatalog
     CPGBackupCtlFS.getArchiveDirectoryDescr CPGBackupCtlFS.verify
     Stream.pure Stream.connect Stream.identify Stream.basebackup Stream.start
     Stream.getBaseBackupDescr Stream.assign Stream.initialize Stream.create
     Stream.readTablespaceInfo Stream.stepTablespace Stream.backupTablespace
     Stream.end_ Stream.disconnect
     set_catalog_open set_db set_transaction set_faults set_trace set_terminal set_bbp
     set_basebackup_registered set_txinprogress
     catalog_open db transaction faults trace terminal bbp basebackup_registered
     txinprogress
     StartBasebackupCatalogCommand.execute StartBasebackupCatalogCommand.prepare
     StartBasebackupCatalogCommand.resolve_archive
     StartBasebackupCatalogCommand.resolve_profile StartBasebackupCatalogCommand.stream
     StartBasebackupCatalogCommand.compensate StartBasebackupCatalogCommand.finalize
     CreateConnectionCatalogCommand.execute CreateBackupProfileCatalogCommand.execute
     DropArchiveCatalogCommand.execute CreateArchiveCatalogCommand.execute
     ListArchiveCatalogCommand.execute ListBackupProfileCatalogCommand.execute
     ListBackupProfileCatalogCommand.line
     DropConnectionCatalogCommand.execute ListConnectionCatalogCommand.execute
     ListConnectionCatalogCommand.line
     ListBackupCatalogCommand.execute DropBackupProfileCatalogCommand.execute
     VerifyArchiveCatalogCommand.execute AlterArchiveCatalogCommand.execute].

Ltac plan_cases2 := exec2; repeat (plan_case; exec2).

Lemma keeps_on_db_transaction {A : Type}
    (f : BackupCatalog.Tables -> A * BackupCatalog.Tables) :
  keeps transaction (on_db f).
Proof.
  intros w a w2. unfold on_db. destruct (f (db w)) as [a' t].
  intros E. inversion E; subst. reflexivity.
Qed.

Lemma keeps_on_db_checked_transaction {A : Type}
    (f : BackupCatalog.Tables -> Refusal (A * BackupCatalog.Tables)) :
  keeps transaction (on_db_checked f).
Proof.
  intros w a w2. unfold on_db_checked. destruct (f (db w)) as [[a' t] | e]; [| discriminate].
  intros E. inversion E; subst. reflexivity.
Qed.

Lemma keeps_reading {A : Type} (g : BackupCatalog.Tables -> A) :
  keeps db (on_db (fun t => (g t, t))).
Proof. intros w a w2. unfold on_db. intros E. inversion E; subst. destruct w; reflexivity. Qed.

Lemma keeps_pure {A B : Type} (member : World -> B) (x : A) : keeps member (Stream.pure x).
Proof. intros w a w2 E. inversion E; subst. reflexivity. Qed.

Lemma inv_call_store {A : Type} (I : World -> Prop) (c : Call)
    (op : World -> Refusal (A * World)) :
  of_store I -> keeps db op -> keeps transaction op -> inv I (call c op).
Proof.
  intros HI Hdb Htx w Hw. unfold call, record.
  destruct (hd None (faults w)) as [e |].
  - apply (HI w); [reflexivity | reflexivity | exact Hw].
  - destruct (op (set_faults (tl (faults w)) w)) as [[a w2] | e] eqn:Eop.
    + apply (HI w); [| | exact Hw].
      * cbn [db set_trace]. exact (Hdb _ _ _ Eop).
      * cbn [transaction set_trace]. exact (Htx _ _ _ Eop).
    + apply (HI w); [reflexivity | reflexivity | exact Hw].
Qed.

Lemma inv_invoke_store {A : Type} (I : World -> Prop) (op : World -> Refusal (A * World)) :
  of_store I -> keeps db op -> keeps transaction op -> inv I (invoke op).
Proof.
  intros HI Hdb Htx w Hw. unfold invoke.
  destruct (hd None (faults w)) as [e |].
  - apply (HI w); [reflexivity | reflexivity | exact Hw].
  - destruct (op (set_faults (tl (faults w)) w)) as [[a w2] | e] eqn:Eop.
    + apply (HI w); [| | exact Hw].
      * exact (Hdb _ _ _ Eop).
      * exact (Htx _ _ _ Eop).
    + apply (HI w); [reflexivity | reflexivity | exact Hw].
Qed.

Lemma of_transaction_store (I : World -> Prop) : of_transaction I -> of_store I.
Proof. intros H w w' _ Htx. exact (H w w' Htx). Qed.

Lemma inv_call_transaction {A : Type} (I : World -> Prop) (c : Call)
    (op : World -> Refusal (A * World)) :
  of_transaction I -> keeps transaction op -> inv I (call c op).
Proof.
  intros HI Htx w Hw. unfold call, record.
  destruct (hd None (faults w)) as [e |].
  - apply (HI w); [reflexivity | exact Hw].
  - destruct (op (set_faults (tl (faults w)) w)) as [[a w2] | e] eqn:Eop.
    + apply (HI w); [| exact Hw]. cbn [transaction set_trace]. exact (Htx _ _ _ Eop).
    + apply (HI w); [reflexivity | exact Hw].
Qed.

Lemma inv_invoke_transaction {A : Type} (I : World -> Prop)
    (op : World -> Refusal (A * World)) :
  of_transaction I -> keeps transaction op -> inv I (invoke op).
Proof.
  intros HI Htx w Hw. unfold invoke.
  destruct (hd None (faults w)) as [e |].
  - apply (HI w); [reflexivity | exact Hw].
  - destruct (op (set_faults (tl (faults w)) w)) as [[a w2] | e] eqn:Eop.
    + apply (HI w); [| exact Hw]. exact (Htx _ _ _ Eop).
    + apply (HI w); [reflexivity | exact Hw].
Qed.

Lemma inv_cout (I : World -> Prop) (o : Out) : of_store I -> inv I (cout o).
Proof.
  intros HI w Hw. unfold cout, modify.
  apply (HI w); [reflexivity | reflexivity | exact Hw].
Qed.

Lemma inv_for_each {A : Type} (I : World -> Prop) (l : list A) (body : A -> M unit) :
  (forall x, inv I (body x)) -> inv I (for_each l body).
Proof.
  intros Hbody. induction l as [| x l IH]; cbn [for_each].
  - apply inv_ret.
  - apply inv_bind; [apply Hbody | intros _; exact IH].
Qed.

Lemma of_store_untouched (t0 : BackupCatalog.Tables) : of_store (untouched t0).
Proof. intros w w' Hdb Htx [H1 H2]. unfold untouched. rewrite Hdb, Htx. split; assumption. Qed.

Lemma of_transaction_within (t0 : BackupCatalog.Tables) : of_transaction (within t0).
Proof. intros w w' Htx H. unfold within in *. rewrite Htx. exact H. Qed.

(** The three calls that begin and end a transaction never touch rows
    that were not touched before. *)
Lemma inv_untouched_start (t0 : BackupCatalog.Tables) :
  inv (untouched t0) catalog.startTransaction.
Proof.
  intros w [Hdb Htx]. open_world w. destruct Htx as [Htx | Htx]; subst tx;
    plan_cases2; unfold untouched; cbn [db transaction]; auto.
Qed.

Lemma inv_untouched_commit (t0 : BackupCatalog.Tables) :
  inv (untouched t0) catalog.commitTransaction.
Proof.
  intros w [Hdb Htx]. open_world w. destruct Htx as [Htx | Htx]; subst tx;
    plan_cases2; unfold untouched; cbn [db transaction]; auto.
Qed.

Lemma inv_untouched_rollback (t0 : BackupCatalog.Tables) :
  inv (untouched t0) catalog.rollbackTransaction.
Proof.
  intros w [Hdb Htx]. open_world w. destruct Htx as [Htx | Htx]; subst tx;
    exec2; unfold untouched; cbn [db transaction]; auto.
Qed.

(** A command that only reads: every step keeps the rows untouched. *)
Ltac reads :=
  repeat first
    [ apply inv_bind; [| intros ?]
    | apply inv_try_catch; [| intros ?]
    | apply inv_ret
    | apply inv_throw
    | apply inv_gets
    | apply inv_when
    | apply inv_for_each; intros ?
    | apply inv_untouched_start
    | apply inv_untouched_commit
    | apply inv_untouched_rollback
    | apply inv_cout; apply of_store_untouched
    | apply inv_call_store;
      [apply of_store_untouched
      | first [apply keeps_reading | apply keeps_pure
              | intros ? ? ? E; inversion E; subst; reflexivity]
      | first [apply keeps_on_db_transaction | apply keeps_pure
              | intros ? ? ? E; inversion E; subst; reflexivity]]
    | apply inv_invoke_store;
      [apply of_store_untouched
      | first [apply keeps_reading | apply keeps_pure]
      | first [apply keeps_on_db_transaction | apply keeps_pure]]
    | progress cbv zeta
    | match goal with
      | |- inv _ (if ?c then _ else _) => destruct c
      | |- inv _ (match ?c with _ => _ end) => destruct c
      end ].

Lemma untouched_of_idle (w : World) : idle w -> untouched (db w) w.
Proof. intros H. split; [reflexivity | left; exact H]. Qed.

(** ** Runs that may end with a bare [std::exception] *)

Lemma triple_of_hoare {A : Type} (P : World -> Prop) (m : M A) (Q : A -> World -> Prop)
    (E : Failure -> World -> Prop) (E' : Exception -> World -> Prop) :
  hoare P m Q E -> (forall e w, E e w -> E' (Derived e) w) -> triple P m Q E'.
Proof.
  intros Hm HE w Hw. specialize (Hm w Hw).
  destruct (m w) as [[a | [e |]] w']; [exact Hm | apply HE; exact Hm | contradiction].
Qed.

Lemma triple_of_inv {A : Type} (I : World -> Prop) (m : M A) :
  inv I m -> triple I m (fun _ => I) (fun _ => I).
Proof. intros Hm. apply (triple_of_hoare _ _ _ _ _ Hm). auto. Qed.

Lemma triple_bind {A B : Type} (P : World -> Prop) (m : M A) (k : A -> M B)
    (R : A -> World -> Prop) (Q : B -> World -> Prop) (E : Exception -> World -> Prop) :
  triple P m R E ->
  (forall a, triple (R a) (k a) Q E) ->
  triple P (bind m k) Q E.
Proof.
  intros Hm Hk w Hw. unfold bind. specialize (Hm w Hw).
  destruct (m w) as [[a | e] w']; [apply (Hk a w' Hm) | exact Hm].
Qed.

Lemma triple_throw {A : Type} (P : World -> Prop) (e : Exception) (Q : A -> World -> Prop) :
  triple P (throw e) Q (fun _ => P).
Proof. intros w Hw. exact Hw. Qed.

(** [try { body } catch (exception &e) { handler }] around a body that
    raises failures of the hierarchy. *)
Lemma triple_try_catch_exception {A : Type} (P : World -> Prop) (m : M A)
    (h : Exception -> M A) (R : Failure -> World -> Prop) (Q : A -> World -> Prop)
    (E : Exception -> World -> Prop) :
  hoare P m Q R ->
  (forall e : Failure, triple (R e) (h e) Q E) ->
  triple P (try_catch_exception m h) Q E.
Proof.
  intros Hm Hh w Hw. unfold try_catch_exception. specialize (Hm w Hw).
  destruct (m w) as [[a | [e |]] w']; [exact Hm | apply (Hh e w' Hm) | contradiction].
Qed.

Lemma read_only {A : Type} (m : M A) :
  (forall t0, triple (untouched t0) m (fun _ => untouched t0) (fun _ => untouched t0)) ->
  forall w, idle w -> db (after m w) = db w.
Proof.
  intros Hm w Hidle. pose proof (Hm (db w) w (untouched_of_idle w Hidle)) as H.
  unfold after. destruct (m w) as [[a | e] w']; cbn [snd]; exact (proj1 H).
Qed.

Lemma reads_list_connection (this : BaseCatalogCommand.t) (flag : bool)
    (t0 : BackupCatalog.Tables) :
  inv (untouched t0) (ListConnectionCatalogCommand.execute this flag).
Proof.
  unfold ListConnectionCatalogCommand.execute, ListConnectionCatalogCommand.item,
    ListConnectionCatalogCommand.line, open_unless_available,
    catalog.available, catalog.open_rw, catalog.existsByName,
    catalog_more.getCatalogConnection.
  reads.
Qed.

Lemma reads_list_backup_profile (this : BaseCatalogCommand.t) (extended : bool)
    (t0 : BackupCatalog.Tables) :
  triple (untouched t0) (ListBackupProfileCatalogCommand.execute this extended)
         (fun _ => untouched t0) (fun _ => untouched t0).
Proof.
  unfold ListBackupProfileCatalogCommand.execute.
  destruct (BaseCatalogCommand.has_catalog this); cbn [negb]; [| apply triple_throw].
  apply triple_bind with (R := fun _ => untouched t0).
  { apply triple_of_inv.
    unfold open_unless_available, catalog.available, catalog.open_rw. reads. }
  intros _. apply triple_try_catch_exception with (R := fun _ => untouched t0).
  - match goal with |- hoare ?P ?m _ _ => change (inv P m) end.
    unfold ListBackupProfileCatalogCommand.line, catalog.getBackupProfiles,
      catalog.getBackupProfile.
    reads.
  - intros e. apply triple_bind with (R := fun _ => untouched t0);
      [apply triple_of_inv, inv_untouched_rollback | intros _; apply triple_throw].
Qed.

Lemma reads_list_archive (this : ListArchiveCatalogCommand.t) (extendedOutput : bool)
    (t0 : BackupCatalog.Tables) :
  inv (untouched t0) (ListArchiveCatalogCommand.execute this extendedOutput).
Proof.
  unfold ListArchiveCatalogCommand.execute, ListArchiveCatalogCommand.row,
    ListArchiveCatalogCommand.detail, open_unless_available,
    catalog.available, catalog.open_rw, catalog.close, catalog.getArchiveList.
  reads.
Qed.

Lemma reads_verify_archive (this : BaseCatalogCommand.t) (missingOK : bool)
    (t0 : BackupCatalog.Tables) :
  inv (untouched t0) (VerifyArchiveCatalogCommand.execute this missingOK).
Proof.
  unfold VerifyArchiveCatalogCommand.execute, open_unless_available,
    catalog.available, catalog.open_rw, catalog.existsByName,
    CPGBackupCtlFS.getArchiveDirectoryDescr, CPGBackupCtlFS.verify.
  reads.
Qed.

Lemma reads_list_backup_catalog (fmt : StatCatalogArchive.t -> string)
    (this : BaseCatalogCommand.t) (flag : bool) (t0 : BackupCatalog.Tables) :
  inv (untouched t0) (ListBackupCatalogCommand.execute fmt this flag).
Proof.
  unfold ListBackupCatalogCommand.execute, open_unless_available,
    catalog.available, catalog.open_rw, catalog.existsByName, catalog_more.statCatalog.
  reads.
Qed.

(** ** The envelope of a command that writes *)

Lemma inv_resting_open (t0 : BackupCatalog.Tables) : inv (resting t0) open_unless_available.
Proof.
  intros w [Htx Hdb]. open_world w. destruct o; plan_cases2; split; reflexivity.
Qed.

Lemma start_resting (t0 : BackupCatalog.Tables) :
  hoare (resting t0) catalog.startTransaction (fun _ => within t0) (fun _ => resting t0).
Proof.
  intros w [Htx Hdb]. open_world w. plan_cases2;
    first [reflexivity | split; reflexivity].
Qed.

Lemma commit_within (t0 : BackupCatalog.Tables) :
  hoare (within t0) catalog.commitTransaction
        (fun _ w => transaction w = None) (fun _ => within t0).
Proof. intros w Htx. unfold within in Htx. open_world w. plan_cases2; reflexivity. Qed.

Lemma rollback_rethrow (t0 : BackupCatalog.Tables) (e : Failure) (Q : unit -> World -> Prop) :
  hoare (fun w => within t0 w \/ resting t0 w)
        (catalog.rollbackTransaction ;; throw (sliced e)) Q (fun _ => resting t0).
Proof.
  intros w [Htx | [Htx Hdb]]; unfold within in *; open_world w; exec2; split; reflexivity.
Qed.

(** [start; try { body } catch { rollback; throw }]: the transaction is
    started before the protected block. *)
Lemma envelope_outside (t0 : BackupCatalog.Tables) (body : M unit) :
  hoare (within t0) body (fun _ w => transaction w = None) (fun _ => within t0) ->
  hoare (resting t0)
        (open_unless_available ;;
         catalog.startTransaction ;;
         try_catch body (fun e => catalog.rollbackTransaction ;; throw (sliced e)))
        (fun _ w => transaction w = None) (fun _ => resting t0).
Proof.
  intros Hbody.
  apply hoare_bind with (R := fun _ => resting t0); [apply inv_resting_open | intros _].
  apply hoare_bind with (R := fun _ => within t0); [apply start_resting | intros _].
  apply hoare_try_catch with (R := fun _ => within t0); [exact Hbody | intros e].
  apply (hoare_weaken _ _ _ _ _ _ _
           (rollback_rethrow t0 e (fun _ w => transaction w = None))); auto.
Qed.

(** [try { start; body } catch { rollback; throw }]: the transaction is
    started inside the protected block. *)
Lemma envelope_inside (t0 : BackupCatalog.Tables) (body : M unit) :
  hoare (within t0) body (fun _ w => transaction w = None) (fun _ => within t0) ->
  hoare (resting t0)
        (open_unless_available ;;
         try_catch (catalog.startTransaction ;; body)
                   (fun e => catalog.rollbackTransaction ;; throw (sliced e)))
        (fun _ w => transaction w = None) (fun _ => resting t0).
Proof.
  intros Hbody.
  apply hoare_bind with (R := fun _ => resting t0); [apply inv_resting_open | intros _].
  apply hoare_try_catch with (R := fun _ w => within t0 w \/ resting t0 w).
  - apply hoare_bind with (R := fun _ => within t0).
    + apply (hoare_weaken _ _ _ _ _ _ _ (start_resting t0)); auto.
    + intros _. apply (hoare_weaken _ _ _ _ _ _ _ Hbody); auto.
  - intros e. apply rollback_rethrow.
Qed.

Lemma hoare_throw {A : Type} (P : World -> Prop) (e : Failure) (Q : A -> World -> Prop) :
  hoare P (throw e) Q (fun _ => P).
Proof. intros w Hw. exact Hw. Qed.

(** The steps of a protected block up to its commit keep the transaction
    in progress. *)
Ltac stays_within :=
  repeat first
    [ apply inv_bind; [| intros ?]
    | apply inv_ret
    | apply inv_throw
    | apply inv_gets
    | apply inv_when
    | apply inv_call_transaction;
      [apply of_transaction_within
      | first [apply keeps_on_db_transaction | apply keeps_on_db_checked_transaction
              | apply keeps_pure]]
    | apply inv_invoke_transaction;
      [apply of_transaction_within
      | first [apply keeps_on_db_transaction | apply keeps_on_db_checked_transaction
              | apply keeps_pure]]
    | progress cbv zeta
    | match goal with
      | |- inv _ (if ?c then _ else _) => destruct c
      | |- hoare _ (if ?c then _ else _) _ _ => destruct c
      end ].

Ltac commits t0 :=
  cbv zeta;
  repeat first
    [ apply commit_within
    | apply hoare_bind with (R := fun _ => within t0);
      [match goal with |- hoare ?P ?m _ _ => change (inv P m) end; stays_within
      | intros ?]; cbv zeta ].

Lemma atomic_create_connection (this : BaseCatalogCommand.t) (flag : bool)
    (t0 : BackupCatalog.Tables) :
  hoare (resting t0) (CreateConnectionCatalogCommand.execute this flag)
        (fun _ w => transaction w = None) (fun _ => resting t0).
Proof.
  unfold CreateConnectionCatalogCommand.execute.
  destruct (BaseCatalogCommand.has_catalog this); cbn [negb]; [| apply hoare_throw].
  apply envelope_outside.
  unfold catalog.existsByName, catalog.getCatalogConnection, catalog.createCatalogConnection.
  commits t0.
Qed.

Lemma atomic_create_backup_profile (this : CreateBackupProfileCatalogCommand.t)
    (existsOk : bool) (t0 : BackupCatalog.Tables) :
  hoare (resting t0) (CreateBackupProfileCatalogCommand.execute this existsOk)
        (fun _ w => transaction w = None) (fun _ => resting t0).
Proof.
  unfold CreateBackupProfileCatalogCommand.execute.
  destruct (BaseCatalogCommand.has_catalog (CreateBackupProfileCatalogCommand.base this));
    cbn [negb]; [| apply hoare_throw].
  apply envelope_inside.
  unfold catalog.getBackupProfile, catalog.createBackupProfile.
  commits t0.
Qed.

Lemma atomic_drop_archive (this : BaseCatalogCommand.t) (existsOk : bool)
    (t0 : BackupCatalog.Tables) :
  hoare (resting t0) (DropArchiveCatalogCommand.execute this existsOk)
        (fun _ w => transaction w = None) (fun _ => resting t0).
Proof.
  unfold DropArchiveCatalogCommand.execute.
  destruct (BaseCatalogCommand.has_catalog this); cbn [negb]; [| apply hoare_throw].
  apply envelope_outside.
  unfold catalog.existsByName, catalog.dropArchive.
  commits t0.
Qed.

Lemma atomic_alter_archive (this : BaseCatalogCommand.t) (ignoreMissing : bool)
    (t0 : BackupCatalog.Tables) :
  hoare (resting t0) (AlterArchiveCatalogCommand.execute this ignoreMissing)
        (fun _ w => transaction w = None) (fun _ => resting t0).
Proof.
  unfold AlterArchiveCatalogCommand.execute.
  destruct (BaseCatalogCommand.has_catalog this); cbn [negb]; [| apply hoare_throw].
  apply envelope_outside.
  unfold catalog.existsByName, catalog.updateArchiveAttributes.
  commits t0.
Qed.

(** drop-backup-profile: the same envelope, with a handler for
    [exception&]. *)
Lemma atomic_drop_backup_profile (this : BaseCatalogCommand.t) (extended : bool)
    (t0 : BackupCatalog.Tables) :
  triple (resting t0) (DropBackupProfileCatalogCommand.execute this extended)
         (fun _ w => transaction w = None) (fun _ => resting t0).
Proof.
  unfold DropBackupProfileCatalogCommand.execute.
  destruct (BaseCatalogCommand.has_catalog this); cbn [negb]; [| apply triple_throw].
  apply triple_bind with (R := fun _ => resting t0);
    [apply triple_of_inv, inv_resting_open | intros _].
  apply triple_try_catch_exception with (R := fun _ w => within t0 w \/ resting t0 w).
  - apply hoare_bind with (R := fun _ => within t0).
    + apply (hoare_weaken _ _ _ _ _ _ _ (start_resting t0)); auto.
    + intros _.
      apply hoare_weaken with (P' := within t0) (Q' := fun _ w => transaction w = None)
                              (E' := fun _ => within t0); auto.
      unfold catalog.getBackupProfile, catalog_more.dropBackupProfile.
      commits t0.
  - intros e w [Htx | [Htx Hdb]]; unfold within in *; open_world w; exec2;
      split; reflexivity.
Qed.

(** What the envelope gives for a run that starts with no transaction in
    progress. *)
Lemma all_or_nothing {A : Type} (m : M A) (w : World) :
  (forall t0, triple (resting t0) m (fun _ w => transaction w = None) (fun _ => resting t0)) ->
  idle w ->
  transaction (after m w) = None
  /\ (forall e, result m w = Throw e -> db (after m w) = db w).
Proof.
  intros Hm Hidle. pose proof (Hm (db w) w (conj Hidle eq_refl)) as H.
  unfold after, result. destruct (m w) as [[a | e] w']; cbn [fst snd].
  - split; [exact H | intros e E; discriminate E].
  - destruct H as [Htx Hdb]. split; [exact Htx | intros _ _; exact Hdb].
Qed.

(** ** Commands that only read *)

(** X4.  list-connection, list-backup-profile, list-archive,
    verify-archive and list-backup-catalog never change the rows of the
    catalog: started with no transaction in progress, each leaves the rows
    as they were, whichever of its calls fail and whether it returns or
    raises. *)
Theorem listing_commands_never_write :
  forall (this : BaseCatalogCommand.t) (lister : ListArchiveCatalogCommand.t)
         (gimmeFormattedString : StatCatalogArchive.t -> string)
         (flag : bool) (w : World),
    idle w ->
    db (after (ListConnectionCatalogCommand.execute this flag) w) = db w
    /\ db (after (ListBackupProfileCatalogCommand.execute this flag) w) = db w
    /\ db (after (ListArchiveCatalogCommand.execute lister flag) w) = db w
    /\ db (after (VerifyArchiveCatalogCommand.execute this flag) w) = db w
    /\ db (after (ListBackupCatalogCommand.execute gimmeFormattedString this flag) w)
       = db w.
Proof.
  intros this lister fmt flag w Hidle.
  split; [| split; [| split; [| split]]]; apply read_only; try exact Hidle; intros t0.
  - apply triple_of_inv, reads_list_connection.
  - apply reads_list_backup_profile.
  - apply triple_of_inv, reads_list_archive.
  - apply triple_of_inv, reads_verify_archive.
  - apply triple_of_inv, reads_list_backup_catalog.
Qed.

Lemma listing_commands_never_write_witness :
  idle (world_of Sample.tables [None; None; Some Sample.catalog_failure])
  /\ db (after (ListConnectionCatalogCommand.execute (Sample.command LIST_CONNECTION "a") false)
               (world_of Sample.tables [None; None; Some Sample.catalog_failure]))
     = Sample.tables.
Proof.
  split; [reflexivity |].
  exact (proj1 (listing_commands_never_write
                  (Sample.command LIST_CONNECTION "a") Sample.list_archives
                  StatCatalogArchive.archive_name false
                  (world_of Sample.tables [None; None; Some Sample.catalog_failure])
                  eq_refl)).
Defined.

(** ** Commands that write *)

(** X5.  create-connection, create-backup-profile, drop-archive,
    alter-archive and drop-backup-profile are all or nothing.  Started
    with no transaction in progress, each ends with no transaction in
    progress, whichever of its calls fail; and when it raises, the rows of
    the catalog are those it started with. *)
Theorem writing_commands_all_or_nothing :
  forall (this : BaseCatalogCommand.t) (profile : CreateBackupProfileCatalogCommand.t)
         (flag : bool) (w : World),
    idle w ->
    let create_connection := CreateConnectionCatalogCommand.execute this flag in
    let create_profile := CreateBackupProfileCatalogCommand.execute profile flag in
    let drop_archive := DropArchiveCatalogCommand.execute this flag in
    let alter_archive := AlterArchiveCatalogCommand.execute this flag in
    let drop_profile := DropBackupProfileCatalogCommand.execute this flag in
    (transaction (after create_connection w) = None
     /\ forall e, result create_connection w = Throw e -> db (after create_connection w) = db w)
    /\ (transaction (after create_profile w) = None
        /\ forall e, result create_profile w = Throw e -> db (after create_profile w) = db w)
    /\ (transaction (after drop_archive w) = None
        /\ forall e, result drop_archive w = Throw e -> db (after drop_archive w) = db w)
    /\ (transaction (after alter_archive w) = None
        /\ forall e, result alter_archive w = Throw e -> db (after alter_archive w) = db w)
    /\ (transaction (after drop_profile w) = None
        /\ forall e, result drop_profile w = Throw e -> db (after drop_profile w) = db w).
Proof.
  intros this profile flag w Hidle. cbv zeta.
  split; [| split; [| split; [| split]]]; apply all_or_nothing; try exact Hidle; intros t0.
  - apply (triple_of_hoare _ _ _ _ _ (atomic_create_connection this flag t0)); auto.
  - apply (triple_of_hoare _ _ _ _ _ (atomic_create_backup_profile profile flag t0)); auto.
  - apply (triple_of_hoare _ _ _ _ _ (atomic_drop_archive this flag t0)); auto.
  - apply (triple_of_hoare _ _ _ _ _ (atomic_alter_archive this flag t0)); auto.
  - apply atomic_drop_backup_profile.
Qed.

Lemma writing_commands_all_or_nothing_witness :
  let w := world_of Sample.tables [None; None; None; Some Sample.catalog_failure] in
  let run := DropArchiveCatalogCommand.execute (Sample.command DROP_ARCHIVE "a") false in
  idle w
  /\ result run w = Throw (sliced Sample.catalog_failure)
  /\ db (after run w) = Sample.tables.
Proof.
  cbv zeta. split; [reflexivity |]. split; [reflexivity |].
  destruct (writing_commands_all_or_nothing
              (Sample.command DROP_ARCHIVE "a") (Sample.create_profile "p" BACKUP_COMPRESS_TYPE_GZIP)
              false
              (world_of Sample.tables [None; None; None; Some Sample.catalog_failure])
              eq_refl) as (_ & _ & (_ & H) & _ & _).
  exact (H (Derived (sliced Sample.catalog_failure)) eq_refl).
Defined.

(** ** alter-archive *)

(** X6.  alter-archive resolves the archive by name.  A missing archive
    makes it raise "could not alter archive ... does not exists" and roll
    back, unless ignoreMissing is set: then it commits without an update.
    For an archive the catalog knows, the update is issued for the id the
    lookup returned, whatever id the command's descriptor carried, with
    the descriptor's affected attributes.  If the store accepts the update
    (it moves no archive to another directory and takes no name another
    archive has), the command commits: only the row with that id can
    change, no row is added or removed, and the other tables stay as they
    are.  If the store refuses it, the command rolls back and raises the
    copy its handler throws of the store's failure; the rows are as they
    were. *)
Theorem alter_archive_contract :
  forall (this : BaseCatalogCommand.t) (ignoreMissing : bool) (w : World),
    BaseCatalogCommand.has_catalog this = true ->
    idle w ->
    quiet w ->
    let name := CatalogDescr.archive_name this in
    let attrs := CatalogDescr.affectedAttributes this in
    let run := AlterArchiveCatalogCommand.execute this ignoreMissing in
    let found := CatalogDescr.id (BackupCatalog.existsByName name (db w)) in
    (found < 0 -> ignoreMissing = false ->
       raised (result run w)
       = Some (cat ["could not alter archive: archive name "; dquote; name; dquote;
                    " does not exists"])
       /\ db (after run w) = db w
       /\ transaction (after run w) = None)
    /\ (found < 0 -> ignoreMissing = true ->
        result run w = Ok tt
        /\ db (after run w) = db w
        /\ trace (after run w)
           = trace w ++ opening w
             ++ [mkEntry c_startTransaction false Done;
                 mkEntry (c_existsByName name) true Done;
                 mkEntry c_commitTransaction true Done])
    /\ (0 <= found ->
        BackupCatalog.moves_archive (CatalogDescr.set_id found this) attrs (db w) = false ->
        BackupCatalog.takes_name (CatalogDescr.set_id found this) attrs (db w) = false ->
        result run w = Ok tt
        /\ db (after run w)
           = BackupCatalog.set_archive
               (map (BackupCatalog.update_row (CatalogDescr.set_id found this) attrs)
                    (BackupCatalog.archive (db w)))
               (db w)
        /\ map BackupCatalog.arch_id (BackupCatalog.archive (db (after run w)))
           = map BackupCatalog.arch_id (BackupCatalog.archive (db w))
        /\ (forall r, In r (BackupCatalog.archive (db w)) ->
                      BackupCatalog.arch_id r <> found ->
                      In r (BackupCatalog.archive (db (after run w))))
        /\ transaction (after run w) = None)
    /\ (0 <= found ->
        BackupCatalog.moves_archive (CatalogDescr.set_id found this) attrs (db w)
        || BackupCatalog.takes_name (CatalogDescr.set_id found this) attrs (db w) = true ->
        exists e : Failure,
          BackupCatalog.updateArchiveAttributes (CatalogDescr.set_id found this) attrs (db w)
          = Throw e
          /\ result run w = Throw (sliced e)
          /\ db (after run w) = db w
          /\ transaction (after run w) = None).
Proof.
  intros this ignoreMissing w Hcat Hidle Hquiet name attrs run found.
  subst run found attrs name. open_world w.
  split; [| split; [| split]].
  - intros Hmiss Hflag. subst ignoreMissing. exec2. rewrite Hcat. exec2.
    destruct o; exec2; rewrite (leb_false _ _ Hmiss); exec2;
      repeat split; reflexivity.
  - intros Hmiss Hflag. subst ignoreMissing. exec2. rewrite Hcat. exec2.
    destruct o; exec2; rewrite (leb_false _ _ Hmiss); exec2; flat;
      repeat split; reflexivity.
  - intros Hfound Hmoves Htakes.
    assert (Hids : forall descr l,
               map BackupCatalog.arch_id (map (BackupCatalog.update_row descr
                                                 (CatalogDescr.affectedAttributes this)) l)
               = map BackupCatalog.arch_id l).
    { intros descr l. rewrite map_map. apply map_ext. intros r. apply update_row_id. }
    assert (Hother : forall l r,
               In r l ->
               BackupCatalog.arch_id r
               <> CatalogDescr.id (BackupCatalog.existsByName (CatalogDescr.archive_name this) t) ->
               In r (map (BackupCatalog.update_row
                            (CatalogDescr.set_id
                               (CatalogDescr.id
                                  (BackupCatalog.existsByName (CatalogDescr.archive_name this) t))
                               this)
                            (CatalogDescr.affectedAttributes this)) l)).
    { intros l r Hin Hne. apply in_map_iff. exists r. split; [| exact Hin].
      unfold BackupCatalog.update_row. tidy.
      destruct (Z.eqb_spec (BackupCatalog.arch_id r)
                  (CatalogDescr.id
                     (BackupCatalog.existsByName (CatalogDescr.archive_name this) t)));
        [contradiction | reflexivity]. }
    exec2. rewrite Hcat. exec2.
    destruct o; exec2; rewrite (leb_true _ _ Hfound); exec2; tidy;
      unfold BackupCatalog.updateArchiveAttributes; rewrite Hmoves, Htakes; exec2; rows;
      (split; [reflexivity |]); (split; [reflexivity |]);
      (split; [apply Hids |]); (split; [apply Hother | reflexivity]).
  - intros Hfound Hwhy.
    assert (Hrefused : exists e : Failure,
               BackupCatalog.updateArchiveAttributes
                 (CatalogDescr.set_id
                    (CatalogDescr.id
                       (BackupCatalog.existsByName (CatalogDescr.archive_name this) t))
                    this)
                 (CatalogDescr.affectedAttributes this) t = Throw e).
    { revert Hwhy. unfold BackupCatalog.updateArchiveAttributes.
      destruct (BackupCatalog.moves_archive _ _ _); [intros _; eexists; reflexivity |].
      destruct (BackupCatalog.takes_name _ _ _); [intros _; eexists; reflexivity |].
      intros C; discriminate C. }
    destruct Hrefused as [e Hrefused]. exists e. split; [exact Hrefused |].
    exec2. rewrite Hcat. exec2.
    destruct o; exec2; rewrite (leb_true _ _ Hfound); exec2; tidy;
      rewrite Hrefused; exec2; repeat split; reflexivity.
Qed.

Lemma alter_archive_contract_witness :
  let w := world_of Sample.tables [] in
  let found := CatalogDescr.id (BackupCatalog.existsByName "a" (db w)) in
  BaseCatalogCommand.has_catalog Fixture.move_command = true
  /\ idle w
  /\ quiet w
  /\ 0 <= found
  /\ BackupCatalog.moves_archive (CatalogDescr.set_id found Fixture.move_command)
                                 [SQL_ARCHIVE_DIRECTORY_ATTNO] (db w) = true
  /\ (exists e : Failure,
        result (AlterArchiveCatalogCommand.execute Fixture.move_command false) w
        = Throw (sliced e))
  /\ db (after (AlterArchiveCatalogCommand.execute Fixture.move_command false) w)
     = Sample.tables.
Proof.
  cbv zeta.
  assert (H : 0 <= CatalogDescr.id (BackupCatalog.existsByName "a" Sample.tables))
    by (vm_compute; discriminate).
  split; [reflexivity |]. split; [reflexivity |]. split; [reflexivity |].
  split; [exact H |]. split; [reflexivity |].
  destruct (alter_archive_contract Fixture.move_command false
              (world_of Sample.tables []) eq_refl eq_refl eq_refl) as (_ & _ & _ & Hrefused).
  destruct (Hrefused H eq_refl) as (e & _ & Hres & Hdb & _).
  split; [exists e; exact Hres | exact Hdb].
Defined.

(** ** drop-connection *)

Lemma find_archive_id_named (name : string) (t : BackupCatalog.Tables)
    (r : BackupCatalog.ArchiveRow) :
  find (BackupCatalog.has_name name) (BackupCatalog.archive t) = Some r ->
  BackupCatalog.mem (BackupCatalog.arch_id r) (BackupCatalog.archive_ids_named name t) = true.
Proof.
  intros H. apply find_some in H. destruct H as [Hin Hname].
  unfold BackupCatalog.mem, BackupCatalog.archive_ids_named.
  apply existsb_exists. exists (BackupCatalog.arch_id r). split; [| apply Z.eqb_refl].
  apply in_map. apply filter_In. split; assumption.
Qed.

(** The archive a lookup by name returns owns its name. *)
Lemma existsByName_owner (name : string) (t : BackupCatalog.Tables) :
  0 <= CatalogDescr.id (BackupCatalog.existsByName name t) ->
  BackupCatalog.mem (CatalogDescr.id (BackupCatalog.existsByName name t))
                    (BackupCatalog.archive_ids_named name t) = true.
Proof.
  unfold BackupCatalog.existsByName.
  destruct (find (BackupCatalog.has_name name) (BackupCatalog.archive t)) as [r |] eqn:E.
  - intros _. exact (find_archive_id_named name t r E).
  - cbn. lia.
Qed.

Lemma filter_filter_none {A : Type} (f g : A -> bool) (l : list A) :
  (forall x, f x = true -> g x = false) -> filter f (filter g l) = [].
Proof.
  intros H. induction l as [| x l IH]; cbn [filter]; [reflexivity |].
  destruct (g x) eqn:Eg; [| exact IH].
  cbn [filter]. destruct (f x) eqn:Ef; [| exact IH].
  rewrite (H x Ef) in Eg. discriminate Eg.
Qed.

Lemma filter_filter_all {A : Type} (f g : A -> bool) (l : list A) :
  (forall x, f x = true -> g x = true) -> filter f (filter g l) = filter f l.
Proof.
  intros H. induction l as [| x l IH]; cbn [filter]; [reflexivity |].
  destruct (g x) eqn:Eg; cbn [filter].
  - destruct (f x); [f_equal |]; exact IH.
  - destruct (f x) eqn:Ef; [| exact IH].
    rewrite (H x Ef) in Eg. discriminate Eg.
Qed.

(** What is left of the connections when those of a type are dropped for
    an archive name. *)
Lemma drop_connection_counts (name type : string) (t : BackupCatalog.Tables) :
  (forall archive_id,
      BackupCatalog.mem archive_id (BackupCatalog.archive_ids_named name t) = true ->
      connection_count archive_id type
        (BackupCatalogMore.dropCatalogConnection name type t) = 0%nat)
  /\ (forall archive_id type',
         type' <> type ->
         connection_count archive_id type'
           (BackupCatalogMore.dropCatalogConnection name type t)
         = connection_count archive_id type' t).
Proof.
  unfold connection_count, BackupCatalogMore.dropCatalogConnection. rows. split.
  - intros archive_id Hown. rewrite filter_filter_none; [reflexivity |].
    intros c Hc. unfold BackupCatalog.con_key in Hc.
    apply andb_true_iff in Hc. destruct Hc as [Hid Hty].
    apply Z.eqb_eq in Hid. rewrite Hid, Hown, Hty. reflexivity.
  - intros archive_id type' Hne. rewrite filter_filter_all; [reflexivity |].
    intros c Hc. unfold BackupCatalog.con_key in Hc.
    apply andb_true_iff in Hc. destruct Hc as [_ Hty].
    apply String.eqb_eq in Hty. rewrite Hty.
    destruct (String.eqb_spec type' type); [contradiction |].
    rewrite andb_false_r. reflexivity.
Qed.

(** X7.  drop-connection resolves the archive by name and the connection
    by its type.  If the archive is missing, or if it has no connection
    of the type, the command raises the failure that says so, rolls back
    and leaves the rows as they are.  Otherwise the connections of that
    type are dropped for the archive name and nothing else is: the archive
    has no connection of the type any more, and the number of connections
    of every other type is what it was, for every archive. *)
Theorem drop_connection_contract :
  forall (this : BaseCatalogCommand.t) (flag : bool) (w : World),
    BaseCatalogCommand.has_catalog this = true ->
    idle w ->
    quiet w ->
    let name := CatalogDescr.archive_name this in
    let type := ConnectionDescr.type (CatalogDescr.coninfo this) in
    let run := DropConnectionCatalogCommand.execute this flag in
    let found := CatalogDescr.id (BackupCatalog.existsByName name (db w)) in
    let present := existsb (BackupCatalog.con_key found type)
                           (BackupCatalog.connections (db w)) in
    (found < 0 ->
       raised (result run w) = Some (cat ["archive "; dquote; name; dquote; " does not exist"])
       /\ db (after run w) = db w
       /\ transaction (after run w) = None)
    /\ (0 <= found -> present = false ->
        raised (result run w)
        = Some (cat ["archive "; dquote; name; dquote;
                     " does not have a connection of type "; dquote; type; dquote])
        /\ db (after run w) = db w
        /\ transaction (after run w) = None)
    /\ (0 <= found -> present = true ->
        result run w = Ok tt
        /\ db (after run w) = BackupCatalogMore.dropCatalogConnection name type (db w)
        /\ connection_count found type (db (after run w)) = 0%nat
        /\ (forall archive_id type',
               type' <> type ->
               connection_count archive_id type' (db (after run w))
               = connection_count archive_id type' (db w))
        /\ transaction (after run w) = None).
Proof.
  intros this flag w Hcat Hidle Hquiet name type run found present.
  subst run present found type name. open_world w.
  split; [| split].
  - intros Hmiss. exec2. rewrite Hcat. exec2.
    destruct o; exec2; rewrite (leb_false _ _ Hmiss); exec2; repeat split; reflexivity.
  - intros Hfound Habsent. exec2. rewrite Hcat. exec2.
    destruct o; exec2; rewrite (leb_true _ _ Hfound); exec2; tidy;
      unfold BackupCatalog.getCatalogConnection;
      rewrite (existsb_false_find _ _ Habsent); tidy;
      change (-1 <? 0) with true; exec2; repeat split; reflexivity.
  - intros Hfound Hpresent.
    destruct (existsb_true_find _ _ Hpresent) as (row & Hrow & _).
    destruct (con_key_find _ _ _ _ Hrow) as [Hrid Hrty].
    pose proof (drop_connection_counts (CatalogDescr.archive_name this)
                  (ConnectionDescr.type (CatalogDescr.coninfo this)) t) as [Hzero Hsame].
    pose proof (existsByName_owner _ _ Hfound) as Hown.
    assert (Htype : ConnectionDescr.type
                      (BackupCatalog.fill row
                         (ConnectionDescr.pushAffectedAttribute SQL_CON_ARCHIVE_ID_ATTNO
                            (ConnectionDescr.set_archive_id
                               (CatalogDescr.id
                                  (BackupCatalog.existsByName
                                     (CatalogDescr.archive_name this) t))
                               (CatalogDescr.coninfo this))))
                    = ConnectionDescr.type (CatalogDescr.coninfo this)).
    { unfold BackupCatalog.fill. cbv zeta. tidy.
      destruct (affected SQL_CON_TYPE_ATTNO _); [exact Hrty | reflexivity]. }
    assert (Hid : ConnectionDescr.archive_id
                    (BackupCatalog.fill row
                       (ConnectionDescr.pushAffectedAttribute SQL_CON_ARCHIVE_ID_ATTNO
                          (ConnectionDescr.set_archive_id
                             (CatalogDescr.id
                                (BackupCatalog.existsByName
                                   (CatalogDescr.archive_name this) t))
                             (CatalogDescr.coninfo this))))
                  = CatalogDescr.id
                      (BackupCatalog.existsByName (CatalogDescr.archive_name this) t)).
    { unfold BackupCatalog.fill. cbv zeta. tidy.
      destruct (affected SQL_CON_ARCHIVE_ID_ATTNO _); [exact Hrid | reflexivity]. }
    exec2. rewrite Hcat. exec2.
    destruct o; exec2; rewrite (leb_true _ _ Hfound); exec2; tidy;
      unfold BackupCatalog.getCatalogConnection; rewrite Hrow;
      rewrite Hid, Htype; rewrite (ltb_false _ _ Hfound); exec2;
      (split; [reflexivity |]); (split; [reflexivity |]);
      (split; [apply Hzero; exact Hown |]); (split; [exact Hsame | reflexivity]).
Qed.

Lemma drop_connection_contract_witness :
  let cmd := Fixture.connection_command DROP_CONNECTION "a"
               ConnectionDescr.CONNECTION_TYPE_STREAMER in
  let w := world_of Fixture.two_connections [] in
  BaseCatalogCommand.has_catalog cmd = true
  /\ idle w
  /\ quiet w
  /\ 0 <= CatalogDescr.id (BackupCatalog.existsByName "a" (db w))
  /\ BackupCatalog.connections (db (after (DropConnectionCatalogCommand.execute cmd false) w))
     = [Sample.connection_a].
Proof.
  cbv zeta.
  assert (H : 0 <= CatalogDescr.id (BackupCatalog.existsByName "a" Fixture.two_connections))
    by (vm_compute; discriminate).
  split; [reflexivity |]. split; [reflexivity |]. split; [reflexivity |].
  split; [exact H |].
  destruct (drop_connection_contract
              (Fixture.connection_command DROP_CONNECTION "a"
                 ConnectionDescr.CONNECTION_TYPE_STREAMER)
              false (world_of Fixture.two_connections []) eq_refl eq_refl eq_refl)
    as (_ & _ & Hdrop).
  destruct (Hdrop H eq_refl) as (_ & Hdb & _).
  rewrite Hdb. reflexivity.
Defined.

(** ** list-connection *)

Lemma insert_by_type_permutation (c : ConnectionDescr.t) (l : list ConnectionDescr.t) :
  Permutation (BackupCatalogMore.insert_by_type c l) (c :: l).
Proof.
  induction l as [| x l IH]; cbn [BackupCatalogMore.insert_by_type]; [reflexivity |].
  destruct (String.leb (ConnectionDescr.type c) (ConnectionDescr.type x)); [reflexivity |].
  rewrite IH. apply perm_swap.
Qed.

Lemma order_by_type_permutation (l : list ConnectionDescr.t) :
  Permutation (BackupCatalogMore.order_by_type l) l.
Proof.
  unfold BackupCatalogMore.order_by_type.
  induction l as [| x l IH]; cbn [fold_right]; [reflexivity |].
  rewrite insert_by_type_permutation. apply perm_skip. exact IH.
Qed.

Lemma insert_by_type_sorted (c : ConnectionDescr.t) (l : list ConnectionDescr.t) :
  Sorted by_type l -> Sorted by_type (BackupCatalogMore.insert_by_type c l).
Proof.
  induction l as [| x l IH]; cbn [BackupCatalogMore.insert_by_type]; intros Hs.
  - constructor; constructor.
  - destruct (String.leb (ConnectionDescr.type c) (ConnectionDescr.type x)) eqn:E.
    + constructor; [exact Hs | constructor; exact E].
    + assert (Hxc : by_type x c).
      { unfold by_type.
        destruct (String.leb_total (ConnectionDescr.type c) (ConnectionDescr.type x))
          as [H | H]; [congruence | exact H]. }
      inversion Hs as [| ? ? Hrest Hhd]; subst.
      constructor; [apply IH; exact Hrest |].
      destruct l as [| y l]; cbn [BackupCatalogMore.insert_by_type].
      * constructor. exact Hxc.
      * destruct (String.leb (ConnectionDescr.type c) (ConnectionDescr.type y));
          constructor; [exact Hxc |].
        inversion Hhd; subst. assumption.
Qed.

Lemma order_by_type_sorted (l : list ConnectionDescr.t) :
  Sorted by_type (BackupCatalogMore.order_by_type l).
Proof.
  unfold BackupCatalogMore.order_by_type.
  induction l as [| x l IH]; cbn [fold_right]; [constructor |].
  apply insert_by_type_sorted. exact IH.
Qed.

Lemma for_each_item (l : list ConnectionDescr.t) (w : World) :
  for_each l ListConnectionCatalogCommand.item w
  = (Ok tt, set_terminal (terminal w ++ flat_map connection_block l) w).
Proof.
  revert w. induction l as [| con l IH]; intros w; cbn [for_each flat_map].
  - rewrite app_nil_r. destruct w; reflexivity.
  - unfold bind at 1.
    assert (E : ListConnectionCatalogCommand.item con w
                = (Ok tt, set_terminal (terminal w ++ connection_block con) w)).
    { unfold ListConnectionCatalogCommand.item, ListConnectionCatalogCommand.line,
        connection_block. exec2. flat. destruct w; reflexivity. }
    rewrite E, IH. destruct w as [o t tx f tr term b reg txp].
    cbn [set_terminal terminal]. rewrite <- app_assoc. reflexivity.
Qed.

(** X8.  list-connection resolves the archive by name.  For a missing
    archive it raises "archive ... does not exist", rolls back and prints
    nothing.  For an archive the catalog knows it prints the caption and
    then, for every connection of the archive and for no other
    connection, the item header and the lines DSN, PGHOST, PGDATABASE,
    PGUSER and PGPORT, the connections in the order of their type; then
    it commits. *)
Theorem list_connection_contract :
  forall (this : BaseCatalogCommand.t) (flag : bool) (w : World),
    BaseCatalogCommand.has_catalog this = true ->
    idle w ->
    quiet w ->
    let name := CatalogDescr.archive_name this in
    let run := ListConnectionCatalogCommand.execute this flag in
    let found := CatalogDescr.id (BackupCatalog.existsByName name (db w)) in
    (found < 0 ->
       raised (result run w) = Some (cat ["archive "; dquote; name; dquote; " does not exist"])
       /\ terminal (after run w) = terminal w
       /\ transaction (after run w) = None)
    /\ (0 <= found ->
        exists listed : list ConnectionDescr.t,
          result run w = Ok tt
          /\ terminal (after run w)
             = terminal w
               ++ Cout (String.append
                          (cat ["List of connections for archive "; dquote; name; dquote])
                          endl)
                  :: flat_map connection_block listed
          /\ Permutation listed
               (filter (BackupCatalogMore.of_archive found)
                       (BackupCatalog.connections (db w)))
          /\ Sorted by_type listed
          /\ transaction (after run w) = None).
Proof.
  intros this flag w Hcat Hidle Hquiet name run found.
  subst run found name. open_world w.
  split.
  - intros Hmiss. exec2. rewrite Hcat. exec2.
    destruct o; exec2; rewrite (leb_false _ _ Hmiss); exec2; repeat split; reflexivity.
  - intros Hfound.
    exists (BackupCatalogMore.getCatalogConnection
              (CatalogDescr.id (BackupCatalog.existsByName (CatalogDescr.archive_name this) t))
              t).
    exec2. rewrite Hcat. exec2.
    destruct o; exec2; rewrite (leb_true _ _ Hfound); exec2;
      rewrite for_each_item; exec2; flat;
      (split; [reflexivity |]); (split; [reflexivity |]);
      (split; [apply order_by_type_permutation |]);
      (split; [apply order_by_type_sorted | reflexivity]).
Qed.

Lemma list_connection_contract_witness :
  let cmd := Sample.command LIST_CONNECTION "a" in
  let w := world_of Fixture.two_connections [] in
  BaseCatalogCommand.has_catalog cmd = true
  /\ idle w
  /\ quiet w
  /\ 0 <= CatalogDescr.id (BackupCatalog.existsByName "a" (db w))
  /\ List.length (terminal (after (ListConnectionCatalogCommand.execute cmd false) w))
     = 13%nat.
Proof.
  cbv zeta.
  assert (H : 0 <= CatalogDescr.id (BackupCatalog.existsByName "a" Fixture.two_connections))
    by (vm_compute; discriminate).
  split; [reflexivity |]. split; [reflexivity |]. split; [reflexivity |].
  split; [exact H |].
  destruct (list_connection_contract (Sample.command LIST_CONNECTION "a") false
              (world_of Fixture.two_connections []) eq_refl eq_refl eq_refl)
    as [_ Hlist].
  destruct (Hlist H) as (listed & _ & Hout & Hperm & _).
  rewrite Hout. cbn [terminal world_of app List.length].
  rewrite (flat_map_constant_length (c := 6%nat)) by (intros; reflexivity).
  rewrite (Permutation_length Hperm). reflexivity.
Defined.

(** ** drop-backup-profile *)

Lemma find_filter_negb {A : Type} (f : A -> bool) (l : list A) :
  find f (filter (fun x => negb (f x)) l) = None.
Proof.
  induction l as [| x l IH]; cbn [filter find]; [reflexivity |].
  destruct (f x) eqn:E; cbn [negb]; [exact IH |].
  cbn [find]. rewrite E. exact IH.
Qed.

(** X9.  drop-backup-profile looks the profile up by name.  If the lookup
    returns the sentinel, the command rolls back, leaves the rows as they
    are and raises; its handler catches [exception&] and throws a copy
    made from that type, so what the caller gets is a bare
    [std::exception], without the class and the message of the catalog
    issue.  Otherwise it drops the profile and commits: a
    lookup of the name then returns the sentinel with [profile_id = -1],
    every profile of another name is still there, and the other tables are
    as they were.  No name is exempt. *)
Theorem drop_backup_profile_contract :
  forall (this : BaseCatalogCommand.t) (extended : bool) (w : World),
    BaseCatalogCommand.has_catalog this = true ->
    idle w ->
    quiet w ->
    persisted (db w) ->
    let name := BackupProfileDescr.name (CatalogDescr.getBackupProfileDescr this) in
    let run := DropBackupProfileCatalogCommand.execute this extended in
    let known := existsb (BackupCatalog.profile_named name)
                         (BackupCatalog.backup_profiles (db w)) in
    (known = false ->
       result run w = Throw std_exception
       /\ db (after run w) = db w
       /\ transaction (after run w) = None)
    /\ (known = true ->
        result run w = Ok tt
        /\ db (after run w) = BackupCatalogMore.dropBackupProfile name (db w)
        /\ BackupProfileDescr.profile_id
             (BackupCatalog.getBackupProfile name (db (after run w))) = -1
        /\ (forall p, In p (BackupCatalog.backup_profiles (db w)) ->
                      BackupProfileDescr.name p <> name ->
                      In p (BackupCatalog.backup_profiles (db (after run w))))
        /\ BackupCatalog.archive (db (after run w)) = BackupCatalog.archive (db w)
        /\ BackupCatalog.connections (db (after run w)) = BackupCatalog.connections (db w)
        /\ BackupCatalog.backup (db (after run w)) = BackupCatalog.backup (db w)
        /\ transaction (after run w) = None).
Proof.
  intros this extended w Hcat Hidle Hquiet [_ Hids] name run known.
  subst run known name. open_world w.
  split.
  - intros Hunknown. exec2. rewrite Hcat. exec2.
    destruct o; exec2; tidy; unfold BackupCatalog.getBackupProfile;
      rewrite (existsb_false_find _ _ Hunknown); tidy;
      change (-1 <? 0) with true; exec2;
      (split; [reflexivity |]); split; reflexivity.
  - intros Hknown.
    destruct (existsb_true_find _ _ Hknown) as (p & Hp & Hin).
    assert (Hpid : 0 <= BackupProfileDescr.profile_id p).
    { rewrite Forall_forall in Hids. apply Hids. exact Hin. }
    assert (Hgone : BackupProfileDescr.profile_id
                      (BackupCatalog.getBackupProfile
                         (BackupProfileDescr.name (CatalogDescr.backup_profile this))
                         (BackupCatalogMore.dropBackupProfile
                            (BackupProfileDescr.name (CatalogDescr.backup_profile this)) t))
                    = -1).
    { unfold BackupCatalog.getBackupProfile, BackupCatalogMore.dropBackupProfile. rows.
      rewrite find_filter_negb. reflexivity. }
    assert (Hkept : forall q,
               In q (BackupCatalog.backup_profiles t) ->
               BackupProfileDescr.name q
               <> BackupProfileDescr.name (CatalogDescr.backup_profile this) ->
               In q (BackupCatalog.backup_profiles
                       (BackupCatalogMore.dropBackupProfile
                          (BackupProfileDescr.name (CatalogDescr.backup_profile this)) t))).
    { intros q Hq Hne. unfold BackupCatalogMore.dropBackupProfile. rows.
      apply filter_In. split; [exact Hq |].
      unfold BackupCatalog.profile_named.
      destruct (String.eqb_spec (BackupProfileDescr.name q)
                  (BackupProfileDescr.name (CatalogDescr.backup_profile this)));
        [contradiction | reflexivity]. }
    exec2. rewrite Hcat. exec2.
    destruct o; exec2; tidy; unfold BackupCatalog.getBackupProfile; rewrite Hp;
      rewrite (ltb_false _ _ Hpid); exec2;
      (split; [reflexivity |]); (split; [reflexivity |]);
      (split; [exact Hgone |]); (split; [exact Hkept |]);
      repeat split; reflexivity.
Qed.

Lemma drop_backup_profile_contract_witness :
  let cmd := Sample.profile_command DROP_BACKUP_PROFILE "default" in
  let w := world_of Sample.tables [] in
  BaseCatalogCommand.has_catalog cmd = true
  /\ idle w
  /\ quiet w
  /\ persisted (db w)
  /\ result (DropBackupProfileCatalogCommand.execute cmd false) w = Ok tt
  /\ BackupCatalog.backup_profiles
       (db (after (DropBackupProfileCatalogCommand.execute cmd false) w))
     = [Sample.rated_profile].
Proof.
  cbv zeta.
  split; [reflexivity |]. split; [reflexivity |]. split; [reflexivity |].
  split; [exact persisted_sample |].
  destruct (drop_backup_profile_contract (Sample.profile_command DROP_BACKUP_PROFILE "default")
              false (world_of Sample.tables []) eq_refl eq_refl eq_refl persisted_sample)
    as [_ Hknown].
  destruct (Hknown eq_refl) as (Hres & Hdb & _).
  split; [exact Hres |]. rewrite Hdb. reflexivity.
Defined.

(** ** list-backup-catalog *)

(** X10.  list-backup-catalog resolves the archive by name.  For a missing
    archive it raises "cannot stat catalog: archive... does not exist",
    rolls back and prints nothing.  For an archive the catalog knows it
    prints the formatted statistics of the archive, and nothing else, and
    commits. *)
Theorem list_backup_catalog_contract :
  forall (gimmeFormattedString : StatCatalogArchive.t -> string)
         (this : BaseCatalogCommand.t) (flag : bool) (w : World),
    BaseCatalogCommand.has_catalog this = true ->
    idle w ->
    quiet w ->
    let name := CatalogDescr.archive_name this in
    let run := ListBackupCatalogCommand.execute gimmeFormattedString this flag in
    let found := CatalogDescr.id (BackupCatalog.existsByName name (db w)) in
    (found < 0 ->
       raised (result run w)
       = Some (cat ["cannot stat catalog: archive"; dquote; name; dquote; " does not exist"])
       /\ terminal (after run w) = terminal w
       /\ transaction (after run w) = None)
    /\ (0 <= found ->
        result run w = Ok tt
        /\ terminal (after run w)
           = terminal w
             ++ [Cout (gimmeFormattedString (StatCatalogArchive.statCatalog name (db w)))]
        /\ StatCatalogArchive.archive_id (StatCatalogArchive.statCatalog name (db w)) = found
        /\ transaction (after run w) = None).
Proof.
  intros fmt this flag w Hcat Hidle Hquiet name run found.
  subst run found name. open_world w.
  split.
  - intros Hmiss. exec2. rewrite Hcat. exec2.
    destruct o; exec2; rewrite (ltb_true _ _ Hmiss); exec2; repeat split; reflexivity.
  - intros Hfound. exec2. rewrite Hcat. exec2.
    destruct o; exec2; rewrite (ltb_false _ _ Hfound); exec2; repeat split; reflexivity.
Qed.

Lemma list_backup_catalog_contract_witness :
  let cmd := Sample.command LIST_BACKUP_CATALOG "b" in
  let w := world_of Sample.tables [] in
  BaseCatalogCommand.has_catalog cmd = true
  /\ idle w
  /\ quiet w
  /\ CatalogDescr.id (BackupCatalog.existsByName "b" (db w)) < 0
  /\ raised (result (ListBackupCatalogCommand.execute (fun _ => EmptyString) cmd false) w)
     = Some (cat ["cannot stat catalog: archive"; dquote; "b"; dquote; " does not exist"]).
Proof.
  cbv zeta.
  assert (H : CatalogDescr.id (BackupCatalog.existsByName "b" Sample.tables) < 0)
    by (vm_compute; reflexivity).
  split; [reflexivity |]. split; [reflexivity |]. split; [reflexivity |].
  split; [exact H |].
  destruct (list_backup_catalog_contract (fun _ => EmptyString)
              (Sample.command LIST_BACKUP_CATALOG "b") false
              (world_of Sample.tables []) eq_refl eq_refl eq_refl) as [Hmissing _].
  exact (proj1 (Hmissing H)).
Defined.

(** ** verify-archive *)

(** X11.  verify-archive resolves the archive by name.  A missing archive
    makes it raise "archive ... does not exist" and roll back, whether
    missingOK is set or not.  For an archive the catalog knows, with the
    catalog open, it obtains the archive directory handle and runs the
    integrity check inside the transaction: if the check passes, the
    command commits and returns; if the check raises, the command rolls
    back and raises the copy its handler throws of the failure of the
    check: a [CPGBackupCtlFailure] with the same message, whatever
    subclass the check raised. *)
Theorem verify_archive_contract :
  forall (this : BaseCatalogCommand.t) (missingOK : bool) (w : World),
    BaseCatalogCommand.has_catalog this = true ->
    idle w ->
    catalog_open w = true ->
    let name := CatalogDescr.archive_name this in
    let run := VerifyArchiveCatalogCommand.execute this missingOK in
    let found := CatalogDescr.id (BackupCatalog.existsByName name (db w)) in
    (found < 0 -> quiet w ->
       raised (result run w) = Some (cat ["archive "; name; " does not exist"])
       /\ trace (after run w)
          = trace w ++ [mkEntry c_startTransaction false Done;
                        mkEntry (c_existsByName name) true Done;
                        mkEntry c_rollbackTransaction true Done])
    /\ (0 <= found -> quiet w ->
        result run w = Ok tt
        /\ trace (after run w)
           = trace w ++ [mkEntry c_startTransaction false Done;
                         mkEntry (c_existsByName name) true Done;
                         mkEntry c_commitTransaction true Done])
    /\ (0 <= found ->
        forall e : Failure,
          faults w = [None; None; None; Some e] ->
          result run w = Throw (sliced e)
          /\ trace (after run w)
             = trace w ++ [mkEntry c_startTransaction false Done;
                           mkEntry (c_existsByName name) true Done;
                           mkEntry c_rollbackTransaction true Done]
          /\ transaction (after run w) = None).
Proof.
  intros this missingOK w Hcat Hidle Hopen name run found.
  subst run found name.
  destruct w as [o t tx f tr term b reg txp].
  unfold idle, quiet in *. cbn [transaction faults catalog_open db trace] in *. subst.
  split; [| split].
  - intros Hmiss Hquiet. subst f. exec2. rewrite Hcat. exec2.
    rewrite (ltb_true _ _ Hmiss); exec2; flat; split; reflexivity.
  - intros Hfound Hquiet. subst f. exec2. rewrite Hcat. exec2.
    rewrite (ltb_false _ _ Hfound); exec2; flat; split; reflexivity.
  - intros Hfound e Hplan. subst f. exec2. rewrite Hcat. exec2.
    rewrite (ltb_false _ _ Hfound); exec2; flat; repeat split; reflexivity.
Qed.

Lemma verify_archive_contract_witness :
  let cmd := Sample.command VERIFY_ARCHIVE "a" in
  let w := world_of Sample.tables [None; None; None; Some Sample.catalog_failure] in
  BaseCatalogCommand.has_catalog cmd = true
  /\ idle w
  /\ catalog_open w = true
  /\ 0 <= CatalogDescr.id (BackupCatalog.existsByName "a" (db w))
  /\ result (VerifyArchiveCatalogCommand.execute cmd true) w
     = Throw (mkFailure CPGBackupCtlFailure "database is locked").
Proof.
  cbv zeta.
  assert (H : 0 <= CatalogDescr.id (BackupCatalog.existsByName "a" Sample.tables))
    by (vm_compute; discriminate).
  split; [reflexivity |]. split; [reflexivity |]. split; [reflexivity |].
  split; [exact H |].
  destruct (verify_archive_contract (Sample.command VERIFY_ARCHIVE "a") true
              (world_of Sample.tables [None; None; None; Some Sample.catalog_failure])
              eq_refl eq_refl eq_refl) as (_ & _ & Hfail).
  exact (proj1 (Hfail H Sample.catalog_failure eq_refl)).
Defined.

(** ** list-backup-profile *)

Lemma for_each_profile_line (l : list BackupProfileDescr.t) (w : World) :
  for_each l (fun descr =>
                ListBackupProfileCatalogCommand.line
                  (format2 25 15 (BackupProfileDescr.name descr)
                                 (BackupProfileDescr.label descr))) w
  = (Ok tt, set_terminal (terminal w ++ map profile_line l) w).
Proof.
  revert w. induction l as [| p l IH]; intros w; cbn [for_each map].
  - rewrite app_nil_r. destruct w; reflexivity.
  - unfold bind at 1. unfold ListBackupProfileCatalogCommand.line at 1, cout, modify.
    rewrite IH. destruct w as [o t tx f tr term b reg txp].
    cbn [set_terminal terminal]. rewrite <- app_assoc. reflexivity.
Qed.

(** X12.  list-backup-profile.  In list mode it prints the header and one
    line with name and label for every profile of the catalog, in the
    order the catalog returns them.  In detail mode it prints the
    properties of what the lookup of the name returns, and it does not
    check that the profile exists: for a name the catalog does not know,
    the command does not fail; it prints the details of the sentinel, a
    profile with an empty name, no compression, the rate 0, the default
    label, and returns. *)
Theorem list_backup_profile_output :
  forall (this : BaseCatalogCommand.t) (extended : bool) (w : World),
    BaseCatalogCommand.has_catalog this = true ->
    idle w ->
    quiet w ->
    let name := BackupProfileDescr.name (CatalogDescr.getBackupProfileDescr this) in
    let run := ListBackupProfileCatalogCommand.execute this extended in
    (CatalogDescr.tag this = LIST_BACKUP_PROFILE ->
       result run w = Ok tt
       /\ terminal (after run w)
          = terminal w
            ++ Header "List of backup profiles" (format2 25 15 "Name" "Backup Label") 80
               :: map profile_line (BackupCatalog.backup_profiles (db w)))
    /\ (CatalogDescr.tag this = LIST_BACKUP_PROFILE_DETAIL ->
        existsb (BackupCatalog.profile_named name)
                (BackupCatalog.backup_profiles (db w)) = false ->
        result run w = Ok tt
        /\ terminal (after run w)
           = terminal w
             ++ [Header "Details for backup profile " (format2 25 40 "Property" "Setting") 80;
                 Cout (String.append (format2 25 30 "NAME" "") endl);
                 Cout (String.append (format2 25 30 "COMPRESSION" "NONE") endl);
                 Cout (String.append (format2 25 30 "MAX RATE(kbps)" "0") endl);
                 Cout (String.append (format2 25 30 "LABEL" "PG_BCK_CTL BASEBACKUP") endl);
                 Cout (String.append (format2 25 30 "FAST CHECKPOINT" "0") endl);
                 Cout (String.append (format2 25 30 "WAL INCLUDED" "0") endl);
                 Cout (String.append (format2 25 30 "WAIT FOR WAL" "1") endl)]).
Proof.
  intros this extended w Hcat Hidle Hquiet name run.
  subst run name. open_world w.
  split.
  - intros Htag.
    unfold ListBackupProfileCatalogCommand.execute. rewrite Hcat, Htag. cbn [negb].
    destruct o; exec2; unfold BackupCatalog.getBackupProfiles;
      rewrite for_each_profile_line; exec2; flat; split; reflexivity.
  - intros Htag Hunknown.
    unfold ListBackupProfileCatalogCommand.execute. rewrite Hcat, Htag. cbn [negb].
    destruct o; exec2; unfold BackupCatalog.getBackupProfile; tidy;
      rewrite (existsb_false_find _ _ Hunknown); flat; split; reflexivity.
Qed.

Lemma list_backup_profile_output_witness :
  let cmd := Sample.profile_command LIST_BACKUP_PROFILE_DETAIL "nightly" in
  let w := world_of Sample.tables [] in
  BaseCatalogCommand.has_catalog cmd = true
  /\ idle w
  /\ quiet w
  /\ result (ListBackupProfileCatalogCommand.execute cmd false) w = Ok tt.
Proof.
  cbv zeta.
  split; [reflexivity |]. split; [reflexivity |]. split; [reflexivity |].
  destruct (list_backup_profile_output
              (Sample.profile_command LIST_BACKUP_PROFILE_DETAIL "nightly") false
              (world_of Sample.tables []) eq_refl eq_refl eq_refl) as [_ Hdetail].
  exact (proj1 (Hdetail eq_refl eq_refl)).
Defined.

(** ** Failures the envelope does not cover *)

Lemma start_entered (t0 : BackupCatalog.Tables) :
  hoare (resting t0) catalog.startTransaction (fun _ => entered t0) (fun _ => resting t0).
Proof.
  intros w [Htx Hdb]. open_world w. plan_cases2; split; reflexivity.
Qed.

Lemma lookup_entered (t0 : BackupCatalog.Tables) (directory : string) :
  hoare (entered t0) (catalog.exists_ directory)
        (fun _ => within t0)
        (fun _ w => entered t0 w /\ lookup_failed directory (trace w)).
Proof.
  intros w [Htx Hdb]. open_world w. plan_cases2;
    first [ reflexivity
          | split; [split; reflexivity | eexists; eexists; reflexivity] ].
Qed.

Lemma inv_within_start (t0 : BackupCatalog.Tables) :
  inv (within t0) catalog.startTransaction.
Proof. intros w Htx. unfold within in Htx. open_world w. plan_cases2; reflexivity. Qed.

Lemma create_archive_spec (this : BaseCatalogCommand.t) (existsOk : bool)
    (t0 : BackupCatalog.Tables) :
  hoare (resting t0) (CreateArchiveCatalogCommand.execute this existsOk)
        (fun _ w => transaction w = None)
        (fun _ w => resting t0 w
                    \/ (entered t0 w
                        /\ lookup_failed (CatalogDescr.directory this) (trace w))).
Proof.
  unfold CreateArchiveCatalogCommand.execute.
  destruct (BaseCatalogCommand.has_catalog this); cbn [negb];
    [| intros w Hw; left; exact Hw].
  apply hoare_bind with (R := fun _ => resting t0).
  { apply (hoare_weaken _ _ _ _ _ _ _ (inv_resting_open t0)); auto. }
  intros _.
  apply hoare_bind with (R := fun _ => entered t0).
  { apply (hoare_weaken _ _ _ _ _ _ _ (start_entered t0)); auto. }
  intros _.
  apply hoare_bind with (R := fun _ => within t0).
  { apply (hoare_weaken _ _ _ _ _ _ _ (lookup_entered t0 (CatalogDescr.directory this)));
      auto. }
  intros temp_descr.
  apply hoare_try_catch with (R := fun _ => within t0).
  - destruct (CatalogDescr.id temp_descr <? 0).
    + unfold catalog.createArchive, catalog.createCatalogConnection. commits t0.
    + unfold catalog.updateArchiveAttributes.
      apply hoare_bind with (R := fun _ => within t0);
        [change (inv (within t0)
                     (when_ (negb existsOk)
                        (throw (issue CArchiveIssue
                                  ["archive already exists: "; dquote;
                                   CatalogDescr.directory this; dquote]))));
         stays_within | intros _].
      cbv zeta.
      apply hoare_bind with (R := fun _ => within t0);
        [apply inv_within_start | intros _].
      commits t0.
  - intros e.
    apply (hoare_weaken _ _ _ _ _ _ _
             (rollback_rethrow t0 e (fun _ w => transaction w = None))); auto.
Qed.

(** X13.  create-archive looks the directory up after it has started its
    transaction and before it enters the protected block.  Started with
    no transaction in progress, it ends with none in progress when it
    returns; when it raises, the rows of the catalog are those it started
    with, and a transaction is still in progress only if the directory
    lookup is the call that failed.  That case exists, whether the catalog
    was open or had to be opened: if the lookup fails, the command raises
    the failure of the lookup and leaves the transaction it started in
    progress. *)
Theorem create_archive_failures :
  forall (this : BaseCatalogCommand.t) (existsOk : bool) (w : World),
    idle w ->
    let run := CreateArchiveCatalogCommand.execute this existsOk in
    (result run w = Ok tt -> transaction (after run w) = None)
    /\ (forall e, result run w = Throw e ->
          db (after run w) = db w
          /\ (transaction (after run w) = None
              \/ (transaction (after run w) = Some (db w)
                  /\ lookup_failed (CatalogDescr.directory this) (trace (after run w)))))
    /\ (BaseCatalogCommand.has_catalog this = true ->
        catalog_open w = true ->
        forall (e : Failure) (rest : list (option Failure)),
          faults w = None :: Some e :: rest ->
          result run w = Throw e /\ transaction (after run w) = Some (db w))
    /\ (BaseCatalogCommand.has_catalog this = true ->
        catalog_open w = false ->
        forall (e : Failure) (rest : list (option Failure)),
          faults w = None :: None :: Some e :: rest ->
          result run w = Throw e /\ transaction (after run w) = Some (db w)).
Proof.
  intros this existsOk w Hidle run. subst run.
  pose proof (create_archive_spec this existsOk (db w) w (conj Hidle eq_refl)) as H.
  split; [| split; [| split]].
  - intros Hres. unfold result, after in *.
    destruct (CreateArchiveCatalogCommand.execute this existsOk w) as [[a | [e |]] w'];
      cbn [fst snd] in *; [exact H | discriminate Hres | contradiction].
  - intros e Hres. unfold result, after in *.
    destruct (CreateArchiveCatalogCommand.execute this existsOk w) as [[a | [e' |]] w'];
      cbn [fst snd] in *; [discriminate Hres | | contradiction].
    destruct H as [[Htx Hdb] | [[Htx Hdb] Hlook]].
    + split; [exact Hdb | left; exact Htx].
    + split; [exact Hdb | right; split; assumption].
  - intros Hcat Hopen e rest Hplan.
    destruct w as [o t tx f tr term b reg txp].
    unfold idle in Hidle. cbn [transaction faults catalog_open db] in *. subst.
    exec2. rewrite Hcat. exec2. split; reflexivity.
  - intros Hcat Hopen e rest Hplan.
    destruct w as [o t tx f tr term b reg txp].
    unfold idle in Hidle. cbn [transaction faults catalog_open db] in *. subst.
    exec2. rewrite Hcat. exec2. split; reflexivity.
Qed.

Lemma create_archive_failures_witness :
  let cmd := Sample.create_archive "b" "/tmp/b" in
  let w := world_of Sample.tables [None; Some Sample.catalog_failure] in
  idle w
  /\ result (CreateArchiveCatalogCommand.execute cmd false) w = Throw Sample.catalog_failure
  /\ transaction (after (CreateArchiveCatalogCommand.execute cmd false) w)
     = Some Sample.tables.
Proof.
  cbv zeta. split; [reflexivity |].
  destruct (create_archive_failures (Sample.create_archive "b" "/tmp/b") false
              (world_of Sample.tables [None; Some Sample.catalog_failure]) eq_refl)
    as (_ & _ & H & _).
  exact (H eq_refl eq_refl Sample.catalog_failure [] eq_refl).
Defined.

Lemma commit_unprotected (t0 : BackupCatalog.Tables) :
  hoare (within t0) catalog.commitTransaction
        (fun _ w => transaction w = None)
        (fun _ w => within t0 w /\ commit_failed (trace w)).
Proof.
  intros w Htx. unfold within in Htx. open_world w. plan_cases2;
    first [ reflexivity
          | split; [reflexivity | eexists; eexists; eexists; reflexivity] ].
Qed.

(** [start; try { body } catch { rollback; throw }; commit]: the commit is
    behind the protected block. *)
Lemma envelope_commit_behind (t0 : BackupCatalog.Tables) (body : M unit) :
  inv (within t0) body ->
  hoare (resting t0)
        (open_unless_available ;;
         catalog.startTransaction ;;
         try_catch body (fun e => catalog.rollbackTransaction ;; throw (sliced e)) ;;
         catalog.commitTransaction)
        (fun _ w => transaction w = None)
        (fun _ w => resting t0 w \/ (within t0 w /\ commit_failed (trace w))).
Proof.
  intros Hbody.
  apply hoare_bind with (R := fun _ => resting t0).
  { apply (hoare_weaken _ _ _ _ _ _ _ (inv_resting_open t0)); auto. }
  intros _.
  apply hoare_bind with (R := fun _ => within t0).
  { apply (hoare_weaken _ _ _ _ _ _ _ (start_resting t0)); auto. }
  intros _.
  apply hoare_bind with (R := fun _ => within t0).
  - apply hoare_try_catch with (R := fun _ => within t0).
    + apply (hoare_weaken _ _ _ _ _ _ _ Hbody); auto.
    + intros e.
      apply (hoare_weaken _ _ _ _ _ _ _
               (rollback_rethrow t0 e (fun _ => within t0))); auto.
  - intros _. apply (hoare_weaken _ _ _ _ _ _ _ (commit_unprotected t0)); auto.
Qed.

Lemma drop_connection_spec (this : BaseCatalogCommand.t) (flag : bool)
    (t0 : BackupCatalog.Tables) :
  hoare (resting t0) (DropConnectionCatalogCommand.execute this flag)
        (fun _ w => transaction w = None)
        (fun _ w => resting t0 w \/ (within t0 w /\ commit_failed (trace w))).
Proof.
  unfold DropConnectionCatalogCommand.execute.
  destruct (BaseCatalogCommand.has_catalog this); cbn [negb];
    [| intros w Hw; left; exact Hw].
  apply envelope_commit_behind.
  unfold catalog.existsByName, catalog.getCatalogConnection,
    catalog_more.dropCatalogConnection.
  stays_within.
Qed.

Lemma list_connection_spec (this : BaseCatalogCommand.t) (flag : bool)
    (t0 : BackupCatalog.Tables) :
  hoare (resting t0) (ListConnectionCatalogCommand.execute this flag)
        (fun _ w => transaction w = None)
        (fun _ w => resting t0 w \/ (within t0 w /\ commit_failed (trace w))).
Proof.
  unfold ListConnectionCatalogCommand.execute.
  destruct (BaseCatalogCommand.has_catalog this); cbn [negb];
    [| intros w Hw; left; exact Hw].
  apply envelope_commit_behind.
  unfold catalog.existsByName, catalog_more.getCatalogConnection,
    ListConnectionCatalogCommand.line, ListConnectionCatalogCommand.item.
  repeat first
    [ apply inv_bind; [| intros ?]
    | apply inv_throw
    | apply inv_for_each; intros ?
    | apply inv_cout; apply of_transaction_store; apply of_transaction_within
    | apply inv_call_transaction; [apply of_transaction_within | apply keeps_on_db_transaction]
    | apply inv_invoke_transaction; [apply of_transaction_within | apply keeps_on_db_transaction]
    | match goal with |- inv _ (if ?c then _ else _) => destruct c end ].
Qed.

Lemma commit_behind {A : Type} (m : M A) (w : World) :
  (forall t0, hoare (resting t0) m
                (fun _ w => transaction w = None)
                (fun _ w => resting t0 w \/ (within t0 w /\ commit_failed (trace w)))) ->
  idle w ->
  (forall a, result m w = Ok a -> transaction (after m w) = None)
  /\ (forall e, result m w = Throw e ->
        (transaction (after m w) = None /\ db (after m w) = db w)
        \/ (transaction (after m w) = Some (db w) /\ commit_failed (trace (after m w)))).
Proof.
  intros Hm Hidle. pose proof (Hm (db w) w (conj Hidle eq_refl)) as H.
  unfold after, result. destruct (m w) as [[a | [e |]] w']; cbn [fst snd].
  - split; [intros _ _; exact H | intros e E; discriminate E].
  - split; [intros a E; discriminate E | intros _ _; exact H].
  - contradiction.
Qed.

(** X14.  drop-connection and list-connection commit behind their
    protected block.  Started with no transaction in progress, each ends
    with none in progress when it returns; when it raises, either the
    transaction was rolled back and the rows are those it started with,
    or the commit is the call that failed and the transaction is still in
    progress.  For drop-connection that case leaves the connection
    dropped from the rows inside a transaction that is neither committed
    nor rolled back. *)
Theorem connection_commands_commit_unprotected :
  forall (this : BaseCatalogCommand.t) (flag : bool) (w : World),
    idle w ->
    let drop := DropConnectionCatalogCommand.execute this flag in
    let list := ListConnectionCatalogCommand.execute this flag in
    let name := CatalogDescr.archive_name this in
    let type := ConnectionDescr.type (CatalogDescr.coninfo this) in
    let found := CatalogDescr.id (BackupCatalog.existsByName name (db w)) in
    ((forall a, result drop w = Ok a -> transaction (after drop w) = None)
     /\ forall e, result drop w = Throw e ->
          (transaction (after drop w) = None /\ db (after drop w) = db w)
          \/ (transaction (after drop w) = Some (db w)
              /\ commit_failed (trace (after drop w))))
    /\ ((forall a, result list w = Ok a -> transaction (after list w) = None)
        /\ forall e, result list w = Throw e ->
             (transaction (after list w) = None /\ db (after list w) = db w)
             \/ (transaction (after list w) = Some (db w)
                 /\ commit_failed (trace (after list w))))
    /\ (BaseCatalogCommand.has_catalog this = true ->
        catalog_open w = true ->
        0 <= found ->
        existsb (BackupCatalog.con_key found type) (BackupCatalog.connections (db w)) = true ->
        forall e : Failure,
          faults w = [None; None; None; None; Some e] ->
          result drop w = Throw e
          /\ transaction (after drop w) = Some (db w)
          /\ db (after drop w) = BackupCatalogMore.dropCatalogConnection name type (db w)).
Proof.
  intros this flag w Hidle drop list name type found.
  subst drop list found type name.
  split; [| split].
  - apply commit_behind; [| exact Hidle]. intros t0. apply drop_connection_spec.
  - apply commit_behind; [| exact Hidle]. intros t0. apply list_connection_spec.
  - intros Hcat Hopen Hfound Hpresent e Hplan.
    destruct w as [o t tx f tr term b reg txp].
    unfold idle in Hidle. cbn [transaction faults catalog_open db] in *. subst.
    destruct (existsb_true_find _ _ Hpresent) as (row & Hrow & _).
    destruct (con_key_find _ _ _ _ Hrow) as [Hrid Hrty].
    assert (Htype : ConnectionDescr.type
                      (BackupCatalog.fill row
                         (ConnectionDescr.pushAffectedAttribute SQL_CON_ARCHIVE_ID_ATTNO
                            (ConnectionDescr.set_archive_id
                               (CatalogDescr.id
                                  (BackupCatalog.existsByName
                                     (CatalogDescr.archive_name this) t))
                               (CatalogDescr.coninfo this))))
                    = ConnectionDescr.type (CatalogDescr.coninfo this)).
    { unfold BackupCatalog.fill. cbv zeta. tidy.
      destruct (affected SQL_CON_TYPE_ATTNO _); [exact Hrty | reflexivity]. }
    assert (Hid : ConnectionDescr.archive_id
                    (BackupCatalog.fill row
                       (ConnectionDescr.pushAffectedAttribute SQL_CON_ARCHIVE_ID_ATTNO
                          (ConnectionDescr.set_archive_id
                             (CatalogDescr.id
                                (BackupCatalog.existsByName
                                   (CatalogDescr.archive_name this) t))
                             (CatalogDescr.coninfo this))))
                  = CatalogDescr.id
                      (BackupCatalog.existsByName (CatalogDescr.archive_name this) t)).
    { unfold BackupCatalog.fill. cbv zeta. tidy.
      destruct (affected SQL_CON_ARCHIVE_ID_ATTNO _); [exact Hrid | reflexivity]. }
    exec2. rewrite Hcat. exec2.
    rewrite (leb_true _ _ Hfound); exec2; tidy;
      unfold BackupCatalog.getCatalogConnection; rewrite Hrow;
      rewrite Hid, Htype; rewrite (ltb_false _ _ Hfound); exec2;
      repeat split; reflexivity.
Qed.

Lemma connection_commands_commit_unprotected_witness :
  let cmd := Fixture.connection_command DROP_CONNECTION "a"
               ConnectionDescr.CONNECTION_TYPE_STREAMER in
  let w := world_of Fixture.two_connections
             [None; None; None; None; Some Sample.catalog_failure] in
  idle w
  /\ result (DropConnectionCatalogCommand.execute cmd false) w
     = Throw Sample.catalog_failure
  /\ transaction (after (DropConnectionCatalogCommand.execute cmd false) w)
     = Some Fixture.two_connections
  /\ BackupCatalog.connections (db (after (DropConnectionCatalogCommand.execute cmd false) w))
     = [Sample.connection_a].
Proof.
  cbv zeta. split; [reflexivity |].
  destruct (connection_commands_commit_unprotected
              (Fixture.connection_command DROP_CONNECTION "a"
                 ConnectionDescr.CONNECTION_TYPE_STREAMER)
              false
              (world_of Fixture.two_connections
                 [None; None; None; None; Some Sample.catalog_failure]) eq_refl)
    as (_ & _ & H).
  destruct (H eq_refl eq_refl ltac:(vm_compute; discriminate) eq_refl
              Sample.catalog_failure eq_refl) as (Hres & Htx & Hdb).
  split; [exact Hres |]. split; [exact Htx |]. rewrite Hdb. reflexivity.
Defined.

(** ** start-basebackup: transactions *)

Lemma busy_snoc (tr : list Entry) (c : Call) (active : bool) (o : Outcome) :
  tablespaces_outside_transactions tr ->
  (is_tablespace_call c = true -> active = false) ->
  tablespaces_outside_transactions (tr ++ [mkEntry c active o]).
Proof.
  intros Htr Hc. unfold tablespaces_outside_transactions in *.
  apply Forall_app. split; [exact Htr |].
  constructor; [| constructor].
  unfold is_registerTablespaceForBackup. cbn [call_of in_transaction].
  destruct c; cbn in *; try discriminate; intros _; apply Hc; reflexivity.
Qed.

(** A call that is not a tablespace registration, inside a transaction or
    outside. *)
Lemma busy_call {A : Type} (c : Call) (op : World -> Refusal (A * World)) :
  is_tablespace_call c = false -> keeps trace op -> inv busy (call c op).
Proof.
  intros Hc Htr w Hw. unfold call, record, busy in *.
  destruct (hd None (faults w)) as [e |].
  - cbn [trace set_trace set_faults]. apply busy_snoc; [exact Hw | congruence].
  - destruct (op (set_faults (tl (faults w)) w)) as [[a w2] | e] eqn:Eop.
    + cbn [trace set_trace]. rewrite (Htr _ _ _ Eop). cbn [trace set_faults].
      apply busy_snoc; [exact Hw | congruence].
    + cbn [trace set_trace set_faults]. apply busy_snoc; [exact Hw | congruence].
Qed.

(** A call between transactions that neither begins nor ends one. *)
Lemma calm_call {A : Type} (c : Call) (op : World -> Refusal (A * World)) :
  keeps trace op -> keeps transaction op -> inv calm (call c op).
Proof.
  intros Htr Htx w [Hidle Hw]. unfold call, record, calm, idle in *.
  destruct (hd None (faults w)) as [e |].
  - cbn [trace transaction set_trace set_faults]. split; [exact Hidle |].
    apply busy_snoc; [exact Hw | intros _; rewrite Hidle; reflexivity].
  - destruct (op (set_faults (tl (faults w)) w)) as [[a w2] | e] eqn:Eop.
    + cbn [trace transaction set_trace].
      rewrite (Htr _ _ _ Eop), (Htx _ _ _ Eop). cbn [trace transaction set_faults].
      split; [exact Hidle |].
      apply busy_snoc; [exact Hw | intros _; rewrite Hidle; reflexivity].
    + cbn [trace transaction set_trace set_faults]. split; [exact Hidle |].
      apply busy_snoc; [exact Hw | intros _; rewrite Hidle; reflexivity].
Qed.

Lemma keeps_on_db_trace {A : Type} (f : BackupCatalog.Tables -> A * BackupCatalog.Tables) :
  keeps trace (on_db f).
Proof.
  intros w a w2. unfold on_db. destruct (f (db w)) as [a' t].
  intros E. inversion E; subst. reflexivity.
Qed.

Lemma keeps_on_db_checked_trace {A : Type}
    (f : BackupCatalog.Tables -> Refusal (A * BackupCatalog.Tables)) :
  keeps trace (on_db_checked f).
Proof.
  intros w a w2. unfold on_db_checked. destruct (f (db w)) as [[a' t] | e]; [| discriminate].
  intros E. inversion E; subst. reflexivity.
Qed.

Ltac keeps_it :=
  first [ apply keeps_on_db_trace | apply keeps_on_db_checked_trace
        | apply keeps_on_db_transaction | apply keeps_on_db_checked_transaction
        | apply keeps_pure
        | intros [? ? [?|] ? ? ? [?|] ? ?] ? ? E; cbn in E; inversion E; subst; reflexivity ].

Lemma start_calm :
  hoare calm catalog.startTransaction (fun _ => busy) (fun _ => calm).
Proof.
  intros w [Hidle Hw]. unfold catalog.startTransaction, call, record.
  unfold idle in Hidle. destruct w as [o t tx f tr term b reg txp].
  cbn [transaction trace] in *. subst tx.
  destruct f as [| [e |] f]; cbn [hd tl faults set_faults set_trace trace is_some
                                   transaction set_transaction db];
    unfold busy, calm, idle; cbn [trace transaction];
    try split; try reflexivity; apply busy_snoc; try exact Hw; intros _; reflexivity.
Qed.

Lemma commit_calm :
  hoare busy catalog.commitTransaction (fun _ => calm) (fun _ => busy).
Proof.
  intros w Hw. unfold catalog.commitTransaction, call, record.
  destruct w as [o t tx f tr term b reg txp]. unfold busy in Hw. cbn [trace] in Hw.
  destruct f as [| [e |] f]; cbn [hd tl faults set_faults set_trace trace is_some
                                   transaction set_transaction db];
    unfold busy, calm, idle; cbn [trace transaction];
    try split; try reflexivity; apply busy_snoc; try exact Hw; intros C; discriminate C.
Qed.

Lemma rollback_calm : hoare busy catalog.rollbackTransaction (fun _ => calm) (fun _ => calm).
Proof.
  intros w Hw. unfold catalog.rollbackTransaction, record.
  destruct w as [o t [s |] f tr term b reg txp]; unfold busy in Hw; cbn [trace] in Hw;
    cbn [set_trace trace is_some transaction set_transaction set_db db];
    unfold calm, idle; cbn [trace transaction];
    (split; [reflexivity |]); apply busy_snoc; try exact Hw; intros C; discriminate C.
Qed.

Lemma calm_busy (w : World) : calm w -> busy w.
Proof. intros [_ H]. exact H. Qed.

Lemma rethrow_calm {A : Type} (e : Failure) (Q : A -> World -> Prop) :
  hoare busy (catalog.rollbackTransaction ;; throw (sliced e)) Q (fun _ => calm).
Proof.
  intros w Hw. unfold bind. pose proof (rollback_calm w Hw) as H.
  destruct (catalog.rollbackTransaction w) as [[[] | e'] w']; exact H.
Qed.

(** [start; try { body } catch { rollback; throw }], where the body ends
    with its commit. *)
Lemma block_calm {A : Type} (body : M A) :
  hoare busy body (fun _ => calm) (fun _ => busy) ->
  hoare calm
        (catalog.startTransaction ;;
         try_catch body (fun e => catalog.rollbackTransaction ;; throw (sliced e)))
        (fun _ => calm) (fun _ => calm).
Proof.
  intros Hbody.
  apply hoare_bind with (R := fun _ => busy); [apply start_calm | intros _].
  apply hoare_try_catch with (R := fun _ => busy); [exact Hbody | intros e].
  apply rethrow_calm.
Qed.

Lemma inv_calm_rollback : inv calm catalog.rollbackTransaction.
Proof. intros w Hw. apply rollback_calm. apply calm_busy. exact Hw. Qed.

Lemma inv_calm_modify (g : World -> World) :
  (forall w, transaction (g w) = transaction w) ->
  (forall w, trace (g w) = trace w) ->
  inv calm (modify g).
Proof.
  intros Htx Htr w [Hidle Hw]. unfold modify, calm, idle. rewrite Htx, Htr.
  split; assumption.
Qed.

Lemma inv_busy_modify (g : World -> World) :
  (forall w, trace (g w) = trace w) -> inv busy (modify g).
Proof. intros Htr w Hw. unfold modify, busy. rewrite Htr. exact Hw. Qed.

(** The steps inside a transaction, up to the commit. *)
Ltac stays_busy :=
  repeat first
    [ apply inv_bind; [| intros ?]
    | apply inv_ret
    | apply inv_throw
    | apply inv_gets
    | apply inv_when
    | apply inv_busy_modify; intros [? ? ? ? ? ? ? ? ?]; reflexivity
    | apply busy_call; [reflexivity | keeps_it]
    | progress cbv zeta
    | match goal with
      | |- inv _ (if ?c then _ else _) => destruct c
      | |- hoare _ (if ?c then _ else _) _ _ => destruct c
      end ].

(** The steps between transactions. *)
Ltac stays_calm :=
  repeat first
    [ apply inv_bind; [| intros ?]
    | apply inv_ret
    | apply inv_throw
    | apply inv_gets
    | apply inv_when
    | apply inv_calm_rollback
    | apply inv_calm_modify; intros [? ? ? ? ? ? ? ? ?]; reflexivity
    | apply calm_call; [keeps_it | keeps_it]
    | progress cbv zeta
    | match goal with
      | |- inv _ (if ?c then _ else _) => destruct c
      | |- hoare _ (if ?c then _ else _) _ _ => destruct c
      end ].

Lemma calm_tail {A : Type} (m : M A) :
  inv calm m -> hoare calm m (fun _ => calm) (fun _ => busy).
Proof.
  intros H. apply (hoare_weaken _ _ _ _ _ _ _ H); auto. intros _ w. apply calm_busy.
Qed.

(** A body of the form [steps; commit; rest]. *)
Ltac commits_calm :=
  cbv zeta;
  repeat first
    [ match goal with
      | |- hoare busy (bind catalog.commitTransaction _) _ _ =>
          apply hoare_bind with (R := fun _ => calm);
          [apply commit_calm | intros ?; apply calm_tail; stays_calm]
      | |- hoare busy catalog.commitTransaction _ _ => apply commit_calm
      end
    | apply hoare_bind with (R := fun _ => busy);
      [match goal with |- hoare ?P ?m _ _ => change (inv P m) end; stays_busy
      | intros ?]; cbv zeta ].

Lemma calm_open : inv calm open_unless_available.
Proof.
  unfold open_unless_available, catalog.available, catalog.open_rw. stays_calm.
Qed.

Lemma calm_resolve_archive (this : BaseCatalogCommand.t) :
  inv calm (StartBasebackupCatalogCommand.resolve_archive this).
Proof.
  unfold StartBasebackupCatalogCommand.resolve_archive.
  apply hoare_bind with (R := fun _ => busy); [apply start_calm | intros _].
  apply hoare_bind with (R := fun _ => calm).
  - apply hoare_try_catch with (R := fun _ => busy); [| intros e; apply rethrow_calm].
    unfold catalog.existsByName, catalog.getCatalogConnection.
    commits_calm.
  - intros temp_descr. stays_calm.
Qed.

Lemma calm_resolve_profile (this : BaseCatalogCommand.t) :
  inv calm (StartBasebackupCatalogCommand.resolve_profile this).
Proof.
  unfold StartBasebackupCatalogCommand.resolve_profile. cbv zeta.
  destruct (negb (String.eqb (BackupProfileDescr.name (CatalogDescr.backup_profile this)) "")).
  - apply hoare_bind with (R := fun _ => busy); [apply start_calm | intros _].
    apply hoare_bind with (R := fun _ => calm).
    + apply hoare_try_catch with (R := fun _ => busy); [| intros e; apply rethrow_calm].
      unfold catalog.getBackupProfile. commits_calm.
    + intros backupProfile. stays_calm.
  - apply hoare_bind with (R := fun _ => busy); [apply start_calm | intros _].
    apply hoare_bind with (R := fun _ => calm).
    + apply hoare_try_catch with (R := fun _ => busy); [| intros e; apply rethrow_calm].
      unfold catalog.getBackupProfile. commits_calm.
    + intros backupProfile. stays_calm.
Qed.

Lemma calm_prepare (this : BaseCatalogCommand.t) :
  inv calm (StartBasebackupCatalogCommand.prepare this).
Proof.
  unfold StartBasebackupCatalogCommand.prepare.
  apply inv_bind; [apply inv_calm_modify; intros [? ? ? ? ? ? ? ? ?]; reflexivity | intros _].
  destruct (negb (BaseCatalogCommand.has_catalog this)); [apply inv_throw |].
  apply inv_bind; [apply calm_open | intros _].
  apply inv_bind; [apply calm_resolve_archive | intros temp_descr].
  apply inv_bind; [apply calm_resolve_profile | intros backupProfile].
  apply inv_ret.
Qed.

Lemma calm_tablespaces (queue : list BackupTablespaceDescr.t) :
  inv calm (StartBasebackupCatalogCommand.stream_tablespaces queue).
Proof.
  induction queue as [| s queue IH]; cbn [StartBasebackupCatalogCommand.stream_tablespaces].
  - unfold Stream.stepTablespace. stays_calm.
  - unfold Stream.stepTablespace, Stream.getBaseBackupDescr,
      catalog.registerTablespaceForBackup, Stream.backupTablespace.
    apply inv_bind; [stays_calm | intros _].
    apply inv_bind; [stays_calm | intros d]. cbv zeta.
    apply inv_bind; [stays_calm | intros _].
    apply inv_bind; [stays_calm | intros _].
    exact IH.
Qed.

Lemma calm_stream (peer : Stream.t) (temp_descr : CatalogDescr.t)
    (backupProfile : BackupProfileDescr.t) :
  inv calm (StartBasebackupCatalogCommand.stream peer temp_descr backupProfile).
Proof.
  unfold StartBasebackupCatalogCommand.stream.
  apply inv_bind; [unfold Stream.connect; stays_calm | intros _].
  apply inv_bind; [unfold Stream.identify; stays_calm | intros _].
  apply inv_bind; [unfold Stream.basebackup; stays_calm | intros _].
  apply inv_bind; [unfold Stream.start; stays_calm | intros _].
  apply hoare_bind with (R := fun _ => busy); [apply start_calm | intros _].
  apply hoare_bind with (R := fun _ => calm).
  - apply hoare_try_catch with (R := fun _ => busy); [| intros e; apply rethrow_calm].
    unfold Stream.initialize, Stream.create, Stream.assign, Stream.getBaseBackupDescr,
      cout, catalog.registerBasebackup.
    commits_calm.
  - intros _.
    apply inv_bind; [stays_calm | intros _].
    apply inv_bind; [unfold Stream.readTablespaceInfo; stays_calm | intros queue].
    apply inv_bind; [apply calm_tablespaces | intros _].
    apply inv_bind; [unfold Stream.end_; stays_calm | intros _].
    unfold Stream.disconnect; stays_calm.
Qed.

Lemma calm_compensate (e : Failure) :
  inv calm (StartBasebackupCatalogCommand.compensate e).
Proof.
  intros w [Hidle Hw]. unfold idle in Hidle.
  destruct w as [o t tx f tr term b reg txp]. cbn [transaction trace] in *. subst tx.
  destruct reg; destruct b as [d |]; plan_cases2;
    unfold calm, idle; cbn [transaction trace]; (split; [reflexivity |]); flat;
    try exact Hw;
    (apply Forall_app; split; [exact Hw |]);
    repeat constructor; cbn; intros C; discriminate C.
Qed.

Lemma calm_finalize : inv calm StartBasebackupCatalogCommand.finalize.
Proof.
  unfold StartBasebackupCatalogCommand.finalize.
  apply block_calm.
  unfold Stream.getBaseBackupDescr, catalog.finalizeBasebackup.
  commits_calm.
Qed.

Lemma calm_execute (peer : Stream.t) (this : BaseCatalogCommand.t) (background : bool) :
  inv calm (StartBasebackupCatalogCommand.execute peer this background).
Proof.
  unfold StartBasebackupCatalogCommand.execute.
  apply inv_bind; [apply calm_prepare | intros resolved]. cbv zeta.
  apply inv_bind; [| intros _; apply calm_finalize].
  apply inv_try_catch; [apply calm_stream | intros e; apply calm_compensate].
Qed.

(** X15.  start-basebackup and its transactions.  Started with no
    transaction in progress, the command ends with none in progress,
    whichever of its calls fail, whether the backup was registered or
    not, and whether it returns or raises.  And every tablespace it
    registers, it registers with no transaction in progress: the rows of
    the tablespaces are outside the transactions that register, abort and
    finalize the backup. *)
Theorem start_basebackup_transactions :
  forall (peer : Stream.t) (this : BaseCatalogCommand.t) (background : bool) (w : World),
    idle w ->
    tablespaces_outside_transactions (trace w) ->
    let run := StartBasebackupCatalogCommand.execute peer this background in
    idle (after run w)
    /\ tablespaces_outside_transactions (trace (after run w)).
Proof.
  intros peer this background w Hidle Hclean run. subst run.
  pose proof (calm_execute peer this background w (conj Hidle Hclean)) as H.
  unfold after.
  destruct (StartBasebackupCatalogCommand.execute peer this background w)
    as [[a | [e |]] w']; [exact H | exact H | contradiction].
Qed.

Lemma start_basebackup_transactions_witness :
  let w := world_of Sample.tables Sample.end_fails_abort_fails in
  let run := StartBasebackupCatalogCommand.execute
               Sample.peer (Sample.backup_command "a" "") false in
  idle w
  /\ tablespaces_outside_transactions (trace w)
  /\ idle (after run w)
  /\ existsb is_registerTablespaceForBackup (trace (after run w)) = true.
Proof.
  cbv zeta. split; [reflexivity |]. split; [constructor |].
  split; [| reflexivity].
  exact (proj1 (start_basebackup_transactions
                  Sample.peer (Sample.backup_command "a" "") false
                  (world_of Sample.tables Sample.end_fails_abort_fails)
                  eq_refl (Forall_nil _))).
Defined.

(** ** start-basebackup: before the registration *)

Lemma hoare_conj {A : Type} (P1 P2 : World -> Prop) (m : M A)
    (Q1 Q2 : A -> World -> Prop) (E1 E2 : Failure -> World -> Prop) :
  hoare P1 m Q1 E1 ->
  hoare P2 m Q2 E2 ->
  hoare (fun w => P1 w /\ P2 w) m (fun a w => Q1 a w /\ Q2 a w) (fun e w => E1 e w /\ E2 e w).
Proof.
  intros H1 H2 w [Hw1 Hw2]. specialize (H1 w Hw1). specialize (H2 w Hw2).
  destruct (m w) as [[a | [e |]] w']; [split; assumption | split; assumption | exact H1].
Qed.

Lemma of_store_entered (t0 : BackupCatalog.Tables) : of_store (entered t0).
Proof. intros w w' Hdb Htx [H1 H2]. unfold entered. rewrite Hdb, Htx. split; assumption. Qed.

Lemma of_store_resting (t0 : BackupCatalog.Tables) : of_store (resting t0).
Proof. intros w w' Hdb Htx [H1 H2]. unfold resting. rewrite Hdb, Htx. split; assumption. Qed.

Lemma commit_entered (t0 : BackupCatalog.Tables) :
  hoare (entered t0) catalog.commitTransaction (fun _ => resting t0) (fun _ => entered t0).
Proof. intros w [Htx Hdb]. open_world w. plan_cases2; split; reflexivity. Qed.

Lemma rethrow_entered {A : Type} (t0 : BackupCatalog.Tables) (e : Failure)
    (Q : A -> World -> Prop) :
  hoare (entered t0) (catalog.rollbackTransaction ;; throw (sliced e)) Q (fun _ => resting t0).
Proof. intros w [Htx Hdb]. open_world w. exec2. split; reflexivity. Qed.

Lemma inv_resting_rollback (t0 : BackupCatalog.Tables) :
  inv (resting t0) catalog.rollbackTransaction.
Proof. intros w [Htx Hdb]. open_world w. exec2. split; reflexivity. Qed.

(** Calls that read, in a transaction that has changed nothing or at
    rest. *)
Ltac reads_in I_of_store :=
  repeat first
    [ apply inv_bind; [| intros ?]
    | apply inv_ret
    | apply inv_throw
    | apply inv_gets
    | apply inv_when
    | apply inv_cout; apply I_of_store
    | apply inv_call_store;
      [apply I_of_store
      | first [apply keeps_reading | apply keeps_pure
              | intros [? ? [?|] ? ? ? [?|] ? ?] ? ? E; cbn in E; inversion E; subst;
                reflexivity]
      | first [apply keeps_on_db_transaction | apply keeps_pure
              | intros [? ? [?|] ? ? ? [?|] ? ?] ? ? E; cbn in E; inversion E; subst;
                reflexivity]]
    | progress cbv zeta
    | match goal with
      | |- inv _ (if ?c then _ else _) => destruct c
      | |- hoare _ (if ?c then _ else _) _ _ => destruct c
      end ].

Lemma resting_resolve_archive (t0 : BackupCatalog.Tables) (this : BaseCatalogCommand.t) :
  inv (resting t0) (StartBasebackupCatalogCommand.resolve_archive this).
Proof.
  unfold StartBasebackupCatalogCommand.resolve_archive.
  apply hoare_bind with (R := fun _ => entered t0); [apply start_entered | intros _].
  apply hoare_bind with (R := fun _ => resting t0).
  - apply hoare_try_catch with (R := fun _ => entered t0);
      [| intros e; apply rethrow_entered].
    unfold catalog.existsByName, catalog.getCatalogConnection.
    apply hoare_bind with (R := fun _ => entered t0);
      [match goal with |- hoare ?P ?m _ _ => change (inv P m) end;
       reads_in (of_store_entered t0) | intros ?].
    apply hoare_bind with (R := fun _ => entered t0);
      [match goal with |- hoare ?P ?m _ _ => change (inv P m) end;
       reads_in (of_store_entered t0) | intros ?].
    apply hoare_bind with (R := fun _ => resting t0); [apply commit_entered | intros _].
    intros w Hw. exact Hw.
  - intros temp_descr.
    destruct (CatalogDescr.id temp_descr <? 0).
    + apply inv_bind; [apply inv_resting_rollback | intros _; apply inv_throw].
    + apply inv_ret.
Qed.

Lemma resting_resolve_profile (t0 : BackupCatalog.Tables) (this : BaseCatalogCommand.t) :
  inv (resting t0) (StartBasebackupCatalogCommand.resolve_profile this).
Proof.
  assert (Hblock : forall name : string,
             hoare (entered t0)
               (try_catch
                  (backupProfile <- catalog.getBackupProfile name ;;
                   catalog.commitTransaction ;;
                   ret backupProfile)
                  (fun e => catalog.rollbackTransaction ;; throw (sliced e)))
               (fun _ => resting t0) (fun _ => resting t0)).
  { intros name.
    apply hoare_try_catch with (R := fun _ => entered t0);
      [| intros e; apply rethrow_entered].
    unfold catalog.getBackupProfile.
    apply hoare_bind with (R := fun _ => entered t0);
      [match goal with |- hoare ?P ?m _ _ => change (inv P m) end;
       reads_in (of_store_entered t0) | intros ?].
    apply hoare_bind with (R := fun _ => resting t0); [apply commit_entered | intros _].
    intros w Hw. exact Hw. }
  unfold StartBasebackupCatalogCommand.resolve_profile. cbv zeta.
  destruct (negb (String.eqb (BackupProfileDescr.name (CatalogDescr.backup_profile this))
                             EmptyString));
    (apply hoare_bind with (R := fun _ => entered t0); [apply start_entered | intros _]);
    (apply hoare_bind with (R := fun _ => resting t0); [apply Hblock | intros backupProfile]);
    (destruct (BackupProfileDescr.profile_id backupProfile <? 0);
     [apply inv_throw | apply inv_ret]).
Qed.

Lemma resting_prepare (t0 : BackupCatalog.Tables) (this : BaseCatalogCommand.t) :
  hoare (resting t0) (StartBasebackupCatalogCommand.prepare this)
        (fun _ => pristine t0) (fun _ => pristine t0).
Proof.
  assert (H : inv (resting t0) (StartBasebackupCatalogCommand.prepare this)).
  { unfold StartBasebackupCatalogCommand.prepare.
    apply inv_bind.
    { apply inv_modify. intros [? ? ? ? ? ? ? ? ?] Hw. exact Hw. }
    intros _. destruct (negb (BaseCatalogCommand.has_catalog this)); [apply inv_throw |].
    apply inv_bind; [apply inv_resting_open | intros _].
    apply inv_bind; [apply resting_resolve_archive | intros temp_descr].
    apply inv_bind; [apply resting_resolve_profile | intros backupProfile].
    apply inv_ret. }
  pose proof (hoare_conj _ _ _ _ _ _ _ (prepare_unregistered this) H) as Hboth.
  apply (hoare_weaken _ _ _ _ _ _ _ Hboth).
  - intros w Hw. split; [exact I | exact Hw].
  - intros _ w Hw. exact Hw.
  - intros _ w Hw. exact Hw.
Qed.

Lemma pristine_call {A : Type} (t0 : BackupCatalog.Tables) (c : Call)
    (op : World -> Refusal (A * World)) :
  keeps db op -> keeps transaction op -> keeps basebackup_registered op ->
  inv (pristine t0) (call c op).
Proof.
  intros Hdb Htx Hflag.
  assert (H1 : inv unregistered (call c op)).
  { apply inv_unregistered_call. intros w a w2 Hw E. unfold unregistered in *.
    rewrite (Hflag _ _ _ E). exact Hw. }
  assert (H2 : inv (resting t0) (call c op)).
  { apply inv_call_store; [apply of_store_resting | exact Hdb | exact Htx]. }
  exact (hoare_conj _ _ _ _ _ _ _ H1 H2).
Qed.

Ltac keeps_world :=
  first [ apply keeps_pure
        | intros [? ? [?|] ? ? ? [?|] ? ?] ? ? E; cbn in E; inversion E; subst; reflexivity ].

(** The transaction that registers the backup, started from the catalog
    at rest: when it raises, the catalog is at rest on the same rows. *)
Lemma registration_pristine (t0 : BackupCatalog.Tables) (peer : Stream.t)
    (temp_descr : CatalogDescr.t) :
  hoare (fun w => unregistered w /\ within t0 w)
    (try_catch
       (Stream.initialize ;;
        Stream.create ;;
        Stream.assign (BaseBackupDescr.set_archive_id (CatalogDescr.id temp_descr)) ;;
        Stream.assign (BaseBackupDescr.set_fsentry (Stream.backupDirectoryString peer)) ;;
        basebackupDescr <- Stream.getBaseBackupDescr ;;
        cout (Cerr (cat ["directory handle path "; BaseBackupDescr.fsentry basebackupDescr;
                         endl])) ;;
        catalog.registerBasebackup (CatalogDescr.id temp_descr) basebackupDescr ;;
        catalog.commitTransaction)
       (fun e => catalog.rollbackTransaction ;; throw (sliced e)))
    (fun _ _ => True)
    (fun _ => pristine t0).
Proof.
  intros w [Hflag Htx]. unfold unregistered, within in *. open_world w.
  destruct b as [d |]; plan_cases2; try exact I; repeat split; reflexivity.
Qed.

Lemma flagged_call {A : Type} (c : Call) (op : World -> Refusal (A * World)) :
  keeps basebackup_registered op -> inv flagged (call c op).
Proof.
  intros Hop. apply inv_call.
  - intros w l Hw. exact Hw.
  - intros w t Hw. exact Hw.
  - intros w a w2 Hw E. unfold flagged in *. rewrite (Hop _ _ _ E). exact Hw.
Qed.

Lemma keeps_on_db_flag {A : Type} (f : BackupCatalog.Tables -> A * BackupCatalog.Tables) :
  keeps basebackup_registered (on_db f).
Proof.
  intros w a w2. unfold on_db. destruct (f (db w)) as [a' t].
  intros E. inversion E; subst. reflexivity.
Qed.

Lemma keeps_on_db_checked_flag {A : Type}
    (f : BackupCatalog.Tables -> Refusal (A * BackupCatalog.Tables)) :
  keeps basebackup_registered (on_db_checked f).
Proof.
  intros w a w2. unfold on_db_checked. destruct (f (db w)) as [[a' t] | e]; [| discriminate].
  intros E. inversion E; subst. reflexivity.
Qed.

Lemma inv_flagged_rollback : inv flagged catalog.rollbackTransaction.
Proof.
  intros w Hw. unfold catalog.rollbackTransaction.
  destruct w as [o t [s |] f tr term b reg txp]; exact Hw.
Qed.

Ltac stays_flagged :=
  repeat first
    [ apply inv_bind; [| intros ?]
    | apply inv_try_catch; [| intros ?]
    | apply inv_ret
    | apply inv_throw
    | apply inv_gets
    | apply inv_when
    | apply inv_flagged_rollback
    | apply inv_modify; intros [? ? ? ? ? ? ? ? ?] ?; assumption
    | apply flagged_call;
      first [apply keeps_on_db_flag | apply keeps_on_db_checked_flag | keeps_world]
    | progress cbv zeta
    | match goal with
      | |- inv _ (if ?c then _ else _) => destruct c
      end ].

Lemma flagged_tablespaces (queue : list BackupTablespaceDescr.t) :
  inv flagged (StartBasebackupCatalogCommand.stream_tablespaces queue).
Proof.
  induction queue as [| s queue IH]; cbn [StartBasebackupCatalogCommand.stream_tablespaces].
  - unfold Stream.stepTablespace. stays_flagged.
  - unfold Stream.stepTablespace, Stream.getBaseBackupDescr,
      catalog.registerTablespaceForBackup, Stream.backupTablespace.
    apply inv_bind; [stays_flagged | intros _].
    apply inv_bind; [stays_flagged | intros d]. cbv zeta.
    apply inv_bind; [stays_flagged | intros _].
    apply inv_bind; [stays_flagged | intros _].
    exact IH.
Qed.

Lemma stream_pristine (t0 : BackupCatalog.Tables) (peer : Stream.t)
    (temp_descr : CatalogDescr.t) (backupProfile : BackupProfileDescr.t) :
  hoare (pristine t0)
        (StartBasebackupCatalogCommand.stream peer temp_descr backupProfile)
        (fun _ => flagged)
        (fun _ w => flagged w \/ pristine t0 w).
Proof.
  assert (Hpre : forall (A : Type) (m : M A),
             inv (pristine t0) m ->
             hoare (pristine t0) m (fun _ => pristine t0)
                   (fun _ w => flagged w \/ pristine t0 w)).
  { intros A m H. apply (hoare_weaken _ _ _ _ _ _ _ H); auto. }
  assert (Hpost : forall (A : Type) (m : M A),
             inv flagged m ->
             hoare flagged m (fun _ => flagged) (fun _ w => flagged w \/ pristine t0 w)).
  { intros A m H. apply (hoare_weaken _ _ _ _ _ _ _ H); auto. }
  unfold StartBasebackupCatalogCommand.stream.
  apply hoare_bind with (R := fun _ => pristine t0);
    [apply Hpre; unfold Stream.connect; apply pristine_call; keeps_world | intros _].
  apply hoare_bind with (R := fun _ => pristine t0);
    [apply Hpre; unfold Stream.identify; apply pristine_call; keeps_world | intros _].
  apply hoare_bind with (R := fun _ => pristine t0);
    [apply Hpre; unfold Stream.basebackup; apply pristine_call; keeps_world | intros _].
  apply hoare_bind with (R := fun _ => pristine t0);
    [apply Hpre; unfold Stream.start; apply pristine_call; keeps_world | intros _].
  apply hoare_bind with (R := fun _ w => unregistered w /\ within t0 w).
  { intros w [Hflag [Htx Hdb]]. unfold unregistered in Hflag. open_world w.
    plan_cases2;
      first [right; repeat split; reflexivity | repeat split; reflexivity]. }
  intros _.
  apply hoare_bind with (R := fun _ _ => True).
  { apply (hoare_weaken _ _ _ _ _ _ _ (registration_pristine t0 peer temp_descr)); auto. }
  intros _.
  apply hoare_bind with (R := fun _ => flagged).
  { intros [? ? ? ? ? ? ? ? ?] _. reflexivity. }
  intros _. apply Hpost.
  apply inv_bind; [unfold Stream.readTablespaceInfo; stays_flagged | intros queue].
  apply inv_bind; [apply flagged_tablespaces | intros _].
  apply inv_bind; [unfold Stream.end_; stays_flagged | intros _].
  unfold Stream.disconnect; stays_flagged.
Qed.

(** The handler of the protected block always raises its copy of what
    it caught. *)
Lemma compensate_raises (e : Failure) (w : World) :
  exists w', StartBasebackupCatalogCommand.compensate e w = (Throw (Derived (sliced e)), w').
Proof.
  destruct w as [o t tx f tr term b reg txp].
  destruct reg; destruct tx; plan_cases2; eexists; reflexivity.
Qed.

Lemma compensate_pristine (t0 : BackupCatalog.Tables) (e : Failure) :
  hoare (fun w => flagged w \/ pristine t0 w)
        (StartBasebackupCatalogCommand.compensate e)
        (fun _ w => flagged w \/ pristine t0 w)
        (fun _ w => flagged w \/ pristine t0 w).
Proof.
  intros w [Hw | Hw].
  - assert (H : inv flagged (StartBasebackupCatalogCommand.compensate e)).
    { unfold StartBasebackupCatalogCommand.compensate, catalog.startTransaction,
        Stream.getBaseBackupDescr, catalog.abortBasebackup, catalog.commitTransaction.
      stays_flagged. }
    specialize (H w Hw).
    destruct (StartBasebackupCatalogCommand.compensate e w) as [[[] | [e' |]] w'];
      [left; exact H | left; exact H | contradiction].
  - destruct Hw as [Hflag Hrest].
    rewrite (compensate_unregistered e w Hflag). right.
    destruct w as [o t tx f tr term b reg txp]. split; [exact Hflag | exact Hrest].
Qed.

Lemma finalize_flagged : inv flagged StartBasebackupCatalogCommand.finalize.
Proof.
  unfold StartBasebackupCatalogCommand.finalize, catalog.startTransaction,
    Stream.getBaseBackupDescr, catalog.finalizeBasebackup, catalog.commitTransaction.
  stays_flagged.
Qed.

Lemma execute_pristine (t0 : BackupCatalog.Tables) (peer : Stream.t)
    (this : BaseCatalogCommand.t) (background : bool) :
  hoare (resting t0) (StartBasebackupCatalogCommand.execute peer this background)
        (fun _ => flagged) (fun _ w => flagged w \/ pristine t0 w).
Proof.
  unfold StartBasebackupCatalogCommand.execute.
  apply hoare_bind with (R := fun _ => pristine t0).
  { apply (hoare_weaken _ _ _ _ _ _ _ (resting_prepare t0 this)); auto. }
  intros resolved. cbv zeta.
  apply hoare_bind with (R := fun _ => flagged).
  - apply hoare_try_catch with (R := fun _ w => flagged w \/ pristine t0 w).
    + apply stream_pristine.
    + intros e w Hw. pose proof (compensate_pristine t0 e w Hw) as H.
      destruct (compensate_raises e w) as [w' E]. rewrite E in *. exact H.
  - intros _. apply (hoare_weaken _ _ _ _ _ _ _ finalize_flagged); auto.
Qed.

(** X16.  A start-basebackup that ends without its base backup registered
    has changed nothing in the catalog: started with no transaction in
    progress, whichever calls fail, if the command is over and the
    registration flag is not set, then the command raised, the rows of the
    catalog are those it started with, and no transaction is in
    progress. *)
Theorem start_basebackup_unregistered_leaves_rows :
  forall (peer : Stream.t) (this : BaseCatalogCommand.t) (background : bool) (w : World),
    idle w ->
    let run := StartBasebackupCatalogCommand.execute peer this background in
    basebackup_registered (after run w) = false ->
    (exists e : Failure, result run w = Throw e)
    /\ db (after run w) = db w
    /\ transaction (after run w) = None.
Proof.
  intros peer this background w Hidle run Hflag. subst run.
  pose proof (execute_pristine (db w) peer this background w (conj Hidle eq_refl)) as H.
  unfold result, after in *.
  destruct (StartBasebackupCatalogCommand.execute peer this background w)
    as [[[] | [e |]] w'];
    cbn [fst snd] in *.
  - unfold flagged in H. congruence.
  - destruct H as [H | [_ [Htx Hdb]]]; [unfold flagged in H; congruence |].
    split; [exists e; reflexivity | split; assumption].
  - contradiction.
Qed.

Lemma start_basebackup_unregistered_leaves_rows_witness :
  let w := world_of Sample.tables (repeat None 15 ++ [Some Sample.catalog_failure]) in
  let run := StartBasebackupCatalogCommand.execute
               Sample.peer (Sample.backup_command "a" "") false in
  idle w
  /\ basebackup_registered (after run w) = false
  /\ result run w = Throw (mkFailure CPGBackupCtlFailure "database is locked")
  /\ db (after run w) = Sample.tables.
Proof.
  cbv zeta. split; [reflexivity |]. split; [reflexivity |]. split; [reflexivity |].
  exact (proj1 (proj2 (start_basebackup_unregistered_leaves_rows
                         Sample.peer (Sample.backup_command "a" "") false
                         (world_of Sample.tables
                            (repeat None 15 ++ [Some Sample.catalog_failure]))
                         eq_refl eq_refl))).
Defined.

(** ** start-basebackup: a run in which nothing fails *)

Lemma next_id_nonneg (ids : list Z) : 0 <= BackupCatalog.next_id ids.
Proof.
  unfold BackupCatalog.next_id.
  assert (H : -1 <= fold_right Z.max (-1) ids).
  { induction ids as [| x ids IH]; cbn [fold_right]; lia. }
  lia.
Qed.

Lemma map_on_backup_other (i : Z) (f : BaseBackupDescr.t -> BaseBackupDescr.t)
    (l : list BaseBackupDescr.t) :
  (forall b, In b l -> BaseBackupDescr.id b <> i) ->
  map (BackupCatalog.on_backup i f) l = l.
Proof.
  intros H. induction l as [| b l IH]; cbn [map]; [reflexivity |].
  unfold BackupCatalog.on_backup at 1.
  destruct (Z.eqb_spec (BaseBackupDescr.id b) i) as [E | _].
  - exfalso. apply (H b); [left; reflexivity | exact E].
  - f_equal. apply IH. intros b' Hb'. apply H. right. exact Hb'.
Qed.

Lemma map_on_backup_fresh (f : BaseBackupDescr.t -> BaseBackupDescr.t)
    (l : list BaseBackupDescr.t) :
  map (BackupCatalog.on_backup (BackupCatalog.next_id (map BaseBackupDescr.id l)) f) l = l.
Proof.
  apply map_on_backup_other. intros b Hb.
  pose proof (next_id_fresh (map BaseBackupDescr.id l) (BaseBackupDescr.id b)
                            (in_map _ _ _ Hb)).
  lia.
Qed.

(** The loop over the tablespaces when nothing fails: one row per
    tablespace of the stream, each for the registered backup. *)
Lemma stream_tablespaces_quiet (queue : list BackupTablespaceDescr.t) :
  forall (w : World) (d : BaseBackupDescr.t),
    faults w = [] ->
    bbp w = Some d ->
    0 <= BaseBackupDescr.id d ->
    exists (tr : list Entry) (new : list BackupTablespaceDescr.t),
      StartBasebackupCatalogCommand.stream_tablespaces queue w
      = (Ok tt,
         set_trace tr
           (set_db (BackupCatalog.set_backup_tablespaces
                      (BackupCatalog.backup_tablespaces (db w) ++ new) (db w)) w))
      /\ map BackupTablespaceDescr.spcoid new = map BackupTablespaceDescr.spcoid queue
      /\ Forall (fun r => BackupTablespaceDescr.backup_id r = BaseBackupDescr.id d) new.
Proof.
  induction queue as [| s queue IH]; intros w d Hf Hb Hid;
    destruct w as [o t tx f tr term b reg txp]; cbn [faults bbp db] in *; subst f b;
    cbn [StartBasebackupCatalogCommand.stream_tablespaces].
  - eexists; exists []. exec2. rewrite app_nil_r.
    split; [| split; [reflexivity | constructor]].
    destruct t; reflexivity.
  - exec2. unfold BackupCatalog.registerTablespaceForBackup.
    cbn [BackupTablespaceDescr.backup_id BackupTablespaceDescr.set_backup_id].
    rewrite (ltb_false _ _ Hid). exec2.
    match goal with
    | |- context [StartBasebackupCatalogCommand.stream_tablespaces queue ?w1] =>
        destruct (IH w1 d eq_refl eq_refl Hid) as (tr' & new & E & Hoid & Hbid); rewrite E
    end.
    eexists; eexists. exec2. rows. rewrite <- app_assoc. cbn [app].
    split; [reflexivity |]. split.
    + cbn [map BackupTablespaceDescr.spcoid BackupTablespaceDescr.set_id
           BackupTablespaceDescr.set_backup_id]. f_equal. exact Hoid.
    + constructor; [reflexivity | exact Hbid].
Qed.
Lemma bind_ok {A B : Type} (m : M A) (k : A -> M B) (w w' : World) (a : A) :
  m w = (Ok a, w') -> bind m k w = k a w'.
Proof. intros E. unfold bind. rewrite E. reflexivity. Qed.

Lemma try_catch_ok {A : Type} (m : M A) (h : Failure -> M A) (w w' : World) (a : A) :
  m w = (Ok a, w') -> try_catch m h w = (Ok a, w').
Proof. intros E. unfold try_catch. rewrite E. reflexivity. Qed.

(** Lines 481-524 when nothing fails and the archive exists. *)
Lemma resolve_archive_quiet (this : BaseCatalogCommand.t) (t : BackupCatalog.Tables)
    (tr : list Entry) (term : list Out) (b : option BaseBackupDescr.t) (reg txp : bool) :
  0 <= CatalogDescr.id (BackupCatalog.existsByName (CatalogDescr.archive_name this) t) ->
  exists (tr' : list Entry) (d : CatalogDescr.t),
    StartBasebackupCatalogCommand.resolve_archive this
      (mkWorld true t None [] tr term b reg txp)
    = (Ok d, mkWorld true t None [] tr' term b reg txp)
    /\ CatalogDescr.id d
       = CatalogDescr.id (BackupCatalog.existsByName (CatalogDescr.archive_name this) t).
Proof.
  intros Hfound. exec2. rewrite (leb_true _ _ Hfound). tidy. rewrite (ltb_false _ _ Hfound).
  exec2. eexists; eexists. split; reflexivity.
Qed.

(** Lines 526-592 when nothing fails and the profile exists. *)
Lemma resolve_profile_quiet (this : BaseCatalogCommand.t) (t : BackupCatalog.Tables)
    (tr : list Entry) (term : list Out) (b : option BaseBackupDescr.t) (reg txp : bool) :
  0 <= BackupProfileDescr.profile_id
         (BackupCatalog.getBackupProfile (requested_profile this) t) ->
  exists (tr' : list Entry) (p : BackupProfileDescr.t),
    StartBasebackupCatalogCommand.resolve_profile this
      (mkWorld true t None [] tr term b reg txp)
    = (Ok p, mkWorld true t None [] tr' term b reg txp).
Proof.
  unfold requested_profile. intros Hprof.
  unfold StartBasebackupCatalogCommand.resolve_profile. cbv zeta.
  destruct (String.eqb (BackupProfileDescr.name (CatalogDescr.backup_profile this)) "");
    cbn [negb]; exec2; rewrite (ltb_false _ _ Hprof); eexists; eexists; reflexivity.
Qed.

Lemma prepare_quiet (this : BaseCatalogCommand.t) (o : bool) (t : BackupCatalog.Tables)
    (tr : list Entry) (term : list Out) (b : option BaseBackupDescr.t) (reg txp : bool) :
  BaseCatalogCommand.has_catalog this = true ->
  0 <= CatalogDescr.id (BackupCatalog.existsByName (CatalogDescr.archive_name this) t) ->
  0 <= BackupProfileDescr.profile_id
         (BackupCatalog.getBackupProfile (requested_profile this) t) ->
  exists (tr' : list Entry) (d : CatalogDescr.t) (p : BackupProfileDescr.t),
    StartBasebackupCatalogCommand.prepare this (mkWorld o t None [] tr term b reg txp)
    = (Ok (d, p), mkWorld true t None [] tr' term None false txp)
    /\ CatalogDescr.id d
       = CatalogDescr.id (BackupCatalog.existsByName (CatalogDescr.archive_name this) t).
Proof.
  intros Hcat Hfound Hprof.
  unfold StartBasebackupCatalogCommand.prepare. rewrite Hcat. cbn [negb].
  unfold bind at 1, modify at 1.
  cbn [set_basebackup_registered set_bbp catalog_open db transaction faults trace terminal
       bbp basebackup_registered txinprogress].
  assert (Hopen : exists tr0,
            open_unless_available (mkWorld o t None [] tr term None false txp)
            = (Ok tt, mkWorld true t None [] tr0 term None false txp)).
  { destruct o; exec2; eexists; reflexivity. }
  destruct Hopen as [tr0 Hopen].
  destruct (resolve_archive_quiet this t tr0 term None false txp Hfound)
    as (tr1 & d & Ed & Hid).
  destruct (resolve_profile_quiet this t tr1 term None false txp Hprof) as (tr2 & p & Ep).
  exists tr2, d, p. split; [| exact Hid].
  rewrite (bind_ok _ _ _ _ _ Hopen), (bind_ok _ _ _ _ _ Ed), (bind_ok _ _ _ _ _ Ep).
  reflexivity.
Qed.
(** The row a quiet run registers for the backup, and the descriptor the
    stream holds when it ends. *)
Lemma stream_quiet (peer : Stream.t) (d : CatalogDescr.t) (p : BackupProfileDescr.t)
    (t : BackupCatalog.Tables) (tr : list Entry) (term : list Out) (txp : bool) :
  let row :=
    BaseBackupDescr.set_status BaseBackupDescr.BASEBACKUP_STATUS_IN_PROGRESS
      (BaseBackupDescr.set_archive_id (CatalogDescr.id d)
         (BaseBackupDescr.set_id
            (BackupCatalog.next_id (map BaseBackupDescr.id (BackupCatalog.backup t)))
            (BaseBackupDescr.set_fsentry (Stream.directory peer)
               (BaseBackupDescr.set_archive_id (CatalogDescr.id d) (Stream.backup peer))))) in
  exists (tr' : list Entry) (term' : list Out) (new : list BackupTablespaceDescr.t),
    StartBasebackupCatalogCommand.stream peer d p
      (mkWorld true t None [] tr term None false txp)
    = (Ok tt,
       mkWorld true
         (BackupCatalog.set_backup_tablespaces
            (BackupCatalog.backup_tablespaces t ++ new)
            (BackupCatalog.set_backup (BackupCatalog.backup t ++ [row]) t))
         None [] tr' term'
         (Some (BaseBackupDescr.set_end (BaseBackupDescr.stopped row)
                  (Stream.end_position peer) row))
         true txp)
    /\ map BackupTablespaceDescr.spcoid new
       = map BackupTablespaceDescr.spcoid (Stream.tablespaces peer)
    /\ Forall (fun r => BackupTablespaceDescr.backup_id r = BaseBackupDescr.id row) new.
Proof.
  intros row.
  assert (Hid : 0 <= BaseBackupDescr.id row) by apply next_id_nonneg.
  exec2. unfold BackupCatalog.registerBasebackup. exec2.
  match goal with
  | |- context [StartBasebackupCatalogCommand.stream_tablespaces ?q ?w1] =>
      destruct (stream_tablespaces_quiet q w1 row eq_refl eq_refl Hid)
        as (tr' & new & E & Hoid & Hbid); rewrite E
  end.
  exec2. rows. eexists. eexists. exists new.
  split; [reflexivity | split; assumption].
Qed.

(** Lines 770-783 when nothing fails. *)
Lemma finalize_quiet (t : BackupCatalog.Tables) (tr : list Entry) (term : list Out)
    (d : BaseBackupDescr.t) (reg txp : bool) :
  exists tr' : list Entry,
    StartBasebackupCatalogCommand.finalize (mkWorld true t None [] tr term (Some d) reg txp)
    = (Ok tt,
       mkWorld true (BackupCatalog.finalizeBasebackup d t) None [] tr' term (Some d) reg txp).
Proof. exec2. eexists. reflexivity. Qed.
(** X17.  start-basebackup when nothing fails: with a catalog handle, no
    transaction in progress, an archive of the given name and the
    requested profile (the default one if none is named) in the catalog,
    the command returns.  It leaves exactly one new row of the backup,
    appended to the rows there were: the row carries the next free id,
    the id of the archive, status ready, the backup directory of the
    stream as its fsentry and the position the end of the stream
    reported.  One tablespace row per tablespace of the stream is
    appended, each for the new backup, in the order of the stream.  The
    archives, connections and profiles are the ones there were, and no
    transaction stays in progress. *)
Theorem start_basebackup_success :
  forall (peer : Stream.t) (this : BaseCatalogCommand.t) (background : bool) (w : World),
    BaseCatalogCommand.has_catalog this = true ->
    idle w ->
    quiet w ->
    let found := CatalogDescr.id
                   (BackupCatalog.existsByName (CatalogDescr.archive_name this) (db w)) in
    let loaded := BackupCatalog.getBackupProfile (requested_profile this) (db w) in
    let new_id := BackupCatalog.next_id
                    (map BaseBackupDescr.id (BackupCatalog.backup (db w))) in
    let run := StartBasebackupCatalogCommand.execute peer this background in
    0 <= found ->
    0 <= BackupProfileDescr.profile_id loaded ->
    exists (row : BaseBackupDescr.t) (spaces : list BackupTablespaceDescr.t),
      result run w = Ok tt
      /\ BackupCatalog.backup (db (after run w)) = BackupCatalog.backup (db w) ++ [row]
      /\ BaseBackupDescr.id row = new_id
      /\ BaseBackupDescr.archive_id row = found
      /\ BaseBackupDescr.status row = BaseBackupDescr.BASEBACKUP_STATUS_READY
      /\ BaseBackupDescr.fsentry row = Stream.directory peer
      /\ BaseBackupDescr.xlogposend row = Stream.end_position peer
      /\ BackupCatalog.backup_tablespaces (db (after run w))
         = BackupCatalog.backup_tablespaces (db w) ++ spaces
      /\ map BackupTablespaceDescr.spcoid spaces
         = map BackupTablespaceDescr.spcoid (Stream.tablespaces peer)
      /\ Forall (fun r => BackupTablespaceDescr.backup_id r = new_id) spaces
      /\ BackupCatalog.archive (db (after run w)) = BackupCatalog.archive (db w)
      /\ BackupCatalog.connections (db (after run w)) = BackupCatalog.connections (db w)
      /\ BackupCatalog.backup_profiles (db (after run w))
         = BackupCatalog.backup_profiles (db w)
      /\ transaction (after run w) = None.
Proof.
  intros peer this background w Hcat Hidle Hquiet found loaded new_id run Hfound Hprof.
  subst run new_id loaded found. open_world w.
  destruct (prepare_quiet this o t tr term b reg txp Hcat Hfound Hprof)
    as (tr1 & d & p & Eprep & Hd).
  destruct (stream_quiet peer d p t tr1 term txp) as (tr2 & term2 & new & Estream & Hoid & Hbid).
  match type of Estream with
  | _ = (_, mkWorld _ ?t2 _ _ _ _ (Some ?d2) _ _) =>
      destruct (finalize_quiet t2 tr2 term2 d2 true txp) as (tr3 & Efin)
  end.
  unfold result, after, StartBasebackupCatalogCommand.execute.
  rewrite (bind_ok _ _ _ _ _ Eprep). cbv zeta. cbn [fst snd].
  rewrite (bind_ok _ _ _ _ _ (try_catch_ok _ _ _ _ _ Estream)).
  rewrite Efin. cbn [fst snd db transaction].
  unfold BackupCatalog.finalizeBasebackup. rows.
  cbn [BaseBackupDescr.id BaseBackupDescr.set_end BaseBackupDescr.set_status
       BaseBackupDescr.set_archive_id BaseBackupDescr.set_id] in *.
  rewrite map_app, map_on_backup_fresh. cbn [map].
  unfold BackupCatalog.on_backup.
  cbn [BaseBackupDescr.id BaseBackupDescr.set_end BaseBackupDescr.set_status
       BaseBackupDescr.set_archive_id BaseBackupDescr.set_id].
  rewrite Z.eqb_refl.
  eexists. exists new.
  split; [reflexivity |]. split; [reflexivity |].
  cbn. rewrite Hd.
  repeat split; try reflexivity; assumption.
Qed.

Lemma start_basebackup_success_witness :
  let w := world_of Sample.tables [] in
  let this := Sample.backup_command "a" "" in
  let run := StartBasebackupCatalogCommand.execute Sample.peer this false in
  BaseCatalogCommand.has_catalog this = true
  /\ idle w
  /\ quiet w
  /\ 0 <= CatalogDescr.id
            (BackupCatalog.existsByName (CatalogDescr.archive_name this) (db w))
  /\ 0 <= BackupProfileDescr.profile_id
            (BackupCatalog.getBackupProfile (requested_profile this) (db w))
  /\ result run w = Ok tt
  /\ transaction (after run w) = None.
Proof.
  cbv zeta.
  assert (Hfound : 0 <= CatalogDescr.id
                          (BackupCatalog.existsByName
                             (CatalogDescr.archive_name (Sample.backup_command "a" ""))
                             (db (world_of Sample.tables [])))).
  { vm_compute. discriminate. }
  assert (Hprof : 0 <= BackupProfileDescr.profile_id
                         (BackupCatalog.getBackupProfile
                            (requested_profile (Sample.backup_command "a" ""))
                            (db (world_of Sample.tables [])))).
  { vm_compute. discriminate. }
  split; [reflexivity |]. split; [reflexivity |]. split; [reflexivity |].
  split; [exact Hfound |]. split; [exact Hprof |].
  destruct (start_basebackup_success Sample.peer (Sample.backup_command "a" "") false
              (world_of Sample.tables []) eq_refl eq_refl eq_refl Hfound Hprof)
    as (row & spaces & Hres & _ & _ & _ & _ & _ & _ & _ & _ & _ & _ & _ & _ & Hidle).
  split; [exact Hres | exact Hidle].
Defined.
